(** * Photobooth: layered composition engine

    A shallow embedding of the operator application (App), the canvas
    editor component (CanvasEditor) and the shared type declarations of the
    photobooth repository, with the properties of its specification.

    JavaScript numbers are modelled as real numbers ([R]): the arithmetic
    of the editor (products, quotients, [Math.hypot], [Math.cos], ...) is
    read as exact arithmetic, so rounding, NaN and infinities are outside
    the model.  JavaScript strings are modelled as [string], one character
    per UTF-16 code unit, so that [String.length] is the [length] property.
    Selection indices and array subscripts are integers ([Z]), since the
    application uses [-1] for "nothing selected". *)

From Stdlib Require Import Reals Lra Lia ZArith List String Ascii Bool Arith.
From Stdlib Require Import Sorted Permutation.
From Stdlib Require OrderedTypeEx.
Import ListNotations.

Set Implicit Arguments.

(* ================================================================== *)
(** * Part I.  Definitions                                             *)
(* ================================================================== *)

(** ** Outcomes of running a piece of the TypeScript

    [Ok a]     the code runs to completion with result [a];
    [Throws]   the code raises an exception (a [TypeError] when a property
               is read from [undefined] or [null]);
    [OffType]  the code keeps running, but on a value that is not of its
               declared TypeScript type (an object lacking fields after an
               out-of-range array write, a number read from a missing
               field, ...); the typed model stops there.

    The state a handler leaves behind when it raises or goes off its types
    is not followed. *)
Module Js.

Inductive Run (A : Type) : Type :=
| Ok (a : A)
| Throws
| OffType.
Arguments Throws {A}.
Arguments OffType {A}.

Definition bind {A B} (m : Run A) (k : A -> Run B) : Run B :=
  match m with
  | Ok a => k a
  | Throws => Throws
  | OffType => OffType
  end.

(** [arr[i]] : [undefined] ([None]) for a negative or too large [i]. *)
Definition get {A} (arr : list A) (i : Z) : option A :=
  if (i <? 0)%Z then None else nth_error arr (Z.to_nat i).

(** [obj.field] where [obj] may be [undefined]: a [TypeError] then. *)
Definition deref {A} (o : option A) : Run A :=
  match o with
  | Some a => Ok a
  | None => Throws
  end.

Fixpoint replace {A} (arr : list A) (n : nat) (a : A) : list A :=
  match arr, n with
  | [], _ => []
  | _ :: r, O => a :: r
  | x :: r, S n' => x :: replace r n' a
  end.

(** [arr[i] = { ...arr[i], ...updates }] on a copy of the array, where
    [merge] is the spread of the updates over the old element.  In range
    the element is replaced.  Out of range JavaScript does not raise: for
    [i >= arr.length] the array is extended (with holes) by an object that
    holds only the fields of the update, and for a negative [i] the object
    is stored under a non-index key; neither result is an array of whole
    layers. *)
Definition set_merged {A} (arr : list A) (i : Z) (merge : A -> A)
  : Run (list A) :=
  match get arr i with
  | Some old => Ok (replace arr (Z.to_nat i) (merge old))
  | None => OffType
  end.

(** [arr.filter((_, i) => i !== k)] *)
Fixpoint filter_index_from {A} (arr : list A) (i : Z) (k : Z) : list A :=
  match arr with
  | [] => []
  | x :: r =>
      if (i =? k)%Z then filter_index_from r (i + 1) k
      else x :: filter_index_from r (i + 1) k
  end.

Definition filter_not_index {A} (arr : list A) (k : Z) : list A :=
  filter_index_from arr 0 k.

(** [for (let i = n - 1; i >= 0; i--) { ... return ... }]: the body is
    run at [n-1], [n-2], ..., [0] until it returns a value. *)
Fixpoint loop_down {H} (body : nat -> option H) (n : nat) : option H :=
  match n with
  | O => None
  | S i =>
      match body i with
      | Some h => Some h
      | None => loop_down body i
      end
  end.

End Js.

Notation "x <- m ;; k" := (Js.bind m (fun x => k))
  (at level 61, m at next level, right associativity).

(** ** Text sanitising ([sanitize] inside [handleUpdateText]) *)
Module Sanitize.

Definition isLt (c : ascii) : bool := Ascii.eqb c "<"%char.
Definition isGt (c : ascii) : bool := Ascii.eqb c ">"%char.

(** Does a [>] occur in [s]? *)
Fixpoint hasClose (s : string) : bool :=
  match s with
  | EmptyString => false
  | String c r => isGt c || hasClose r
  end.

(** [value.replace(/<[^>]*>/g, '')].  The scan goes left to right.  At a
    [<] the pattern matches exactly when a [>] follows somewhere, and the
    match then ends at the first such [>] (the class [[^>]] cannot step
    over it): [skipTag] drops the characters up to and including it and
    the scan resumes behind the match.  Any other character is kept. *)
Fixpoint stripTags (s : string) : string :=
  match s with
  | EmptyString => EmptyString
  | String c r =>
      if isLt c && hasClose r then skipTag r else String c (stripTags r)
  end
with skipTag (s : string) : string :=
  match s with
  | EmptyString => EmptyString
  | String c r => if isGt c then stripTags r else skipTag r
  end.

(** [stripped.slice(0, 300)] *)
Definition sanitize (value : string) : string :=
  substring 0 300 (stripTags value).

(** A string contains an HTML tag when some [<] is followed, further
    right, by a [>]: the piece from that [<] to the first [>] behind it
    then matches [<[^>]*>]. *)
Fixpoint hasTag (s : string) : bool :=
  match s with
  | EmptyString => false
  | String c r => (isLt c && hasClose r) || hasTag r
  end.

(** The same, as the words say it: the string splits into a prefix, a
    [<], a body without [>], a [>], and a rest. *)
Definition containsTag (s : string) : Prop :=
  exists pre body post,
    s = (pre ++ String "<" (body ++ String ">" post))%string
    /\ hasClose body = false.

(** Does a [<] occur in [s]? *)
Fixpoint hasOpen (s : string) : bool :=
  match s with
  | EmptyString => false
  | String c r => isLt c || hasOpen r
  end.

(** What the specification asks of the stripped text, in its own words:
    the substrings that match the tag syntax are removed, and nothing
    else is.  A text that contains no tag is left as it is.  Otherwise
    the text in front of its first [<] is kept, the tag that runs from
    that [<] to the first [>] behind it is dropped, and the rest of the
    text is treated in the same way. *)
Inductive tagsRemoved : string -> string -> Prop :=
| tagsRemoved_plain (s : string) :
    ~ containsTag s -> tagsRemoved s s
| tagsRemoved_tag (pre body post out : string) :
    hasOpen pre = false ->
    hasClose body = false ->
    tagsRemoved post out ->
    tagsRemoved (pre ++ String "<" (body ++ String ">" post))%string
                (pre ++ out)%string.

End Sanitize.

Open Scope R_scope.

(** ** Layer model (the shared type declarations) *)

Record Transform := {
  tr_x : R;          (* center x relative to canvas *)
  tr_y : R;          (* center y relative to canvas *)
  tr_width : R;      (* width relative to canvas *)
  tr_height : R;     (* height relative to canvas *)
  tr_rotation : R    (* degrees *)
}.

Record Crop := {
  crop_x : R;        (* pan x in pixels *)
  crop_y : R;        (* pan y in pixels *)
  crop_scale : R     (* zoom level *)
}.

Inductive Fit := cover | contain.

Record Photo := {
  ph_src : string;
  ph_transform : Transform;
  ph_crop : Crop;
  ph_originalWidth : R;
  ph_originalHeight : R;
  ph_fit : option Fit
}.

Record StickerLayer := {
  st_id : string;
  st_src : string;
  st_x : R;
  st_y : R;
  st_width : R;
  st_height : R;
  st_rotation : R
}.

Record TextLayer := {
  tx_id : string;
  tx_text : string;
  tx_x : R;
  tx_y : R;
  tx_fontSize : R;   (* relative to canvas height *)
  tx_fontFamily : string;
  tx_color : string;
  tx_rotation : R;
  tx_fontWeight : string
}.

Record DrawingPath := {
  dr_id : string;
  dr_points : list (R * R);
  dr_color : string;
  dr_width : R
}.

Record PhotoboothSession := {
  isActive : bool;
  photos : list Photo;
  stickers : list StickerLayer;
  textLayers : list TextLayer;
  drawings : list DrawingPath;
  filter : string;
  isPaid : bool
}.

Inductive LayerType := photo | sticker | text | drawing.

Definition LayerType_eqb (a b : LayerType) : bool :=
  match a, b with
  | photo, photo | sticker, sticker | text, text | drawing, drawing => true
  | _, _ => false
  end.

(** [Partial<Photo>], [Partial<StickerLayer>], [Partial<TextLayer>]: an
    absent field is [None]. *)
Record PhotoUpdate := {
  pu_src : option string;
  pu_transform : option Transform;
  pu_crop : option Crop;
  pu_originalWidth : option R;
  pu_originalHeight : option R;
  pu_fit : option Fit
}.

Record StickerUpdate := {
  su_id : option string;
  su_src : option string;
  su_x : option R;
  su_y : option R;
  su_width : option R;
  su_height : option R;
  su_rotation : option R
}.

Record TextUpdate := {
  tu_id : option string;
  tu_text : option string;
  tu_x : option R;
  tu_y : option R;
  tu_fontSize : option R;
  tu_fontFamily : option string;
  tu_color : option string;
  tu_rotation : option R;
  tu_fontWeight : option string
}.

Definition noPhotoUpdate : PhotoUpdate :=
  Build_PhotoUpdate None None None None None None.
Definition noStickerUpdate : StickerUpdate :=
  Build_StickerUpdate None None None None None None None.
Definition noTextUpdate : TextUpdate :=
  Build_TextUpdate None None None None None None None None None.

(** [upd ?? old] for one field of a spread. *)
Definition over {A} (upd : option A) (old : A) : A :=
  match upd with
  | Some v => v
  | None => old
  end.

(** [{ ...p, ...updates }] *)
Definition mergePhoto (u : PhotoUpdate) (p : Photo) : Photo :=
  {| ph_src := over (pu_src u) (ph_src p);
     ph_transform := over (pu_transform u) (ph_transform p);
     ph_crop := over (pu_crop u) (ph_crop p);
     ph_originalWidth := over (pu_originalWidth u) (ph_originalWidth p);
     ph_originalHeight := over (pu_originalHeight u) (ph_originalHeight p);
     ph_fit := match pu_fit u with Some f => Some f | None => ph_fit p end |}.

Definition mergeSticker (u : StickerUpdate) (s : StickerLayer) : StickerLayer :=
  {| st_id := over (su_id u) (st_id s);
     st_src := over (su_src u) (st_src s);
     st_x := over (su_x u) (st_x s);
     st_y := over (su_y u) (st_y s);
     st_width := over (su_width u) (st_width s);
     st_height := over (su_height u) (st_height s);
     st_rotation := over (su_rotation u) (st_rotation s) |}.

Definition mergeText (u : TextUpdate) (t : TextLayer) : TextLayer :=
  {| tx_id := over (tu_id u) (tx_id t);
     tx_text := over (tu_text u) (tx_text t);
     tx_x := over (tu_x u) (tx_x t);
     tx_y := over (tu_y u) (tx_y t);
     tx_fontSize := over (tu_fontSize u) (tx_fontSize t);
     tx_fontFamily := over (tu_fontFamily u) (tx_fontFamily t);
     tx_color := over (tu_color u) (tx_color t);
     tx_rotation := over (tu_rotation u) (tx_rotation t);
     tx_fontWeight := over (tu_fontWeight u) (tx_fontWeight t) |}.

(** ** Settings, guest-screen state and analytics

    Of the settings records only the fields read by the modelled handlers
    are kept. *)

Record Placeholder := {
  pl_id : Z;
  pl_x : R;
  pl_y : R;
  pl_width : R;
  pl_height : R;
  pl_aspectRatio : option string;
  pl_fit : option Fit
}.

Record LayoutOption := {
  lo_id : string;
  lo_label : string;
  lo_placeholders : list Placeholder
}.

Record FrameLayout := {
  fl_layoutId : string;
  fl_placeholders : list Placeholder
}.

Record FrameConfig := {
  fc_id : string;
  fc_thumbnailSrc : string;
  fc_supportedLayouts : list FrameLayout;
  fc_isVisible : bool
}.

Record ProSettings := {
  enableVending : bool;
  pricePerPrint : R
}.

Record AppSettings := {
  frameSrc : option string;
  availableFrames : list FrameConfig;
  placeholders : list Placeholder;
  aspectRatio : string;
  pro : ProSettings;
  layoutOptions : list LayoutOption
}.

Inductive AppStep :=
  FRAME_UPLOAD | TEMPLATE_DESIGN | PHOTO_UPLOAD | FINALIZE_AND_EXPORT.

Inductive GuestScreenMode :=
  ATTRACT | CONFIG_SELECTION | FRAME_SELECTION | TETHER_PREVIEW
| LIVE_PREVIEW | COUNTDOWN | REVIEW | PAYMENT | DELIVERY.

Record GuestScreenState := {
  gs_mode : GuestScreenMode;
  gs_frameSrc : option (option string);
  gs_photos : option (list Photo);
  gs_stickers : option (list StickerLayer);
  gs_textLayers : option (list TextLayer);
  gs_drawings : option (list DrawingPath);
  gs_filter : option string;
  gs_placeholders : option (list Placeholder);
  gs_aspectRatio : option string;
  gs_proSettings : option ProSettings;
  gs_layoutOptions : option (list LayoutOption);
  gs_availableFrames : option (list FrameConfig)
}.


Record AnalyticsData := {
  totalSessions : Z;
  totalPhotosTaken : Z;
  totalPrints : Z;
  emailsCollected : list string;
  totalRevenue : R
}.

(** Calls into the printing subsystem, which is asynchronous and only
    recorded here. *)
Inductive ExternalCall := CallPrintInternal.

(** ** The operator application state ([App]) *)
Record AppState := {
  session : PhotoboothSession;
  history : list PhotoboothSession;         (* history.current *)
  historyIndex : nat;                       (* historyIndex.current *)
  selectedLayerType : LayerType;
  selectedLayerIndex : Z;
  frameOpacity : R;
  globalPhotoScale : R;
  finalCompositeImage : option string;
  settings : AppSettings;
  analytics : AnalyticsData;
  guestLayoutId : option string;
  appStep : AppStep;
  sent : list GuestScreenState;             (* sendMessage, oldest first *)
  calls : list ExternalCall
}.

Definition with_session (s : PhotoboothSession) (a : AppState) : AppState :=
  Build_AppState s (history a) (historyIndex a) (selectedLayerType a)
    (selectedLayerIndex a) (frameOpacity a) (globalPhotoScale a)
    (finalCompositeImage a) (settings a) (analytics a) (guestLayoutId a)
    (appStep a) (sent a) (calls a).

Definition with_history (h : list PhotoboothSession) (i : nat) (a : AppState)
  : AppState :=
  Build_AppState (session a) h i (selectedLayerType a)
    (selectedLayerIndex a) (frameOpacity a) (globalPhotoScale a)
    (finalCompositeImage a) (settings a) (analytics a) (guestLayoutId a)
    (appStep a) (sent a) (calls a).

Definition with_selectedLayerType (t : LayerType) (a : AppState) : AppState :=
  Build_AppState (session a) (history a) (historyIndex a) t
    (selectedLayerIndex a) (frameOpacity a) (globalPhotoScale a)
    (finalCompositeImage a) (settings a) (analytics a) (guestLayoutId a)
    (appStep a) (sent a) (calls a).

Definition with_selectedLayerIndex (i : Z) (a : AppState) : AppState :=
  Build_AppState (session a) (history a) (historyIndex a) (selectedLayerType a)
    i (frameOpacity a) (globalPhotoScale a)
    (finalCompositeImage a) (settings a) (analytics a) (guestLayoutId a)
    (appStep a) (sent a) (calls a).

Definition with_finalCompositeImage (f : option string) (a : AppState)
  : AppState :=
  Build_AppState (session a) (history a) (historyIndex a) (selectedLayerType a)
    (selectedLayerIndex a) (frameOpacity a) (globalPhotoScale a)
    f (settings a) (analytics a) (guestLayoutId a)
    (appStep a) (sent a) (calls a).

Definition with_settings (s : AppSettings) (a : AppState) : AppState :=
  Build_AppState (session a) (history a) (historyIndex a) (selectedLayerType a)
    (selectedLayerIndex a) (frameOpacity a) (globalPhotoScale a)
    (finalCompositeImage a) s (analytics a) (guestLayoutId a)
    (appStep a) (sent a) (calls a).

Definition with_analytics (n : AnalyticsData) (a : AppState) : AppState :=
  Build_AppState (session a) (history a) (historyIndex a) (selectedLayerType a)
    (selectedLayerIndex a) (frameOpacity a) (globalPhotoScale a)
    (finalCompositeImage a) (settings a) n (guestLayoutId a)
    (appStep a) (sent a) (calls a).

Definition with_guestLayoutId (g : option string) (a : AppState) : AppState :=
  Build_AppState (session a) (history a) (historyIndex a) (selectedLayerType a)
    (selectedLayerIndex a) (frameOpacity a) (globalPhotoScale a)
    (finalCompositeImage a) (settings a) (analytics a) g
    (appStep a) (sent a) (calls a).

Definition with_appStep (s : AppStep) (a : AppState) : AppState :=
  Build_AppState (session a) (history a) (historyIndex a) (selectedLayerType a)
    (selectedLayerIndex a) (frameOpacity a) (globalPhotoScale a)
    (finalCompositeImage a) (settings a) (analytics a) (guestLayoutId a)
    s (sent a) (calls a).

Definition sendMessage (m : GuestScreenState) (a : AppState) : AppState :=
  Build_AppState (session a) (history a) (historyIndex a) (selectedLayerType a)
    (selectedLayerIndex a) (frameOpacity a) (globalPhotoScale a)
    (finalCompositeImage a) (settings a) (analytics a) (guestLayoutId a)
    (appStep a) (sent a ++ [m]) (calls a).

Definition call (c : ExternalCall) (a : AppState) : AppState :=
  Build_AppState (session a) (history a) (historyIndex a) (selectedLayerType a)
    (selectedLayerIndex a) (frameOpacity a) (globalPhotoScale a)
    (finalCompositeImage a) (settings a) (analytics a) (guestLayoutId a)
    (appStep a) (sent a) (calls a ++ [c]).

(** ** Handlers of the operator application

    A handler is a closure of the render that created it.  For the handlers
    fired by the canvas editor the render is the current one (the
    application re-renders after every state change), so they take one
    state.  The guest listener is re-installed only when its effect
    dependencies change, so its handlers take the state [seen] by the
    installing render beside the [live] state that updater functions and
    refs act on. *)

(** [if (finalCompositeImage) setFinalCompositeImage(null)] *)
Definition invalidateAiImage (a : AppState) : AppState :=
  match finalCompositeImage a with
  | Some EmptyString => a
  | Some _ => with_finalCompositeImage None a
  | None => a
  end.

Definition reviewState (seen : AppState) (s : PhotoboothSession)
  : GuestScreenState :=
  {| gs_mode := REVIEW;
     gs_frameSrc := Some (frameSrc (settings seen));
     gs_photos := Some (photos s);
     gs_stickers := Some (stickers s);
     gs_textLayers := Some (textLayers s);
     gs_drawings := Some (drawings s);
     gs_filter := Some (filter s);
     gs_placeholders := None;
     gs_aspectRatio := Some (aspectRatio (settings seen));
     gs_proSettings := None;
     gs_layoutOptions := None;
     gs_availableFrames := None |}.

Definition updateSessionWithHistory (seen : AppState)
    (newSession : PhotoboothSession) (live : AppState) : AppState :=
  let newHistory := firstn (historyIndex live + 1) (history live) ++ [newSession] in
  sendMessage (reviewState seen newSession)
    (with_session newSession
       (with_history newHistory (List.length newHistory - 1) live)).

Definition handleSelectLayer (type : LayerType) (index : Z) (a : AppState)
  : AppState :=
  with_selectedLayerIndex index (with_selectedLayerType type a).

Definition session_with_photos (l : list Photo) (s : PhotoboothSession) :=
  Build_PhotoboothSession (isActive s) l (stickers s) (textLayers s)
    (drawings s) (filter s) (isPaid s).
Definition session_with_stickers (l : list StickerLayer) (s : PhotoboothSession) :=
  Build_PhotoboothSession (isActive s) (photos s) l (textLayers s)
    (drawings s) (filter s) (isPaid s).
Definition session_with_textLayers (l : list TextLayer) (s : PhotoboothSession) :=
  Build_PhotoboothSession (isActive s) (photos s) (stickers s) l
    (drawings s) (filter s) (isPaid s).
Definition session_with_drawings (l : list DrawingPath) (s : PhotoboothSession) :=
  Build_PhotoboothSession (isActive s) (photos s) (stickers s) (textLayers s)
    l (filter s) (isPaid s).
Definition session_with_filter (f : string) (s : PhotoboothSession) :=
  Build_PhotoboothSession (isActive s) (photos s) (stickers s) (textLayers s)
    (drawings s) f (isPaid s).
Definition session_with_isPaid (b : bool) (s : PhotoboothSession) :=
  Build_PhotoboothSession (isActive s) (photos s) (stickers s) (textLayers s)
    (drawings s) (filter s) b.

Definition onPhotoUpdate (index : Z) (updates : PhotoUpdate) (a : AppState)
  : Js.Run AppState :=
  newPhotos <- Js.set_merged (photos (session a)) index (mergePhoto updates) ;;
  Js.Ok (updateSessionWithHistory a (session_with_photos newPhotos (session a))
           (invalidateAiImage a)).

Definition handleUpdateSticker (index : Z) (updates : StickerUpdate)
    (a : AppState) : Js.Run AppState :=
  newStickers <- Js.set_merged (stickers (session a)) index (mergeSticker updates) ;;
  Js.Ok (updateSessionWithHistory a
           (session_with_stickers newStickers (session a))
           (invalidateAiImage a)).

(** [safeUpdates]: the update with its [text], when there is one, sanitised. *)
Definition safeUpdates (updates : TextUpdate) : TextUpdate :=
  {| tu_id := tu_id updates;
     tu_text := match tu_text updates with
                | Some value => Some (Sanitize.sanitize value)
                | None => None
                end;
     tu_x := tu_x updates;
     tu_y := tu_y updates;
     tu_fontSize := tu_fontSize updates;
     tu_fontFamily := tu_fontFamily updates;
     tu_color := tu_color updates;
     tu_rotation := tu_rotation updates;
     tu_fontWeight := tu_fontWeight updates |}.

Definition handleUpdateText (index : Z) (updates : TextUpdate) (a : AppState)
  : Js.Run AppState :=
  newTexts <- Js.set_merged (textLayers (session a)) index
                (mergeText (safeUpdates updates)) ;;
  Js.Ok (updateSessionWithHistory a
           (session_with_textLayers newTexts (session a))
           (invalidateAiImage a)).

Definition handleDeleteLayer (a : AppState) : AppState :=
  let a1 := invalidateAiImage a in
  let a2 :=
    match selectedLayerType a with
    | sticker =>
        updateSessionWithHistory a
          (session_with_stickers
             (Js.filter_not_index (stickers (session a)) (selectedLayerIndex a))
             (session a)) a1
    | text =>
        updateSessionWithHistory a
          (session_with_textLayers
             (Js.filter_not_index (textLayers (session a)) (selectedLayerIndex a))
             (session a)) a1
    | _ => a1
    end in
  with_selectedLayerIndex (-1) a2.

Definition paymentState (seen : AppState) : GuestScreenState :=
  {| gs_mode := PAYMENT; gs_frameSrc := None; gs_photos := None;
     gs_stickers := None; gs_textLayers := None; gs_drawings := None;
     gs_filter := None; gs_placeholders := None; gs_aspectRatio := None;
     gs_proSettings := Some (pro (settings seen));
     gs_layoutOptions := None; gs_availableFrames := None |}.

Definition handlePrint (seen : AppState) (live : AppState) : AppState :=
  if enableVending (pro (settings seen)) && negb (isPaid (session seen))
  then sendMessage (paymentState seen) live
  else call CallPrintInternal live.

(** ** Guest actions and their dispatch ([handleGuestActionDispatch]) *)

Inductive GuestAction :=
| GUEST_START
| GUEST_SELECT_LAYOUT (layout : string)
| GUEST_SELECT_FRAME (frame : string)
| GUEST_EMAIL (email : string)
| GUEST_PRINT
| GUEST_ADD_DRAWING (path : DrawingPath)
| GUEST_SET_FILTER (css : string)
| GUEST_PAYMENT_COMPLETE.

Definition emptySession (active : bool) : PhotoboothSession :=
  {| isActive := active; photos := []; stickers := []; textLayers := [];
     drawings := []; filter := EmptyString; isPaid := false |}.

Definition settings_with_placeholders (p : list Placeholder) (s : AppSettings) :=
  Build_AppSettings (frameSrc s) (availableFrames s) p (aspectRatio s) (pro s)
    (layoutOptions s).
Definition settings_with_frameSrc (f : option string) (s : AppSettings) :=
  Build_AppSettings f (availableFrames s) (placeholders s) (aspectRatio s)
    (pro s) (layoutOptions s).

Definition applyPresetLayout (seen : AppState) (type : string) (live : AppState)
  : AppState :=
  if String.eqb type "custom" then live
  else
    match find (fun l => String.eqb (lo_id l) type) (layoutOptions (settings seen)) with
    | Some layout =>
        with_settings
          (settings_with_placeholders (lo_placeholders layout) (settings live)) live
    | None => live
    end.

Definition livePreviewState (seen : AppState) (src : option string)
  : GuestScreenState :=
  {| gs_mode := LIVE_PREVIEW; gs_frameSrc := Some src; gs_photos := None;
     gs_stickers := None; gs_textLayers := None; gs_drawings := None;
     gs_filter := None;
     gs_placeholders := Some (placeholders (settings seen));
     gs_aspectRatio := Some (aspectRatio (settings seen));
     gs_proSettings := Some (pro (settings seen));
     gs_layoutOptions := None; gs_availableFrames := None |}.

Definition configSelectionState (seen : AppState) : GuestScreenState :=
  {| gs_mode := CONFIG_SELECTION; gs_frameSrc := None; gs_photos := None;
     gs_stickers := None; gs_textLayers := None; gs_drawings := None;
     gs_filter := None; gs_placeholders := None; gs_aspectRatio := None;
     gs_proSettings := None;
     gs_layoutOptions := Some (layoutOptions (settings seen));
     gs_availableFrames := None |}.

Definition frameSelectionState (frames : list FrameConfig) : GuestScreenState :=
  {| gs_mode := FRAME_SELECTION; gs_frameSrc := None; gs_photos := None;
     gs_stickers := None; gs_textLayers := None; gs_drawings := None;
     gs_filter := None; gs_placeholders := None; gs_aspectRatio := None;
     gs_proSettings := None; gs_layoutOptions := None;
     gs_availableFrames := Some frames |}.

Definition analytics_with_emails (l : list string) (n : AnalyticsData) :=
  Build_AnalyticsData (totalSessions n) (totalPhotosTaken n) (totalPrints n) l
    (totalRevenue n).

Definition handleGuestActionDispatch (seen : AppState) (action : GuestAction)
    (live : AppState) : AppState :=
  match action with
  | GUEST_START =>
      let a1 := with_session (emptySession true) live in
      let n := analytics a1 in
      let a2 := with_analytics
                  (Build_AnalyticsData (totalSessions n + 1) (totalPhotosTaken n)
                     (totalPrints n) (emailsCollected n) (totalRevenue n)) a1 in
      sendMessage (configSelectionState seen) a2
  | GUEST_SELECT_LAYOUT layout =>
      let a1 := with_guestLayoutId (Some layout) live in
      let a2 := if String.eqb layout "custom" then a1
                else applyPresetLayout seen layout a1 in
      let compatibleFrames :=
        List.filter
          (fun f => fc_isVisible f
                    && existsb (fun sl => String.eqb (fl_layoutId sl) layout)
                         (fc_supportedLayouts f))
          (availableFrames (settings seen)) in
      if (0 <? List.length compatibleFrames)%nat
      then sendMessage (frameSelectionState compatibleFrames) a2
      else sendMessage (livePreviewState seen (frameSrc (settings seen)))
             (with_appStep PHOTO_UPLOAD a2)
  | GUEST_SELECT_FRAME src =>
      let selectedFrame :=
        find (fun f => String.eqb (fc_thumbnailSrc f) src)
          (availableFrames (settings seen)) in
      let a1 :=
        match selectedFrame with
        | Some f =>
            with_settings
              (settings_with_frameSrc (Some (fc_thumbnailSrc f)) (settings live)) live
        | None =>
            with_settings (settings_with_frameSrc (Some src) (settings live)) live
        end in
      sendMessage (livePreviewState seen (Some src)) (with_appStep PHOTO_UPLOAD a1)
  | GUEST_EMAIL email =>
      if negb (String.eqb email EmptyString)
         && negb (existsb (String.eqb email) (emailsCollected (analytics seen)))
      then with_analytics
             (analytics_with_emails (emailsCollected (analytics live) ++ [email])
                (analytics live)) live
      else live
  | GUEST_PRINT => handlePrint seen live
  | GUEST_ADD_DRAWING path =>
      updateSessionWithHistory seen
        (session_with_drawings (drawings (session seen) ++ [path]) (session seen))
        live
  | GUEST_SET_FILTER css =>
      updateSessionWithHistory seen (session_with_filter css (session seen)) live
  | GUEST_PAYMENT_COMPLETE =>
      let a1 := with_session (session_with_isPaid true (session live)) live in
      let n := analytics a1 in
      let a2 := with_analytics
                  (Build_AnalyticsData (totalSessions n) (totalPhotosTaken n)
                     (totalPrints n) (emailsCollected n)
                     (totalRevenue n + pricePerPrint (pro (settings seen)))) a1 in
      call CallPrintInternal a2
  end.

(** ** Messages on the broadcast channel

    [event.data] is whatever the other window posted: a JavaScript value. *)
Module Wire.

#[local] Set Warnings "-register-all".
Inductive JSValue :=
| JUndefined
| JNull
| JBool (b : bool)
| JNumber (r : R)
| JString (s : string)
| JArray (items : list JSValue)
| JObject (fields : list (string * JSValue)).

Definition typeof (v : JSValue) : string :=
  match v with
  | JUndefined => "undefined"
  | JNull => "object"
  | JBool _ => "boolean"
  | JNumber _ => "number"
  | JString _ => "string"
  | JArray _ => "object"
  | JObject _ => "object"
  end.

(** [!v] *)
Definition falsy (v : JSValue) : bool :=
  match v with
  | JUndefined => true
  | JNull => true
  | JBool b => negb b
  | JNumber r => if Req_dec_T r 0 then true else false
  | JString s => String.eqb s EmptyString
  | JArray _ => false
  | JObject _ => false
  end.

Fixpoint lookup (fields : list (string * JSValue)) (key : string) : JSValue :=
  match fields with
  | [] => JUndefined
  | (k, v) :: r => if String.eqb k key then v else lookup r key
  end.

(** [v.key] for the non-numeric keys the application reads ([type],
    [payload], [email], ...), on a value already known to be an object or
    an array. *)
Definition prop (v : JSValue) (key : string) : JSValue :=
  match v with
  | JObject fields => lookup fields key
  | _ => JUndefined
  end.

(** [v === 'literal'] *)
Definition isStr (v : JSValue) (literal : string) : bool :=
  match v with
  | JString s => String.eqb s literal
  | _ => false
  end.

(** [[...literals].includes(v)] *)
Definition includes (literals : list string) (v : JSValue) : bool :=
  existsb (isStr v) literals.

Definition isObjectType (v : JSValue) : bool := String.eqb (typeof v) "object".
Definition isStringType (v : JSValue) : bool := String.eqb (typeof v) "string".

(** [v.length > n], read only behind a [typeof v === 'string'] test. *)
Definition longerThan (v : JSValue) (n : nat) : bool :=
  match v with
  | JString s => (n <? String.length s)%nat
  | _ => false
  end.

Definition allowed : list string :=
  ["GUEST_START"; "GUEST_SELECT_LAYOUT"; "GUEST_SELECT_FRAME"; "GUEST_EMAIL";
   "GUEST_PRINT"; "GUEST_ADD_DRAWING"; "GUEST_SET_FILTER";
   "GUEST_PAYMENT_COMPLETE"]%string.

Definition messageTypes : list string :=
  ["SET_STATE"; "GET_STATE"; "GUEST_ACTION"]%string.

(** The checks on the payload of a [GUEST_ACTION]; [true] when one of the
    [return false] lines is reached. *)
Definition payloadRejected (p : JSValue) : bool :=
  if falsy p || negb (isObjectType p) || negb (isStringType (prop p "type"))
  then true
  else if negb (includes allowed (prop p "type")) then true
  else if isStr (prop p "type") "GUEST_EMAIL"
          && (negb (isStringType (prop p "email"))
              || longerThan (prop p "email") 200)
  then true
  else if isStr (prop p "type") "GUEST_SELECT_LAYOUT"
          && negb (isStringType (prop p "layout"))
  then true
  else if isStr (prop p "type") "GUEST_SELECT_FRAME"
          && negb (isStringType (prop p "frameSrc"))
  then true
  else false.

Definition validateInterWindowMessage (msg : JSValue) : bool :=
  if falsy msg || negb (isObjectType msg) then false
  else if isStr (prop msg "type") "GUEST_ACTION"
          && payloadRejected (prop msg "payload")
  then false
  else includes messageTypes (prop msg "type").

(** Reading a validated payload at its declared type [GuestAction].  The
    validation has no check for the [drawing] and [filter] fields; a
    payload carrying something else there is not a [GuestAction]. *)
Definition asNumber (v : JSValue) : option R :=
  match v with JNumber r => Some r | _ => None end.
Definition asString (v : JSValue) : option string :=
  match v with JString s => Some s | _ => None end.

Definition asPoint (v : JSValue) : option (R * R) :=
  match asNumber (prop v "x"), asNumber (prop v "y") with
  | Some x, Some y => Some (x, y)
  | _, _ => None
  end.

Fixpoint allSome {A} (l : list (option A)) : option (list A) :=
  match l with
  | [] => Some []
  | Some a :: r =>
      match allSome r with Some r' => Some (a :: r') | None => None end
  | None :: _ => None
  end.

Definition asDrawingPath (v : JSValue) : option DrawingPath :=
  match asString (prop v "id"), prop v "points",
        asString (prop v "color"), asNumber (prop v "width") with
  | Some id, JArray pts, Some color, Some width =>
      match allSome (map asPoint pts) with
      | Some points => Some (Build_DrawingPath id points color width)
      | None => None
      end
  | _, _, _, _ => None
  end.

Definition asGuestAction (p : JSValue) : option GuestAction :=
  match prop p "type" with
  | JString ty =>
      if String.eqb ty "GUEST_START" then Some GUEST_START
      else if String.eqb ty "GUEST_SELECT_LAYOUT" then
        option_map GUEST_SELECT_LAYOUT (asString (prop p "layout"))
      else if String.eqb ty "GUEST_SELECT_FRAME" then
        option_map GUEST_SELECT_FRAME (asString (prop p "frameSrc"))
      else if String.eqb ty "GUEST_EMAIL" then
        option_map GUEST_EMAIL (asString (prop p "email"))
      else if String.eqb ty "GUEST_PRINT" then Some GUEST_PRINT
      else if String.eqb ty "GUEST_ADD_DRAWING" then
        option_map GUEST_ADD_DRAWING (asDrawingPath (prop p "drawing"))
      else if String.eqb ty "GUEST_SET_FILTER" then
        option_map GUEST_SET_FILTER (asString (prop p "filter"))
      else if String.eqb ty "GUEST_PAYMENT_COMPLETE" then
        Some GUEST_PAYMENT_COMPLETE
      else None
  | _ => None
  end.

(** The channel listener. *)
Definition handleGuestAction (seen : AppState) (data : JSValue)
    (live : AppState) : Js.Run AppState :=
  if negb (validateInterWindowMessage data) then Js.Ok live
  else if isStr (prop data "type") "GUEST_ACTION" then
    match asGuestAction (prop data "payload") with
    | Some action => Js.Ok (handleGuestActionDispatch seen action live)
    | None => Js.OffType
    end
  else Js.Ok live.

End Wire.

(** ** The worker compositor: request effect and response handler *)
Module Compositor.

#[local] Open Scope nat_scope.

Record CompositorRequest := {
  rq_width : R;
  rq_height : R;
  rq_photos : list Photo;
  rq_stickers : list StickerLayer;
  rq_textLayers : list TextLayer;
  rq_drawings : list DrawingPath;
  rq_frameSrc : option string;
  rq_frameOpacity : R;
  rq_filter : string;
  rq_globalPhotoScale : R
}.

(** What a render hands to the effect: the application state it closes
    over and [finalCanvasRef.current] (its width and height) if mounted. *)
Record Render := {
  r_app : AppState;
  r_canvas : option (R * R)
}.

Definition compositeRequest (a : AppState) (canvas : R * R)
  : CompositorRequest :=
  {| rq_width := fst canvas;
     rq_height := snd canvas;
     rq_photos := photos (session a);
     rq_stickers := stickers (session a);
     rq_textLayers := textLayers (session a);
     rq_drawings := drawings (session a);
     rq_frameSrc := frameSrc (settings a);
     rq_frameOpacity := frameOpacity a;
     rq_filter := filter (session a);
     rq_globalPhotoScale := globalPhotoScale a |}.

(** A pending [window.setTimeout]: its handle, the time (ms) at which it
    fires, and the message its callback posts.  The message is built from
    what the effect closed over; the canvas size is taken when the effect
    runs (a resize inside the window is not modelled). *)
Record Timer := {
  tm_id : nat;
  tm_due : nat;
  tm_msg : CompositorRequest
}.

Record State := {
  useWorkerCompositor : bool;
  compositorWorker : bool;          (* compositorWorkerRef.current is set *)
  postThrows : bool;                (* w.postMessage raises *)
  workerPending : bool;             (* workerPendingRef.current *)
  timers : list Timer;              (* scheduled, neither fired nor cleared *)
  nextTimer : nat;
  cleanup : option nat;             (* timeout cleared by the effect's cleanup *)
  now : nat;                        (* ms *)
  posted : list CompositorRequest;  (* messages given to the worker *)
  inFlight : nat;                   (* posted and not yet answered *)
  composite : option string;        (* finalCompositeImage *)
  workerRenderMs : R
}.

Definition DEBOUNCE_MS : nat := 150.

Definition clearTimeout (id : nat) (l : list Timer) : list Timer :=
  List.filter (fun t => negb (Nat.eqb (tm_id t) id)) l.

(** React runs the cleanup returned by the previous run of the effect,
    then the effect body. *)
Definition runCleanup (s : State) : State :=
  match cleanup s with
  | Some id =>
      Build_State (useWorkerCompositor s) (compositorWorker s) (postThrows s)
        (workerPending s) (clearTimeout id (timers s)) (nextTimer s) None
        (now s) (posted s) (inFlight s) (composite s) (workerRenderMs s)
  | None => s
  end.

Definition effectBody (r : Render) (s : State) : State :=
  if negb (useWorkerCompositor s) then s
  else if negb (compositorWorker s) then s
  else
    match r_canvas r with
    | None => s
    | Some canvas =>
        if workerPending s then s          (* avoid overlapping renders *)
        else
          let id := nextTimer s in
          let t := Build_Timer id (now s + DEBOUNCE_MS)
                     (compositeRequest (r_app r) canvas) in
          Build_State (useWorkerCompositor s) (compositorWorker s)
            (postThrows s) true (timers s ++ [t]) (S id) (Some id)
            (now s) (posted s) (inFlight s) (composite s) (workerRenderMs s)
    end.

(** The timeout callback:
    [try { w.postMessage(msg) } catch (err) { workerPendingRef.current = false }] *)
Definition fire (t : Timer) (s : State) : State :=
  if postThrows s then
    Build_State (useWorkerCompositor s) (compositorWorker s) (postThrows s)
      false (timers s) (nextTimer s) (cleanup s) (now s) (posted s)
      (inFlight s) (composite s) (workerRenderMs s)
  else
    Build_State (useWorkerCompositor s) (compositorWorker s) (postThrows s)
      (workerPending s) (timers s) (nextTimer s) (cleanup s) (now s)
      (posted s ++ [tm_msg t]) (S (inFlight s)) (composite s)
      (workerRenderMs s).

(** Time passes: the timeouts that fall due fire, in scheduling order. *)
Definition elapse (ms : nat) (s : State) : State :=
  let t1 := now s + ms in
  let due := List.filter (fun t => tm_due t <=? t1) (timers s) in
  let rest := List.filter (fun t => negb (tm_due t <=? t1)) (timers s) in
  let s1 :=
    Build_State (useWorkerCompositor s) (compositorWorker s) (postThrows s)
      (workerPending s) rest (nextTimer s) (cleanup s) t1 (posted s)
      (inFlight s) (composite s) (workerRenderMs s) in
  fold_left (fun acc t => fire t acc) due s1.

(** [w.onmessage] for a [RESULT]; the worker answers requests it was
    given, one answer each. *)
Definition onResult (dataUrl : string) (renderMs : R) (s : State) : State :=
  match inFlight s with
  | O => s
  | S n =>
      Build_State (useWorkerCompositor s) (compositorWorker s) (postThrows s)
        false (timers s) (nextTimer s) (cleanup s) (now s) (posted s) n
        (Some dataUrl) renderMs
  end.

Inductive Event :=
| Edit (r : Render)          (* a dependency of the effect changed *)
| Elapse (ms : nat)
| Result (dataUrl : string) (renderMs : R).

Definition step (s : State) (e : Event) : State :=
  match e with
  | Edit r => effectBody r (runCleanup s)
  | Elapse ms => elapse ms s
  | Result d ms => onResult d ms s
  end.

Definition run (s : State) (evs : list Event) : State :=
  fold_left step evs s.

(** The worker is set up and nothing is scheduled, pending or in flight. *)
Definition ready (s : State) : Prop :=
  useWorkerCompositor s = true /\ compositorWorker s = true
  /\ postThrows s = false /\ workerPending s = false
  /\ timers s = [] /\ cleanup s = None /\ inFlight s = O.

(** [n] further edits, each less than the debounce window after the one
    before it. *)
Inductive burst : list Event -> Prop :=
| burst_nil : burst []
| burst_cons gap r evs :
    gap < DEBOUNCE_MS -> burst evs ->
    burst (Elapse gap :: Edit r :: evs).

(** No timeout is scheduled and no request is in flight, yet the pending
    flag is up: nothing can lower it again. *)
Definition stuck (s : State) : Prop :=
  workerPending s = true /\ timers s = [] /\ inFlight s = 0.

(** The single-flight invariant: the compositor is idle or stuck (no
    timeout, nothing in flight), or has one timeout scheduled, or has one
    request in flight. *)
Definition singleFlight (s : State) : Prop :=
  (timers s = [] /\ inFlight s = 0)
  \/ (exists t, timers s = [t] /\ workerPending s = true /\ inFlight s = 0)
  \/ (timers s = [] /\ workerPending s = true /\ inFlight s = 1).

End Compositor.

(** ** Geometry *)

Definition Rltb (a b : R) : bool := if Rlt_dec a b then true else false.

(** [Math.hypot(a, b)] *)
Definition hypot (a b : R) : R := sqrt (a * a + b * b).

(** [Math.atan2(y, x)] *)
Definition atan2 (y x : R) : R :=
  if Rlt_dec 0 x then atan (y / x)
  else if Rlt_dec x 0 then
    if Rlt_dec y 0 then atan (y / x) - PI else atan (y / x) + PI
  else if Rlt_dec 0 y then PI / 2
  else if Rlt_dec y 0 then - (PI / 2)
  else 0.

Record Canvas := {
  cv_width : R;
  cv_height : R
}.

Record Box := {
  bx_x : R;
  bx_y : R;
  bx_width : R;
  bx_height : R
}.

Definition toAbsolute (transform : Transform) (canvas : Canvas) : Box :=
  {| bx_x := tr_x transform * cv_width canvas;
     bx_y := tr_y transform * cv_height canvas;
     bx_width := tr_width transform * cv_width canvas;
     bx_height := tr_height transform * cv_height canvas |}.

(** The pointer [(mx, my)] seen from a layer centred at [(cx, cy)] and
    turned by [angle] radians: the offset rotated by [-angle]. *)
Definition toLocal (mx my cx cy angle : R) : R * R :=
  ((mx - cx) * cos (- angle) - (my - cy) * sin (- angle),
   (mx - cx) * sin (- angle) + (my - cy) * cos (- angle)).

(** ** The canvas editor component ([CanvasEditor]) *)

Definition ROTATION_HANDLE_OFFSET : R := 25.
Definition ROTATION_HANDLE_SIZE : R := 8.
Definition SCALE_HANDLE_SIZE : R := 8.

(** ['idle' | 'crop_panning' | 'rotating' | 'moving_layer' | 'scaling_layer'
    | 'drawing']; the last is [drawing_path] here, [drawing] being the
    layer type. *)
Inductive InteractionMode :=
  idle | crop_panning | rotating | moving_layer | scaling_layer | drawing_path.

Inductive HitType := rotate | scale | move.

Record Hit := {
  h_type : HitType;
  h_layerType : LayerType;
  h_index : nat
}.

(** [interaction.current.startVal]: [null], or the copy of the layer hit. *)
Inductive StartVal :=
| SNull
| SPhoto (p : Photo)
| SSticker (s : StickerLayer)
| SText (t : TextLayer).

Record Interaction := {
  mode : InteractionMode;
  startX : R;
  startY : R;
  startVal : StartVal;
  startAngle : R;
  startDist : option R      (* absent until a scaling gesture sets it *)
}.

(** The props of the component that the modelled code reads. *)
Record Props := {
  p_photos : list Photo;
  p_stickers : list StickerLayer;
  p_textLayers : list TextLayer;
  p_drawings : list DrawingPath;
  p_filter : string;
  p_frameOpacity : R;
  p_selectedLayerType : LayerType;
  p_selectedLayerIndex : Z;
  p_onDrawStart : bool;       (* is the optional callback passed? *)
  p_onDrawPoint : bool;
  p_onDrawEnd : bool;
  p_isDrawingMode : bool;
  p_globalPhotoScale : R;
  p_activeGuestLayoutPlaceholders : option (list Placeholder)
}.

(** Refs and state of the component. *)
Record Editor := {
  interaction : Interaction;
  transientPhotos : list Photo;
  transientStickers : list StickerLayer;
  transientText : list TextLayer;
  cursor : string;
  loadedImages : list string;     (* sources whose image has loaded *)
  frameImage : bool               (* the frame image has loaded *)
}.

(** What a handler finds around it: the props of the current render, the
    canvas element and [window.devicePixelRatio || 1]. *)
Record Env := {
  props : Props;
  canvas : Canvas;
  dpr : R
}.

(** Calls of the callback props. *)
Inductive Callback :=
| OnSelectLayer (type : LayerType) (index : Z)
| OnPhotoUpdate (index : Z) (updates : PhotoUpdate)
| OnStickerUpdate (index : Z) (updates : StickerUpdate)
| OnTextUpdate (index : Z) (updates : TextUpdate)
| OnDrawStart
| OnDrawPoint (x y : R)
| OnDrawEnd.

Definition with_interaction (i : Interaction) (e : Editor) : Editor :=
  Build_Editor i (transientPhotos e) (transientStickers e) (transientText e)
    (cursor e) (loadedImages e) (frameImage e).

Definition setCursor (c : string) (e : Editor) : Editor :=
  Build_Editor (interaction e) (transientPhotos e) (transientStickers e)
    (transientText e) c (loadedImages e) (frameImage e).

Definition with_mode (m : InteractionMode) (i : Interaction) : Interaction :=
  Build_Interaction m (startX i) (startY i) (startVal i) (startAngle i)
    (startDist i).

Section CanvasEditor.

(** [ctx.measureText(text).width] under the font
    [`${fontWeight} ${fontSize}px ${fontFamily}`]: supplied by the browser. *)
Variable measureText : string -> R -> string -> string -> R.

Definition textWidth (t : TextLayer) (fontSize : R) : R :=
  measureText (tx_fontWeight t) fontSize (tx_fontFamily t) (tx_text t).

Definition selectedIs (env : Env) (type : LayerType) (i : nat) : bool :=
  LayerType_eqb (p_selectedLayerType (props env)) type
  && (p_selectedLayerIndex (props env) =? Z.of_nat i)%Z.

Definition insideBox (lx ly w h : R) : bool :=
  Rltb (Rabs lx) (w / 2) && Rltb (Rabs ly) (h / 2).

(** Body of the loop over the text layers, at index [i]. *)
Definition hitText (env : Env) (mouse : R * R) (i : nat) (t : TextLayer)
  : option Hit :=
  let cx := tx_x t * cv_width (canvas env) in
  let cy := tx_y t * cv_height (canvas env) in
  let fontSize := tx_fontSize t * cv_height (canvas env) in
  let w := textWidth t fontSize + 10 in
  let h := fontSize + 10 in
  let angle := tx_rotation t * PI / 180 in
  let '(localX, localY) := toLocal (fst mouse) (snd mouse) cx cy angle in
  let handleY := - h / 2 - ROTATION_HANDLE_OFFSET * dpr env in
  if selectedIs env text i
     && Rltb (hypot localX (localY - handleY))
          (ROTATION_HANDLE_SIZE * dpr env * 1.5)
  then Some (Build_Hit rotate text i)
  else if selectedIs env text i
          && Rltb (hypot (localX - w / 2) (localY - h / 2))
               (SCALE_HANDLE_SIZE * dpr env * 2)
  then Some (Build_Hit scale text i)
  else if insideBox localX localY w h then Some (Build_Hit move text i)
  else None.

(** Body of the loop over the stickers. *)
Definition hitSticker (env : Env) (mouse : R * R) (i : nat) (s : StickerLayer)
  : option Hit :=
  let cx := st_x s * cv_width (canvas env) in
  let cy := st_y s * cv_height (canvas env) in
  let w := st_width s * cv_width (canvas env) in
  let h := st_height s * cv_height (canvas env) in
  let angle := st_rotation s * PI / 180 in
  let '(localX, localY) := toLocal (fst mouse) (snd mouse) cx cy angle in
  let handleY := - h / 2 - 5 - ROTATION_HANDLE_OFFSET * dpr env in
  if selectedIs env sticker i
     && Rltb (hypot localX (localY - handleY))
          (ROTATION_HANDLE_SIZE * dpr env * 1.5)
  then Some (Build_Hit rotate sticker i)
  else if selectedIs env sticker i
          && Rltb (hypot (localX - w / 2 - 5) (localY - h / 2 - 5))
               (SCALE_HANDLE_SIZE * dpr env * 2)
  then Some (Build_Hit scale sticker i)
  else if insideBox localX localY w h then Some (Build_Hit move sticker i)
  else None.

(** Body of the loop over the photos. *)
Definition hitPhoto (env : Env) (mouse : R * R) (i : nat) (p : Photo)
  : option Hit :=
  let b := toAbsolute (ph_transform p) (canvas env) in
  let width := bx_width b * p_globalPhotoScale (props env) in
  let height := bx_height b * p_globalPhotoScale (props env) in
  let angle := tr_rotation (ph_transform p) * PI / 180 in
  let '(localX, localY) :=
    toLocal (fst mouse) (snd mouse) (bx_x b) (bx_y b) angle in
  let handleCenterY := - height / 2 - ROTATION_HANDLE_OFFSET * dpr env in
  if selectedIs env photo i
     && Rltb (hypot localX (localY - handleCenterY))
          (ROTATION_HANDLE_SIZE * dpr env * 1.5)
  then Some (Build_Hit rotate photo i)
  else if insideBox localX localY width height
  then Some (Build_Hit move photo i)
  else None.

(** [arr[i]] inside [for (i = arr.length - 1; i >= 0; i--)]. *)
Definition at_index {A} (arr : list A) (test : nat -> A -> option Hit)
    (i : nat) : option Hit :=
  match nth_error arr i with
  | Some a => test i a
  | None => None
  end.

Definition orElse {A} (a : option A) (b : option A) : option A :=
  match a with
  | Some _ => a
  | None => b
  end.

(** The canvas is mounted and has a 2d context whenever its own pointer
    handlers run, so the two [return null] guards for a missing canvas or
    context are not taken. *)
Definition getHit (env : Env) (ed : Editor) (mouse : R * R) : option Hit :=
  if p_isDrawingMode (props env) then None
  else
    orElse
      (Js.loop_down (at_index (transientText ed) (hitText env mouse))
         (List.length (transientText ed)))
      (orElse
         (Js.loop_down (at_index (transientStickers ed) (hitSticker env mouse))
            (List.length (transientStickers ed)))
         (Js.loop_down (at_index (transientPhotos ed) (hitPhoto env mouse))
            (List.length (transientPhotos ed)))).

(** A pointer event as the handlers read it: the position in canvas
    pixels ([getMousePos] / [getTouchPos]) and the normalised position
    ([getNormPos]). *)
Record Pointer := {
  pt_mouse : R * R;
  pt_norm : R * R
}.

(** [JSON.parse(JSON.stringify(arr[index]))]: a copy of the layer;
    an exception when the element is [undefined]. *)
Definition startObject (ed : Editor) (hit : Hit) : Js.Run StartVal :=
  let i := Z.of_nat (h_index hit) in
  match h_layerType hit with
  | photo => p <- Js.deref (Js.get (transientPhotos ed) i) ;; Js.Ok (SPhoto p)
  | sticker => s <- Js.deref (Js.get (transientStickers ed) i) ;; Js.Ok (SSticker s)
  | text => t <- Js.deref (Js.get (transientText ed) i) ;; Js.Ok (SText t)
  | drawing => Js.OffType     (* no loop of [getHit] answers with a drawing *)
  end.

(** [start.x], [start.y] of a gesture-start value read as a sticker or a
    text layer: both have the fields, a photo has not, [null] raises. *)
Definition startCentre (v : StartVal) : Js.Run (R * R) :=
  match v with
  | SNull => Js.Throws
  | SPhoto _ => Js.OffType
  | SSticker s => Js.Ok (st_x s, st_y s)
  | SText t => Js.Ok (tx_x t, tx_y t)
  end.

(** [(startVal as Photo).transform] and its fields. *)
Definition startPhoto (v : StartVal) : Js.Run Photo :=
  match v with
  | SPhoto p => Js.Ok p
  | _ => Js.Throws
  end.

Definition handleStart (env : Env) (ed : Editor) (e : Pointer)
  : Js.Run (Editor * list Callback) :=
  if p_isDrawingMode (props env) && p_onDrawStart (props env) then
    Js.Ok (with_interaction (with_mode drawing_path (interaction ed)) ed,
           [OnDrawStart])
  else
    let mouse := pt_mouse e in
    let hit := getHit env ed mouse in
    let i0 := interaction ed in
    let i1 := Build_Interaction (mode i0) (fst mouse) (snd mouse) (startVal i0)
                (startAngle i0) (startDist i0) in
    match hit with
    | Some hit =>
        let select := OnSelectLayer (h_layerType hit) (Z.of_nat (h_index hit)) in
        obj <- startObject ed hit ;;
        let i2 := Build_Interaction (mode i1) (startX i1) (startY i1) obj
                    (startAngle i1) (startDist i1) in
        match h_type hit with
        | rotate =>
            centre <-
              match h_layerType hit with
              | photo =>
                  p <- startPhoto obj ;;
                  let t := toAbsolute (ph_transform p) (canvas env) in
                  Js.Ok (bx_x t, bx_y t, tr_rotation (ph_transform p))
              | _ =>
                  match obj with
                  | SSticker s =>
                      Js.Ok (st_x s * cv_width (canvas env),
                             st_y s * cv_height (canvas env), st_rotation s)
                  | SText t =>
                      Js.Ok (tx_x t * cv_width (canvas env),
                             tx_y t * cv_height (canvas env), tx_rotation t)
                  | SPhoto _ => Js.OffType
                  | SNull => Js.Throws
                  end
              end ;;
            let '(cx, cy, currentRot) := centre in
            let dx := fst mouse - cx in
            let dy := snd mouse - cy in
            Js.Ok (with_interaction
                     (Build_Interaction rotating (startX i2) (startY i2) obj
                        (atan2 dy dx - currentRot * PI / 180) (startDist i2)) ed,
                   [select])
        | scale =>
            c <- startCentre obj ;;
            let cx := fst c * cv_width (canvas env) in
            let cy := snd c * cv_height (canvas env) in
            Js.Ok (with_interaction
                     (Build_Interaction scaling_layer (startX i2) (startY i2) obj
                        (startAngle i2)
                        (Some (hypot (fst mouse - cx) (snd mouse - cy)))) ed,
                   [select])
        | move =>
            let m := match h_layerType hit with
                     | photo => crop_panning
                     | _ => moving_layer
                     end in
            Js.Ok (with_interaction (with_mode m i2) ed, [select])
        end
    | None =>
        Js.Ok (with_interaction (with_mode idle i1) ed,
               if p_isDrawingMode (props env) then []
               else [OnSelectLayer photo (-1)])
    end.

Definition handleEnd (env : Env) (ed : Editor) : Editor * list Callback :=
  (with_interaction (with_mode idle (interaction ed)) ed,
   match mode (interaction ed) with
   | drawing_path =>
       if p_isDrawingMode (props env) && p_onDrawEnd (props env)
       then [OnDrawEnd] else []
   | _ => []
   end).

(** [interaction.current.startDist || 1] *)
Definition startDistOr1 (i : Interaction) : R :=
  match startDist i with
  | Some d => if Req_dec_T d 0 then 1 else d
  | None => 1
  end.

Definition hoverCursor (hit : option Hit) : string :=
  match hit with
  | Some h =>
      match h_type h with
      | rotate => "grab"
      | scale => "nwse-resize"
      | move => "move"
      end
  | None => "default"
  end.

Definition cropPanUpdate (env : Env) (i : Interaction) (start : Photo)
    (mouse : R * R) : PhotoUpdate :=
  let angle := tr_rotation (ph_transform start) * PI / 180 in
  let dx := fst mouse - startX i in
  let dy := snd mouse - startY i in
  (* rotate delta back to align with photo crop axes *)
  let localDx := dx * cos (- angle) - dy * sin (- angle) in
  let localDy := dx * sin (- angle) + dy * cos (- angle) in
  let scaleFactor := 1 / (p_globalPhotoScale (props env) * crop_scale (ph_crop start)) in
  {| pu_src := None; pu_transform := None;
     pu_crop := Some {| crop_x := crop_x (ph_crop start) - localDx * scaleFactor;
                        crop_y := crop_y (ph_crop start) - localDy * scaleFactor;
                        crop_scale := crop_scale (ph_crop start) |};
     pu_originalWidth := None; pu_originalHeight := None; pu_fit := None |}.

Definition stickerScaleUpdate (start : StickerLayer) (scaleFactor : R)
  : StickerUpdate :=
  let ratio := st_width start / st_height start in
  let newW := Rmax 0.02 (st_width start * scaleFactor) in
  {| su_id := None; su_src := None; su_x := None; su_y := None;
     su_width := Some newW; su_height := Some (newW / ratio);
     su_rotation := None |}.

Definition textScaleUpdate (start : TextLayer) (scaleFactor : R) : TextUpdate :=
  let newSize := Rmax 0.02 (tx_fontSize start * scaleFactor) in
  {| tu_id := None; tu_text := None; tu_x := None; tu_y := None;
     tu_fontSize := Some newSize; tu_fontFamily := None; tu_color := None;
     tu_rotation := None; tu_fontWeight := None |}.

Definition stickerMoveUpdate (x y : R) : StickerUpdate :=
  {| su_id := None; su_src := None; su_x := Some x; su_y := Some y;
     su_width := None; su_height := None; su_rotation := None |}.

Definition textMoveUpdate (x y : R) : TextUpdate :=
  {| tu_id := None; tu_text := None; tu_x := Some x; tu_y := Some y;
     tu_fontSize := None; tu_fontFamily := None; tu_color := None;
     tu_rotation := None; tu_fontWeight := None |}.

Definition stickerRotateUpdate (deg : R) : StickerUpdate :=
  {| su_id := None; su_src := None; su_x := None; su_y := None;
     su_width := None; su_height := None; su_rotation := Some deg |}.

Definition textRotateUpdate (deg : R) : TextUpdate :=
  {| tu_id := None; tu_text := None; tu_x := None; tu_y := None;
     tu_fontSize := None; tu_fontFamily := None; tu_color := None;
     tu_rotation := Some deg; tu_fontWeight := None |}.

Definition photoRotateUpdate (t : Transform) (deg : R) : PhotoUpdate :=
  {| pu_src := None;
     pu_transform := Some {| tr_x := tr_x t; tr_y := tr_y t;
                             tr_width := tr_width t; tr_height := tr_height t;
                             tr_rotation := deg |};
     pu_crop := None; pu_originalWidth := None; pu_originalHeight := None;
     pu_fit := None |}.

Definition handleMove (env : Env) (ed : Editor) (e : Pointer)
  : Js.Run (Editor * list Callback) :=
  let i := interaction ed in
  let sel := p_selectedLayerType (props env) in
  let idx := p_selectedLayerIndex (props env) in
  let cv := canvas env in
  let mouse := pt_mouse e in
  if p_isDrawingMode (props env)
     && match mode i with drawing_path => true | _ => false end
     && p_onDrawPoint (props env)
  then Js.Ok (ed, [OnDrawPoint (fst (pt_norm e)) (snd (pt_norm e))])
  else if p_isDrawingMode (props env) then Js.Ok (setCursor "crosshair" ed, [])
  else
    match mode i with
    | idle => Js.Ok (setCursor (hoverCursor (getHit env ed mouse)) ed, [])
    | crop_panning =>
        start <- startPhoto (startVal i) ;;
        Js.Ok (setCursor "grabbing" ed,
               [OnPhotoUpdate idx (cropPanUpdate env i start mouse)])
    | rotating =>
        c <- match sel with
             | photo =>
                 p <- startPhoto (startVal i) ;;
                 let t := toAbsolute (ph_transform p) cv in
                 Js.Ok (bx_x t, bx_y t)
             | _ =>
                 c <- startCentre (startVal i) ;;
                 Js.Ok (fst c * cv_width cv, snd c * cv_height cv)
             end ;;
        let dx := fst mouse - fst c in
        let dy := snd mouse - snd c in
        let angle := atan2 dy dx - startAngle i in
        let deg := angle * 180 / PI in
        match sel with
        | photo =>
            p <- Js.deref (Js.get (transientPhotos ed) idx) ;;
            Js.Ok (setCursor "grabbing" ed,
                   [OnPhotoUpdate idx (photoRotateUpdate (ph_transform p) deg)])
        | sticker =>
            Js.Ok (setCursor "grabbing" ed,
                   [OnStickerUpdate idx (stickerRotateUpdate deg)])
        | _ =>
            Js.Ok (setCursor "grabbing" ed,
                   [OnTextUpdate idx (textRotateUpdate deg)])
        end
    | moving_layer =>
        let dx := (fst mouse - startX i) / cv_width cv in
        let dy := (snd mouse - startY i) / cv_height cv in
        match sel with
        | sticker =>
            c <- startCentre (startVal i) ;;
            Js.Ok (setCursor "move" ed,
                   [OnStickerUpdate idx (stickerMoveUpdate (fst c + dx) (snd c + dy))])
        | text =>
            c <- startCentre (startVal i) ;;
            Js.Ok (setCursor "move" ed,
                   [OnTextUpdate idx (textMoveUpdate (fst c + dx) (snd c + dy))])
        | _ => Js.Ok (setCursor "move" ed, [])
        end
    | scaling_layer =>
        match sel, startVal i with
        | _, SNull => Js.Throws
        | sticker, SSticker start =>
            let cx := st_x start * cv_width cv in
            let cy := st_y start * cv_height cv in
            let currentDist := hypot (fst mouse - cx) (snd mouse - cy) in
            let scaleFactor := currentDist / startDistOr1 i in
            Js.Ok (ed, [OnStickerUpdate idx (stickerScaleUpdate start scaleFactor)])
        | text, SText start =>
            let cx := tx_x start * cv_width cv in
            let cy := tx_y start * cv_height cv in
            let currentDist := hypot (fst mouse - cx) (snd mouse - cy) in
            let scaleFactor := currentDist / startDistOr1 i in
            Js.Ok (ed, [OnTextUpdate idx (textScaleUpdate start scaleFactor)])
        | sticker, _ => Js.OffType
        | text, _ => Js.OffType
        | _, _ => Js.Ok (ed, [])
        end
    | drawing_path => Js.Ok (ed, [])
    end.

(** *** The per-frame draw routine

    The routine is modelled by the calls it makes on the 2d context.  The
    frame-time measurement at its end reads the clock and is left out. *)

Inductive Style :=
| Colour (css : string)
| Rgba (rgb : string) (alpha : R).      (* [`rgba(${rgb}, ${alpha})`] *)

Inductive CanvasOp :=
| SetFillStyle (s : Style)
| SetStrokeStyle (s : Style)
| SetFilter (css : string)
| SetGlobalAlpha (a : R)
| SetLineWidth (w : R)
| SetLineCapRound
| SetLineJoinRound
| SetLineDash (segments : list R)
| SetFont (weight : string) (px : R) (family : string)
| SetTextAlignCenter
| SetTextBaselineMiddle
| FillRect (x y w h : R)
| StrokeRect (x y w h : R)
| Save
| Restore
| Translate (x y : R)
| Rotate (angle : R)
| BeginPath
| Rect (x y w h : R)
| Clip
| MoveTo (x y : R)
| LineTo (x y : R)
| Arc (x y r a0 a1 : R)
| Stroke
| Fill
| DrawImage (src : string) (x y w h : R)
| DrawFrame (x y w h : R)
| FillText (s : string) (x y : R).

(** The theme colours read from the document's CSS variables. *)
Record Theme := {
  panelColor : string;
  primaryColor : string;
  primaryRgb : string
}.

Definition loaded (ed : Editor) (src : string) : bool :=
  existsb (String.eqb src) (loadedImages ed).

Definition drawPhoto (env : Env) (ed : Editor) (p : Photo) : list CanvasOp :=
  if negb (loaded ed (ph_src p)) then []
  else
    let b := toAbsolute (ph_transform p) (canvas env) in
    let width := bx_width b * p_globalPhotoScale (props env) in
    let height := bx_height b * p_globalPhotoScale (props env) in
    let angle := tr_rotation (ph_transform p) * PI / 180 in
    let imgAspectRatio := ph_originalWidth p / ph_originalHeight p in
    let fitMode := match ph_fit p with Some f => f | None => cover end in
    let wider := Rltb (width / height) imgAspectRatio in
    let '(displayWidth, displayHeight) :=
      match fitMode with
      | cover =>
          if wider then (height * imgAspectRatio, height)
          else (width, width / imgAspectRatio)
      | contain =>
          if wider then (width, width / imgAspectRatio)
          else (height * imgAspectRatio, height)
      end in
    let displayWidth := displayWidth * crop_scale (ph_crop p) in
    let displayHeight := displayHeight * crop_scale (ph_crop p) in
    [Save; Translate (bx_x b) (bx_y b); Rotate angle; BeginPath;
     Rect (- width / 2) (- height / 2) width height; Clip;
     DrawImage (ph_src p) (- displayWidth / 2 + crop_x (ph_crop p))
       (- displayHeight / 2 + crop_y (ph_crop p)) displayWidth displayHeight;
     Restore].

Definition drawDrawing (env : Env) (d : DrawingPath) : list CanvasOp :=
  match dr_points d with
  | p0 :: (_ :: _) as rest =>
      [BeginPath; SetStrokeStyle (Colour (dr_color d));
       SetLineWidth (dr_width d * cv_height (canvas env));
       SetLineCapRound; SetLineJoinRound;
       MoveTo (fst p0 * cv_width (canvas env)) (snd p0 * cv_height (canvas env))]
      ++ map (fun p => LineTo (fst p * cv_width (canvas env))
                         (snd p * cv_height (canvas env))) rest
      ++ [Stroke]
  | _ => []                      (* fewer than two points *)
  end.

Definition drawSticker (env : Env) (ed : Editor) (s : StickerLayer)
  : list CanvasOp :=
  if negb (loaded ed (st_src s)) then []
  else
    let x := st_x s * cv_width (canvas env) in
    let y := st_y s * cv_height (canvas env) in
    let w := st_width s * cv_width (canvas env) in
    let h := st_height s * cv_height (canvas env) in
    [Save; Translate x y; Rotate (st_rotation s * PI / 180);
     DrawImage (st_src s) (- w / 2) (- h / 2) w h; Restore].

Definition drawText (env : Env) (t : TextLayer) : list CanvasOp :=
  let x := tx_x t * cv_width (canvas env) in
  let y := tx_y t * cv_height (canvas env) in
  let fontSize := tx_fontSize t * cv_height (canvas env) in
  [Save; Translate x y; Rotate (tx_rotation t * PI / 180);
   SetFont (tx_fontWeight t) fontSize (tx_fontFamily t);
   SetFillStyle (Colour (tx_color t)); SetTextAlignCenter;
   SetTextBaselineMiddle; FillText (tx_text t) 0 0; Restore].

Definition drawPlaceholders (env : Env) : list CanvasOp :=
  match p_activeGuestLayoutPlaceholders (props env) with
  | Some (_ :: _ as ps) =>
      [Save; SetLineWidth 2; SetStrokeStyle (Colour "rgba(255,255,255,0.35)")]
      ++ map (fun p => StrokeRect (pl_x p * cv_width (canvas env))
                         (pl_y p * cv_height (canvas env))
                         (pl_width p * cv_width (canvas env))
                         (pl_height p * cv_height (canvas env))) ps
      ++ [Restore]
  | _ => []
  end.

Definition isSome {A} (o : option A) : bool :=
  match o with
  | Some _ => true
  | None => false
  end.

(** The selection overlay of a photo. *)
Definition photoOverlay (env : Env) (th : Theme) (p : Photo) : list CanvasOp :=
  let b := toAbsolute (ph_transform p) (canvas env) in
  let width := bx_width b * p_globalPhotoScale (props env) in
  let height := bx_height b * p_globalPhotoScale (props env) in
  let angle := tr_rotation (ph_transform p) * PI / 180 in
  let handleY := - height / 2 - ROTATION_HANDLE_OFFSET * dpr env in
  [Save; Translate (bx_x b) (bx_y b); Rotate angle;
   SetStrokeStyle (Rgba (primaryRgb th) 0.9); SetLineWidth (2 * dpr env);
   StrokeRect (- width / 2) (- height / 2) width height;
   BeginPath; MoveTo 0 (- height / 2); LineTo 0 handleY;
   SetStrokeStyle (Colour "rgba(255, 255, 255, 0.8)");
   SetLineWidth (1.5 * dpr env); Stroke;
   BeginPath; Arc 0 handleY (ROTATION_HANDLE_SIZE * dpr env) 0 (PI * 2);
   SetFillStyle (Colour (primaryColor th)); Fill; Restore].

(** The dashed box, rotation handle and scale handle of a sticker or text
    layer of pixel size [w] x [h] at [(x, y)]. *)
Definition layerOverlay (env : Env) (th : Theme) (x y w h rotation : R)
  : list CanvasOp :=
  let handleY := - h / 2 - 5 - ROTATION_HANDLE_OFFSET * dpr env in
  [Save; Translate x y; Rotate (rotation * PI / 180);
   SetStrokeStyle (Rgba (primaryRgb th) 0.9); SetLineWidth (2 * dpr env);
   SetLineDash [5; 5];
   StrokeRect (- w / 2 - 5) (- h / 2 - 5) (w + 10) (h + 10);
   SetLineDash [];
   BeginPath; MoveTo 0 (- h / 2 - 5); LineTo 0 handleY; Stroke;
   BeginPath; Arc 0 handleY (ROTATION_HANDLE_SIZE * dpr env) 0 (PI * 2);
   SetFillStyle (Colour (primaryColor th)); Fill;
   (* the scale handle: the selection is a sticker or a text here *)
   BeginPath; Arc (w / 2 + 5) (h / 2 + 5) (SCALE_HANDLE_SIZE * dpr env) 0 (PI * 2);
   SetFillStyle (Colour "white"); SetStrokeStyle (Rgba (primaryRgb th) 1);
   Fill; Stroke; Restore].

(** Step 7 of the routine: the selection overlays.  Every element read
    from a layer array is read through [Js.deref], which raises on
    [undefined] as the property access of the source would. *)
Definition drawSelection (env : Env) (th : Theme) (ed : Editor)
  : Js.Run (list CanvasOp) :=
  let sel := p_selectedLayerType (props env) in
  let idx := p_selectedLayerIndex (props env) in
  if p_isDrawingMode (props env) then Js.Ok []
  else
    photoPart <-
      (if LayerType_eqb sel photo && negb (idx =? -1)%Z
          && isSome (Js.get (transientPhotos ed) idx)
       then p <- Js.deref (Js.get (transientPhotos ed) idx) ;;
            Js.Ok (photoOverlay env th p)
       else Js.Ok []) ;;
    layerPart <-
      (if negb (LayerType_eqb sel photo) && negb (idx =? -1)%Z then
         if LayerType_eqb sel sticker && isSome (Js.get (transientStickers ed) idx)
         then
           s <- Js.deref (Js.get (transientStickers ed) idx) ;;
           let w := st_width s * cv_width (canvas env) in
           let h := st_height s * cv_height (canvas env) in
           Js.Ok (if Rltb 0 w
                  then layerOverlay env th (st_x s * cv_width (canvas env))
                         (st_y s * cv_height (canvas env)) w h (st_rotation s)
                  else [])
         else if LayerType_eqb sel text && isSome (Js.get (transientText ed) idx)
         then
           t <- Js.deref (Js.get (transientText ed) idx) ;;
           let fontSize := tx_fontSize t * cv_height (canvas env) in
           let w := textWidth t fontSize in
           Js.Ok (SetFont (tx_fontWeight t) fontSize (tx_fontFamily t)
                  :: (if Rltb 0 w
                      then layerOverlay env th (tx_x t * cv_width (canvas env))
                             (tx_y t * cv_height (canvas env)) w fontSize
                             (tx_rotation t)
                      else []))
         else Js.Ok []             (* w = 0: nothing is drawn *)
       else Js.Ok []) ;;
    Js.Ok (photoPart ++ layerPart).

Definition drawLayers (env : Env) (th : Theme) (ed : Editor) : list CanvasOp :=
  [SetFillStyle (Colour (panelColor th));
   FillRect 0 0 (cv_width (canvas env)) (cv_height (canvas env))]
  ++ (if String.eqb (p_filter (props env)) EmptyString then []
      else [SetFilter (p_filter (props env))])
  ++ flat_map (drawPhoto env ed) (transientPhotos ed)
  ++ [SetFilter "none"]
  ++ (if frameImage ed
      then [SetGlobalAlpha (p_frameOpacity (props env));
            DrawFrame 0 0 (cv_width (canvas env)) (cv_height (canvas env));
            SetGlobalAlpha 1]
      else [])
  ++ flat_map (drawDrawing env) (p_drawings (props env))
  ++ flat_map (drawSticker env ed) (transientStickers ed)
  ++ flat_map (drawText env) (transientText ed)
  ++ drawPlaceholders env.

Definition draw (env : Env) (th : Theme) (ed : Editor)
  : Js.Run (list CanvasOp) :=
  overlay <- drawSelection env th ed ;;
  Js.Ok (drawLayers env th ed ++ overlay).

End CanvasEditor.

(** ** Hit testing, as the specification words it *)
Section HitOrder.

Variable measureText : string -> R -> string -> string -> R.

(** Does the rotated rectangle of the layer contain the pointer?  The
    pointer is turned back by the layer's rotation about the layer's
    centre and compared with the half width and half height; the box of a
    text layer is its measured width and its font size, padded by 10
    pixels. *)
Definition textContains (env : Env) (mouse : R * R) (t : TextLayer) : bool :=
  let fontSize := tx_fontSize t * cv_height (canvas env) in
  let '(localX, localY) :=
    toLocal (fst mouse) (snd mouse) (tx_x t * cv_width (canvas env))
      (tx_y t * cv_height (canvas env)) (tx_rotation t * PI / 180) in
  insideBox localX localY (textWidth measureText t fontSize + 10) (fontSize + 10).

Definition stickerContains (env : Env) (mouse : R * R) (s : StickerLayer)
  : bool :=
  let '(localX, localY) :=
    toLocal (fst mouse) (snd mouse) (st_x s * cv_width (canvas env))
      (st_y s * cv_height (canvas env)) (st_rotation s * PI / 180) in
  insideBox localX localY (st_width s * cv_width (canvas env))
    (st_height s * cv_height (canvas env)).

Definition photoContains (env : Env) (mouse : R * R) (p : Photo) : bool :=
  let b := toAbsolute (ph_transform p) (canvas env) in
  let '(localX, localY) :=
    toLocal (fst mouse) (snd mouse) (bx_x b) (bx_y b)
      (tr_rotation (ph_transform p) * PI / 180) in
  insideBox localX localY (bx_width b * p_globalPhotoScale (props env))
    (bx_height b * p_globalPhotoScale (props env)).







Definition hitLayer (h : Hit) : LayerType * nat := (h_layerType h, h_index h).

End HitOrder.

(** Is the selection an element of its layer array?  The editor keeps
    photos, stickers and text layers; it has no overlay for a drawing. *)
Definition selectionValid (ed : Editor) (type : LayerType) (index : Z) : bool :=
  match type with
  | photo => isSome (Js.get (transientPhotos ed) index)
  | sticker => isSome (Js.get (transientStickers ed) index)
  | text => isSome (Js.get (transientText ed) index)
  | drawing => false
  end.

(** ** The editor inside the application

    [App] renders one [CanvasEditor] on the session; pointer events run the
    editor's handlers, whose callbacks run the application's handlers.  The
    canvas size and the device pixel ratio stay as they are during a run. *)
Section Machine.

Variable measureText : string -> R -> string -> string -> R.

Record World := {
  app : AppState;
  editor : Editor;
  w_canvas : Canvas;
  w_dpr : R
}.

(** The props [App] passes: no drawing mode, no drawing callbacks. *)
Definition appProps (a : AppState) : Props :=
  {| p_photos := photos (session a);
     p_stickers := stickers (session a);
     p_textLayers := textLayers (session a);
     p_drawings := drawings (session a);
     p_filter := filter (session a);
     p_frameOpacity := frameOpacity a;
     p_selectedLayerType := selectedLayerType a;
     p_selectedLayerIndex := selectedLayerIndex a;
     p_onDrawStart := false;
     p_onDrawPoint := false;
     p_onDrawEnd := false;
     p_isDrawingMode := false;
     p_globalPhotoScale := globalPhotoScale a;
     p_activeGuestLayoutPlaceholders :=
       match guestLayoutId a with
       | Some id =>
           if String.eqb id EmptyString then None      (* falsy *)
           else
             option_map lo_placeholders
               (find (fun l => String.eqb (lo_id l) id)
                  (layoutOptions (settings a)))
       | None => None
       end |}.

Definition envOf (w : World) : Env :=
  {| props := appProps (app w); canvas := w_canvas w; dpr := w_dpr w |}.

Definition applyCallback (a : AppState) (c : Callback) : Js.Run AppState :=
  match c with
  | OnSelectLayer type index => Js.Ok (handleSelectLayer type index a)
  | OnPhotoUpdate index updates => onPhotoUpdate index updates a
  | OnStickerUpdate index updates => handleUpdateSticker index updates a
  | OnTextUpdate index updates => handleUpdateText index updates a
  | OnDrawStart | OnDrawPoint _ _ | OnDrawEnd => Js.Ok a    (* not passed *)
  end.

Fixpoint applyCallbacks (a : AppState) (cs : list Callback) : Js.Run AppState :=
  match cs with
  | [] => Js.Ok a
  | c :: r => a' <- applyCallback a c ;; applyCallbacks a' r
  end.

(** The three effects that refresh the transient copies:
    [if (interaction.current.mode === 'idle') transientX.current = x]. *)
Definition syncTransient (p : Props) (ed : Editor) : Editor :=
  match mode (interaction ed) with
  | idle =>
      Build_Editor (interaction ed) (p_photos p) (p_stickers p) (p_textLayers p)
        (cursor ed) (loadedImages ed) (frameImage ed)
  | _ => ed
  end.

Inductive Input :=
| PointerDown (e : Pointer)      (* onMouseDown, onTouchStart *)
| PointerMove (e : Pointer)      (* onMouseMove, onTouchMove *)
| PointerUp                      (* onMouseUp, onMouseLeave, onTouchEnd *)
| Rendered.                      (* a render whose effects run *)

Definition withEditor (w : World) (r : Editor * list Callback) : Js.Run World :=
  a <- applyCallbacks (app w) (snd r) ;;
  Js.Ok (Build_World a (fst r) (w_canvas w) (w_dpr w)).

Definition step (w : World) (i : Input) : Js.Run World :=
  match i with
  | PointerDown e =>
      r <- handleStart measureText (envOf w) (editor w) e ;; withEditor w r
  | PointerMove e =>
      r <- handleMove measureText (envOf w) (editor w) e ;; withEditor w r
  | PointerUp => withEditor w (handleEnd (envOf w) (editor w))
  | Rendered =>
      Js.Ok (Build_World (app w) (syncTransient (appProps (app w)) (editor w))
               (w_canvas w) (w_dpr w))
  end.

Fixpoint run (w : World) (inputs : list Input) : Js.Run World :=
  match inputs with
  | [] => Js.Ok w
  | i :: r => w' <- step w i ;; run w' r
  end.

End Machine.


(** ** Invariants of the editor inside the application *)






(** The transient copies have the lengths of the session's arrays. *)
Definition inStep (w : World) : Prop :=
  List.length (transientPhotos (editor w)) = List.length (photos (session (app w)))
  /\ List.length (transientStickers (editor w))
     = List.length (stickers (session (app w)))
  /\ List.length (transientText (editor w))
     = List.length (textLayers (session (app w))).

(** The gesture-start value is a copy of a layer of the selected kind, and
    the selection is an index of that kind's array. *)
Definition startMatches (a : AppState) (v : StartVal) : Prop :=
  match selectedLayerType a, v with
  | photo, SPhoto _ =>
      isSome (Js.get (photos (session a)) (selectedLayerIndex a)) = true
  | sticker, SSticker _ =>
      isSome (Js.get (stickers (session a)) (selectedLayerIndex a)) = true
  | text, SText _ =>
      isSome (Js.get (textLayers (session a)) (selectedLayerIndex a)) = true
  | _, _ => False
  end.

(** What pointer-down establishes for the gesture it starts. *)
Definition gestureOK (w : World) : Prop :=
  let v := startVal (interaction (editor w)) in
  match mode (interaction (editor w)) with
  | idle | drawing_path => True
  | crop_panning => selectedLayerType (app w) = photo /\ startMatches (app w) v
  | rotating => startMatches (app w) v
  | moving_layer | scaling_layer =>
      selectedLayerType (app w) <> photo /\ startMatches (app w) v
  end.

Definition wellFormed (w : World) : Prop := inStep w /\ gestureOK w.


(** ** Concrete inputs used by the examples below *)

Definition demoSettings : AppSettings :=
  {| frameSrc := None; availableFrames := []; placeholders := [];
     aspectRatio := "2 / 3"; pro := Build_ProSettings false 0;
     layoutOptions := [] |}.

Definition demoAnalytics : AnalyticsData :=
  {| totalSessions := 0; totalPhotosTaken := 0; totalPrints := 0;
     emailsCollected := []; totalRevenue := 0 |}.

Definition demoText : TextLayer :=
  {| tx_id := "t1"; tx_text := "Double Click to Edit"; tx_x := 0.5; tx_y := 0.5;
     tx_fontSize := 0.05; tx_fontFamily := "Arial"; tx_color := "#ffffff";
     tx_rotation := 0; tx_fontWeight := "bold" |}.

Definition demoAppWith (s : PhotoboothSession) (type : LayerType) (index : Z)
  : AppState :=
  {| session := s; history := [s]; historyIndex := 0;
     selectedLayerType := type; selectedLayerIndex := index;
     frameOpacity := 1; globalPhotoScale := 1; finalCompositeImage := None;
     settings := demoSettings; analytics := demoAnalytics;
     guestLayoutId := None; appStep := FINALIZE_AND_EXPORT;
     sent := []; calls := [] |}.

Definition sessionOf (ps : list Photo) (ss : list StickerLayer)
    (ts : list TextLayer) : PhotoboothSession :=
  {| isActive := true; photos := ps; stickers := ss; textLayers := ts;
     drawings := []; filter := EmptyString; isPaid := false |}.

Definition demoTextApp : AppState :=
  demoAppWith (sessionOf [] [] [demoText]) text 0.

Definition demoTextEdit : TextUpdate :=
  {| tu_id := None; tu_text := Some "<b>Hi</b> there <i"%string; tu_x := None;
     tu_y := None; tu_fontSize := None; tu_fontFamily := None; tu_color := None;
     tu_rotation := None; tu_fontWeight := None |}.

Definition badLayoutMessage : Wire.JSValue :=
  Wire.JObject
    [("type", Wire.JString "GUEST_ACTION");
     ("payload",
      Wire.JObject [("type", Wire.JString "GUEST_SELECT_LAYOUT");
                    ("layout", Wire.JNumber 42)])]%string.

Definition emailMessage (email : Wire.JSValue) : Wire.JSValue :=
  Wire.JObject
    [("type", Wire.JString "GUEST_ACTION");
     ("payload",
      Wire.JObject [("type", Wire.JString "GUEST_EMAIL"); ("email", email)])]%string.

Fixpoint repeatChar (c : ascii) (n : nat) : string :=
  match n with
  | O => EmptyString
  | S m => String c (repeatChar c m)
  end.

Definition idleCompositor : Compositor.State :=
  {| Compositor.useWorkerCompositor := true;
     Compositor.compositorWorker := true;
     Compositor.postThrows := false;
     Compositor.workerPending := false;
     Compositor.timers := [];
     Compositor.nextTimer := 0;
     Compositor.cleanup := None;
     Compositor.now := 0;
     Compositor.posted := [];
     Compositor.inFlight := 0;
     Compositor.composite := None;
     Compositor.workerRenderMs := 0 |}.

(** A render of the demo application on a mounted 600 x 900 canvas. *)
Definition demoRender : Compositor.Render :=
  {| Compositor.r_app := demoTextApp; Compositor.r_canvas := Some (600, 900) |}.

(** A stand-in for the browser's text metrics: 0.6 em per character. *)
Definition demoMeasure (weight : string) (px : R) (family text : string) : R :=
  px * 0.6 * INR (String.length text).

Definition demoPhoto (rotation : R) (zoom : R) : Photo :=
  {| ph_src := "photo-1.jpg";
     ph_transform := {| tr_x := 0.5; tr_y := 0.5; tr_width := 0.4;
                        tr_height := 0.4; tr_rotation := rotation |};
     ph_crop := {| crop_x := 0; crop_y := 0; crop_scale := zoom |};
     ph_originalWidth := 1200; ph_originalHeight := 1800; ph_fit := None |}.

Definition demoCanvas : Canvas := {| cv_width := 600; cv_height := 900 |}.

Definition idleInteraction : Interaction :=
  {| mode := idle; startX := 0; startY := 0; startVal := SNull;
     startAngle := 0; startDist := None |}.

Definition editorOf (i : Interaction) (ps : list Photo) (ss : list StickerLayer)
    (ts : list TextLayer) : Editor :=
  {| interaction := i; transientPhotos := ps; transientStickers := ss;
     transientText := ts; cursor := "default"; loadedImages := [];
     frameImage := false |}.

(** A world on a 600 x 900 canvas at device pixel ratio 1, the editor idle
    and in step with the session. *)
Definition demoWorld (ps : list Photo) (ss : list StickerLayer)
    (ts : list TextLayer) (type : LayerType) (index : Z) : World :=
  {| app := demoAppWith (sessionOf ps ss ts) type index;
     editor := editorOf idleInteraction ps ss ts;
     w_canvas := demoCanvas; w_dpr := 1 |}.

Definition pointerAt (x y : R) : Pointer :=
  {| pt_mouse := (x, y); pt_norm := (x / 600, y / 900) |}.

(** A photo turned by 90 degrees and zoomed 2x, in the middle of a crop pan
    that started at (100, 100). *)
Definition panningWorld : World :=
  {| app := demoAppWith (sessionOf [demoPhoto 90 2] [] []) photo 0;
     editor := editorOf {| mode := crop_panning; startX := 100; startY := 100;
                           startVal := SPhoto (demoPhoto 90 2);
                           startAngle := 0; startDist := None |}
                 [demoPhoto 90 2] [] [];
     w_canvas := demoCanvas; w_dpr := 1 |}.

(** A sticker in the middle of the canvas, unrotated. *)
Definition demoSticker (width height : R) : StickerLayer :=
  {| st_id := "s1"; st_src := "star.png"; st_x := 0.5; st_y := 0.5;
     st_width := width; st_height := height; st_rotation := 0 |}.

Definition demoTheme : Theme :=
  {| panelColor := "#1f2937"; primaryColor := "#6366f1";
     primaryRgb := "99, 102, 241" |}.


(** Two text layers on top of each other, nothing selected. *)
Definition twoTexts : World :=
  demoWorld [] [] [demoText; demoText] photo (-1).

(** A sticker selection that points past the end of the sticker array. *)
Definition staleSelection : World :=
  demoWorld [] [demoSticker 0.2 0.2] [] sticker 3.


(** A selected square sticker. *)
Definition squareSticker : World :=
  demoWorld [] [demoSticker 0.2 0.2] [] sticker 0.

(** A sticker below the floor from the start (0.01 x 0.01), nothing
    selected. *)
Definition tinySticker : World :=
  demoWorld [] [demoSticker 0.01 0.01] [] photo (-1).


(* ================================================================== *)
(** * Part I, continued.  Further code of the application              *)
(* ================================================================== *)

(** ** Undo and redo ([App])

    [undo] and [redo] are closures of a render like the other handlers:
    they read [finalCompositeImage] and the frame settings of the render
    that created them ([seen]) and act on the history refs and the state
    setters ([live]).  [addToast] is recorded as a notice beside the
    state. *)

Inductive ToastType := toast_success | toast_error | toast_info | toast_warning.

Record Notice := {
  n_message : string;
  n_type : ToastType
}.

(** [invalidateAiImage] of the render [seen], acting on [live]. *)
Definition invalidateAiImageOf (seen live : AppState) : AppState :=
  match finalCompositeImage seen with
  | Some EmptyString => live
  | Some _ => with_finalCompositeImage None live
  | None => live
  end.

Definition undo (seen live : AppState) : Js.Run (AppState * list Notice) :=
  if (0 <? historyIndex live)%nat then
    let a1 := invalidateAiImageOf seen live in
    let index := (historyIndex live - 1)%nat in
    prevSession <- Js.deref (nth_error (history live) index) ;;
    Js.Ok (sendMessage (reviewState seen prevSession)
             (with_session prevSession (with_history (history live) index a1)),
           [Build_Notice "Undo" toast_info])
  else Js.Ok (live, []).

Definition redo (seen live : AppState) : Js.Run (AppState * list Notice) :=
  if (historyIndex live <? List.length (history live) - 1)%nat then
    let a1 := invalidateAiImageOf seen live in
    let index := (historyIndex live + 1)%nat in
    nextSession <- Js.deref (nth_error (history live) index) ;;
    Js.Ok (sendMessage (reviewState seen nextSession)
             (with_session nextSession (with_history (history live) index a1)),
           [Build_Notice "Redo" toast_info])
  else Js.Ok (live, []).

(** A run of history operations, each performed by the closure of some
    render. *)
Inductive HistoryOp :=
| DoEdit (seen : AppState) (newSession : PhotoboothSession)
| DoUndo (seen : AppState)
| DoRedo (seen : AppState).

Definition historyStep (a : AppState) (op : HistoryOp) : Js.Run AppState :=
  match op with
  | DoEdit seen newSession => Js.Ok (updateSessionWithHistory seen newSession a)
  | DoUndo seen => r <- undo seen a ;; Js.Ok (fst r)
  | DoRedo seen => r <- redo seen a ;; Js.Ok (fst r)
  end.

Fixpoint historyRun (a : AppState) (ops : list HistoryOp) : Js.Run AppState :=
  match ops with
  | [] => Js.Ok a
  | op :: rest => a' <- historyStep a op ;; historyRun a' rest
  end.

(** The displayed session is the history entry under the index. *)
Definition historyOK (a : AppState) : Prop :=
  nth_error (history a) (historyIndex a) = Some (session a).

(** ** Reordering, adding and cropping layers ([App]) *)

(** [arr.splice(start, deleteCount, ...items)] on a copy: the array left
    behind.  A negative [start] counts from the end, and both arguments
    are clamped to the array. *)
Definition spliceStart (len : nat) (start : Z) : nat :=
  if (start <? 0)%Z then Z.to_nat (Z.max (Z.of_nat len + start) 0)
  else Nat.min (Z.to_nat start) len.

Definition splice {A} (arr : list A) (start : Z) (deleteCount : nat)
    (items : list A) : list A :=
  let s := spliceStart (List.length arr) start in
  let d := Nat.min deleteCount (List.length arr - s) in
  firstn s arr ++ items ++ skipn (s + d) arr.

Inductive Direction := forward | backward.

(** [photoToMove] is [undefined] for an [index] outside the array, and is
    then spliced into it all the same: the result is no array of photos. *)
Definition onReorderPhoto (index : Z) (direction : Direction) (a : AppState)
  : Js.Run AppState :=
  let a1 := invalidateAiImage a in
  match Js.get (photos (session a)) index with
  | None => Js.OffType
  | Some photoToMove =>
      let removed := splice (photos (session a)) index 1 [] in
      let newIndex := match direction with
                      | forward => (index + 1)%Z
                      | backward => (index - 1)%Z
                      end in
      let newPhotos := splice removed newIndex 0 [photoToMove] in
      let a2 := if LayerType_eqb (selectedLayerType a) photo
                   && (selectedLayerIndex a =? index)%Z
                then with_selectedLayerIndex newIndex a1
                else a1 in
      Js.Ok (updateSessionWithHistory a
               (session_with_photos newPhotos (session a)) a2)
  end.




Definition photo_with_crop (c : Crop) (p : Photo) : Photo :=
  Build_Photo (ph_src p) (ph_transform p) c (ph_originalWidth p)
    (ph_originalHeight p) (ph_fit p).

Definition handleSmartCrop (index : Z) (a : AppState) : AppState :=
  match Js.get (photos (session a)) index with
  | None => a
  | Some p =>
      let a1 := invalidateAiImage a in
      let newPhotos :=
        Js.replace (photos (session a)) (Z.to_nat index)
          (photo_with_crop (Build_Crop 0 0 1.25) p) in
      updateSessionWithHistory a (session_with_photos newPhotos (session a)) a1
  end.

(** ** The guest window ([GuestWindow]) and what it posts

    The guest window posts [{ type: 'GUEST_ACTION', payload: action }] on
    the broadcast channel; the operator's listener receives the value as
    [event.data]. *)
Module GuestWindow.

Import Wire.

Definition sendAction (action : JSValue) : JSValue :=
  JObject [("type", JString "GUEST_ACTION"); ("payload", action)]%string.

(** The object literals its screens hand to [sendAction]. *)
Definition startAction : JSValue :=
  JObject [("type", JString "GUEST_START")]%string.
Definition selectLayoutAction (layout : JSValue) : JSValue :=
  JObject [("type", JString "GUEST_SELECT_LAYOUT"); ("layout", layout)]%string.
Definition selectFrameAction (frameSrc : JSValue) : JSValue :=
  JObject [("type", JString "GUEST_SELECT_FRAME"); ("frameSrc", frameSrc)]%string.
Definition emailAction (email : JSValue) : JSValue :=
  JObject [("type", JString "GUEST_EMAIL"); ("email", email)]%string.
Definition printAction : JSValue :=
  JObject [("type", JString "GUEST_PRINT")]%string.
Definition addDrawingAction (drawing : JSValue) : JSValue :=
  JObject [("type", JString "GUEST_ADD_DRAWING"); ("drawing", drawing)]%string.
Definition setFilterAction (filter : JSValue) : JSValue :=
  JObject [("type", JString "GUEST_SET_FILTER"); ("filter", filter)]%string.
Definition paymentCompleteAction : JSValue :=
  JObject [("type", JString "GUEST_PAYMENT_COMPLETE")]%string.

(** Values of the declared types as the JavaScript objects they are. *)
Definition pointValue (p : R * R) : JSValue :=
  JObject [("x", JNumber (fst p)); ("y", JNumber (snd p))]%string.

Definition drawingValue (d : DrawingPath) : JSValue :=
  JObject [("id", JString (dr_id d));
           ("points", JArray (map pointValue (dr_points d)));
           ("color", JString (dr_color d));
           ("width", JNumber (dr_width d))]%string.

Definition fitValue (f : Fit) : JSValue :=
  match f with
  | cover => JString "cover"
  | contain => JString "contain"
  end.

(** Optional fields that are absent are left out of the object. *)
Definition optionalField (key : string) (v : option JSValue)
  : list (string * JSValue) :=
  match v with
  | Some x => [(key, x)]
  | None => []
  end.

Definition placeholderValue (p : Placeholder) : JSValue :=
  JObject
    (List.app
       [("id", JNumber (IZR (pl_id p)));
        ("x", JNumber (pl_x p)); ("y", JNumber (pl_y p));
        ("width", JNumber (pl_width p));
        ("height", JNumber (pl_height p))]%string
       (List.app
          (optionalField "aspectRatio" (option_map JString (pl_aspectRatio p)))
          (optionalField "fit" (option_map fitValue (pl_fit p))))).

Definition frameLayoutValue (l : FrameLayout) : JSValue :=
  JObject [("layoutId", JString (fl_layoutId l));
           ("placeholders", JArray (map placeholderValue (fl_placeholders l)))]%string.

(** A [FrameConfig] as [handleFrameSelect] and the settings panel build
    it; [name] is the display name, which the handlers do not read. *)
Definition frameConfigValue (name : string) (f : FrameConfig) : JSValue :=
  JObject [("id", JString (fc_id f));
           ("name", JString name);
           ("thumbnailSrc", JString (fc_thumbnailSrc f));
           ("isVisible", JBool (fc_isVisible f));
           ("supportedLayouts",
            JArray (map frameLayoutValue (fc_supportedLayouts f)))]%string.

(** A [GuestAction] as the object literal of its declaration. *)
Definition actionValue (action : GuestAction) : JSValue :=
  match action with
  | GUEST_START => startAction
  | GUEST_SELECT_LAYOUT layout => selectLayoutAction (JString layout)
  | GUEST_SELECT_FRAME frameSrc => selectFrameAction (JString frameSrc)
  | GUEST_EMAIL email => emailAction (JString email)
  | GUEST_PRINT => printAction
  | GUEST_ADD_DRAWING d => addDrawingAction (drawingValue d)
  | GUEST_SET_FILTER css => setFilterAction (JString css)
  | GUEST_PAYMENT_COMPLETE => paymentCompleteAction
  end.

(** [FrameSelectionMode]: a tap on a frame runs [onSelect(frame.src)],
    which is [sendAction({ type: 'GUEST_SELECT_FRAME', frameSrc })]. *)
Definition frameTap (frame : JSValue) : JSValue :=
  sendAction (selectFrameAction (prop frame "src")).

End GuestWindow.

(** ** Keyboard shortcuts of the finalize step ([App])

    The [keydown] listener is installed by an effect whose dependencies
    are [appStep], [isKioskLocked], [isSettingsOpen], [isUiPanelOpen],
    [showPrinterPanel] and [selectedLayerIndex]: it is the closure of the
    last render at which one of these changed. *)

Record Panels := {
  isKioskLocked : bool;
  isSettingsOpen : bool;
  isUiPanelOpen : bool;
  showPrinterPanel : bool
}.

Record Operator := {
  op_app : AppState;
  op_panels : Panels
}.

Record KeyEvent := {
  key : string;
  ctrlKey : bool;
  metaKey : bool;
  targetIsInput : bool     (* an [HTMLInputElement] or [HTMLTextAreaElement] *)
}.

Inductive KeyEffect :=
| PreventDefault
| Download                 (* [handleDownload()], asynchronous *)
| Toast (n : Notice).

Definition AppStep_eqb (a b : AppStep) : bool :=
  match a, b with
  | FRAME_UPLOAD, FRAME_UPLOAD | TEMPLATE_DESIGN, TEMPLATE_DESIGN
  | PHOTO_UPLOAD, PHOTO_UPLOAD | FINALIZE_AND_EXPORT, FINALIZE_AND_EXPORT => true
  | _, _ => false
  end.

(** The dependencies are an enumeration value, four booleans and a number:
    [Object.is] on them is equality. *)
Definition keyDepsSame (r1 r2 : Operator) : bool :=
  AppStep_eqb (appStep (op_app r1)) (appStep (op_app r2))
  && Bool.eqb (isKioskLocked (op_panels r1)) (isKioskLocked (op_panels r2))
  && Bool.eqb (isSettingsOpen (op_panels r1)) (isSettingsOpen (op_panels r2))
  && Bool.eqb (isUiPanelOpen (op_panels r1)) (isUiPanelOpen (op_panels r2))
  && Bool.eqb (showPrinterPanel (op_panels r1)) (showPrinterPanel (op_panels r2))
  && (selectedLayerIndex (op_app r1) =? selectedLayerIndex (op_app r2))%Z.

(** The render whose closure listens after the render [current], when
    the closure of [listener] listened before. *)
Definition keyListenerAfter (listener current : Operator) : Operator :=
  if keyDepsSame listener current then listener else current.

Definition toLowerCaseChar (c : ascii) : ascii :=
  let n := nat_of_ascii c in
  if ((65 <=? n) && (n <=? 90))%nat then ascii_of_nat (n + 32) else c.

Fixpoint toLowerCase (s : string) : string :=
  match s with
  | EmptyString => EmptyString
  | String c r => String (toLowerCaseChar c) (toLowerCase r)
  end.

(** [handleDeleteLayer] of the render [seen], acting on [live]. *)
Definition handleDeleteLayerOf (seen live : AppState) : AppState :=
  let a1 := invalidateAiImageOf seen live in
  let a2 :=
    match selectedLayerType seen with
    | sticker =>
        updateSessionWithHistory seen
          (session_with_stickers
             (Js.filter_not_index (stickers (session seen))
                (selectedLayerIndex seen))
             (session seen)) a1
    | text =>
        updateSessionWithHistory seen
          (session_with_textLayers
             (Js.filter_not_index (textLayers (session seen))
                (selectedLayerIndex seen))
             (session seen)) a1
    | _ => a1
    end in
  with_selectedLayerIndex (-1) a2.

Definition with_app (a : AppState) (o : Operator) : Operator :=
  Build_Operator a (op_panels o).

Definition handleKeyDown (seen : Operator) (e : KeyEvent) (live : Operator)
  : Js.Run (Operator * list KeyEffect) :=
  if negb (AppStep_eqb (appStep (op_app seen)) FINALIZE_AND_EXPORT)
     || isKioskLocked (op_panels seen)
  then Js.Ok (live, [])
  else if targetIsInput e then Js.Ok (live, [])
  else if ctrlKey e || metaKey e then
    let k := toLowerCase (key e) in
    if String.eqb k "z" then
      if (0 <? historyIndex (op_app live))%nat then
        r <- undo (op_app seen) (op_app live) ;;
        Js.Ok (with_app (fst r) live, PreventDefault :: map Toast (snd r))
      else Js.Ok (live, [PreventDefault])
    else if String.eqb k "y" then
      if (historyIndex (op_app live)
          <? List.length (history (op_app live)) - 1)%nat then
        r <- redo (op_app seen) (op_app live) ;;
        Js.Ok (with_app (fst r) live, PreventDefault :: map Toast (snd r))
      else Js.Ok (live, [PreventDefault])
    else if String.eqb k "s" then
      Js.Ok (live, [PreventDefault; Download;
                    Toast (Build_Notice "Downloading..." toast_info)])
    else Js.Ok (live, [])
  else if String.eqb (key e) "Escape" then
    let p := op_panels live in
    if isSettingsOpen (op_panels seen) then
      Js.Ok (Build_Operator (op_app live)
               (Build_Panels (isKioskLocked p) false (isUiPanelOpen p)
                  (showPrinterPanel p)), [])
    else if isUiPanelOpen (op_panels seen) then
      Js.Ok (Build_Operator (op_app live)
               (Build_Panels (isKioskLocked p) (isSettingsOpen p) false
                  (showPrinterPanel p)), [])
    else if showPrinterPanel (op_panels seen) then
      Js.Ok (Build_Operator (op_app live)
               (Build_Panels (isKioskLocked p) (isSettingsOpen p)
                  (isUiPanelOpen p) false), [])
    else Js.Ok (live, [])
  else if String.eqb (key e) "Delete" || String.eqb (key e) "Backspace" then
    if (0 <=? selectedLayerIndex (op_app seen))%Z then
      Js.Ok (with_app (handleDeleteLayerOf (op_app seen) (op_app live)) live,
             [PreventDefault])
    else Js.Ok (live, [])
  else Js.Ok (live, []).

Definition deleteKey : KeyEvent :=
  {| key := "Delete"; ctrlKey := false; metaKey := false;
     targetIsInput := false |}.

(** ** Canvas sizing ([CanvasEditor], the render loop) *)





(** ** A debounced edit whose result arrives ([App], the compositor) *)

(** One edit of the application state [a] on a canvas of size [cv], a
    wait of [ms] milliseconds, and the worker's answer. *)
Record Cycle := {
  cy_app : AppState;
  cy_canvas : R * R;
  cy_wait : nat;
  cy_dataUrl : string;
  cy_renderMs : R
}.

Definition cycleEvents (c : Cycle) : list Compositor.Event :=
  [Compositor.Edit (Compositor.Build_Render (cy_app c) (Some (cy_canvas c)));
   Compositor.Elapse (cy_wait c);
   Compositor.Result (cy_dataUrl c) (cy_renderMs c)].

(** The worker is set up and nothing is scheduled, pending or in flight;
    a cleanup of an earlier run of the effect may be outstanding. *)
Definition settled (s : Compositor.State) : Prop :=
  Compositor.useWorkerCompositor s = true
  /\ Compositor.compositorWorker s = true
  /\ Compositor.postThrows s = false
  /\ Compositor.workerPending s = false
  /\ Compositor.timers s = []
  /\ Compositor.inFlight s = O.

(** The worker's answers among the events. *)
Fixpoint answers (evs : list Compositor.Event) : nat :=
  match evs with
  | [] => O
  | Compositor.Result _ _ :: r => S (answers r)
  | _ :: r => answers r
  end.

(** ** Gestures and the history *)



(** ** Photos into placeholders ([App]) *)

Definition createPhotoFromPlaceholder (src : string) (placeholder : Placeholder)
    (canvasSize imageSize : R * R) : Photo :=
  {| ph_src := src;
     ph_transform :=
       {| tr_x := pl_x placeholder + pl_width placeholder / 2;
          tr_y := pl_y placeholder + pl_height placeholder / 2;
          tr_width := pl_width placeholder;
          tr_height := pl_height placeholder;
          tr_rotation := 0 |};
     ph_crop := Build_Crop 0 0 1;
     ph_originalWidth := fst imageSize;
     ph_originalHeight := snd imageSize;
     ph_fit := Some (match pl_fit placeholder with
                     | Some f => f
                     | None => cover
                     end) |}.

(** An entry of [photoData] with the size of its image once loaded. *)
Record PhotoData := {
  pd_src : string;
  pd_crop : Crop;
  pd_image : R * R
}.

(** The loop of [handlePhotosSelected] from index [i] on: an entry with
    no placeholder under its index is skipped. *)
Fixpoint photosFromData (i : nat) (photoData : list PhotoData)
    (slots : list Placeholder) (canvasSize : R * R) : list Photo :=
  match photoData with
  | [] => []
  | data :: rest =>
      match nth_error slots i with
      | Some placeholder =>
          photo_with_crop (pd_crop data)
            (createPhotoFromPlaceholder (pd_src data) placeholder canvasSize
               (pd_image data))
          :: photosFromData (S i) rest slots canvasSize
      | None => photosFromData (S i) rest slots canvasSize
      end
  end.

Definition analytics_add_photos (n : nat) (d : AnalyticsData) : AnalyticsData :=
  Build_AnalyticsData (totalSessions d) (totalPhotosTaken d + Z.of_nat n)
    (totalPrints d) (emailsCollected d) (totalRevenue d).

(** The handler awaits the loading of every image; it reads the settings
    of the render that called it ([seen]) and then sets the state. *)
Definition handlePhotosSelected (seen : AppState) (canvasSize : R * R)
    (photoData : list PhotoData) (live : AppState) : AppState :=
  let newPhotoObjects :=
    photosFromData 0 photoData (placeholders (settings seen)) canvasSize in
  let newSession :=
    {| isActive := true; photos := newPhotoObjects; stickers := [];
       textLayers := []; drawings := []; filter := EmptyString;
       isPaid := false |} in
  let a1 := with_history [newSession] 0 (with_session newSession live) in
  let a2 := with_appStep FINALIZE_AND_EXPORT a1 in
  let a3 := with_analytics
              (analytics_add_photos (List.length newPhotoObjects) (analytics a2))
              a2 in
  sendMessage (reviewState seen newSession) a3.

(** An entry of the map [newPhotos]: the name of a file and its object
    URL, with the size of the image the browser loads from the URL,
    [None] when the load does not complete, so that [onload] is never
    called. *)
Record HotFile := {
  hf_name : string;
  hf_url : string;
  hf_image : option (R * R)
}.

(** [arr.sort(compare)].  The sort is stable, and for a consistent
    comparator that fixes its result: the elements in ascending order,
    those that compare equal in the order they had.  [insertSorted] puts
    [x], which stood in front of the elements of [sorted], in front of
    the first of them that is not below it. *)
Fixpoint insertSorted {A : Type} (compare : A -> A -> Z) (x : A)
    (sorted : list A) : list A :=
  match sorted with
  | [] => [x]
  | y :: rest =>
      if (0 <? compare x y)%Z then y :: insertSorted compare x rest
      else x :: sorted
  end.

Fixpoint Array_sort {A : Type} (compare : A -> A -> Z) (arr : list A)
  : list A :=
  match arr with
  | [] => []
  | x :: rest => insertSorted compare x (Array_sort compare rest)
  end.

(** A consistent comparator: a positive result one way is a negative
    one the other way, and "not above" is transitive. *)
Definition consistent {A : Type} (compare : A -> A -> Z) : Prop :=
  (forall a b, (0 < compare a b)%Z -> (compare b a < 0)%Z)
  /\ (forall a b c,
        (compare a b <= 0)%Z -> (compare b c <= 0)%Z -> (compare a c <= 0)%Z).

(** [(a, b) => a[0].localeCompare(b[0])], with [localeCompare] the
    comparison of strings in the locale of the browser. *)
Definition byName (localeCompare : string -> string -> Z) (a b : HotFile) : Z :=
  localeCompare (hf_name a) (hf_name b).

(** The loop of [handleNewPhotosFromHotFolder] over the sorted files: it
    stops at the first index without a placeholder, and before that it
    waits for the image of each file; [None] when it waits for an image
    that does not load. *)
Fixpoint photosFromFiles (placeholderIndex : nat)
    (sortedFiles : list HotFile) (slots : list Placeholder)
    (canvasSize : R * R) : option (list Photo) :=
  match sortedFiles with
  | [] => Some []
  | file :: rest =>
      match nth_error slots placeholderIndex with
      | None => Some []
      | Some placeholder =>
          match hf_image file with
          | None => None
          | Some image =>
              option_map
                (cons (createPhotoFromPlaceholder (hf_url file) placeholder
                         canvasSize image))
                (photosFromFiles (S placeholderIndex) rest slots canvasSize)
          end
      end
  end.

(** The handler reads the photo count and the settings of the render
    that made it ([seen]); the photos, the history and the analytics it
    appends to are those of the moment the state is set ([live]).  When
    it waits for an image that does not load it never gets to set the
    state. *)
Definition handleNewPhotosFromHotFolder
    (localeCompare : string -> string -> Z) (seen : AppState)
    (canvasSize : R * R) (newPhotos : list HotFile) (live : AppState)
  : AppState :=
  if (List.length (placeholders (settings seen)) =? 0)%nat then live
  else
    let sortedFiles := Array_sort (byName localeCompare) newPhotos in
    match photosFromFiles (List.length (photos (session seen))) sortedFiles
            (placeholders (settings seen)) canvasSize with
    | None => live
    | Some newPhotoObjects =>
        if (0 <? List.length newPhotoObjects)%nat then
          let prev := session live in
          let updatedPhotos := photos prev ++ newPhotoObjects in
          let newSessionState := session_with_photos updatedPhotos prev in
          let newHistory :=
            firstn (historyIndex live + 1) (history live)
            ++ [newSessionState] in
          let a1 := with_history newHistory (List.length newHistory - 1) live in
          let a2 := with_analytics
                      (analytics_add_photos (List.length newPhotoObjects)
                         (analytics a1)) a1 in
          with_session newSessionState
            (sendMessage (reviewState seen newSessionState) a2)
        else live
    end.

(** The rectangle of a slot on the canvas: left, top, width, height. *)
Definition slotRect (t : Transform) (cv : Canvas) : R * R * R * R :=
  let b := toAbsolute t cv in
  (bx_x b - bx_width b / 2, bx_y b - bx_height b / 2, bx_width b, bx_height b).

Definition placeholderRect (p : Placeholder) (cv : Canvas) : R * R * R * R :=
  (pl_x p * cv_width cv, pl_y p * cv_height cv,
   pl_width p * cv_width cv, pl_height p * cv_height cv).

(** The photo made of an entry and its placeholder. *)
Definition dataPhoto (canvasSize : R * R) (dp : PhotoData * Placeholder) : Photo :=
  photo_with_crop (pd_crop (fst dp))
    (createPhotoFromPlaceholder (pd_src (fst dp)) (snd dp) canvasSize
       (pd_image (fst dp))).


(** ** Layout placeholders in the settings panel ([SettingsPanel]) *)

Definition MIN_PLACEHOLDER_SIZE : R := 0.05.

Definition validatePlaceholder (p : Placeholder) : Placeholder :=
  let width := Rmax MIN_PLACEHOLDER_SIZE (Rmin 1 (pl_width p)) in
  let height := Rmax MIN_PLACEHOLDER_SIZE (Rmin 1 (pl_height p)) in
  let x := Rmax 0 (Rmin (1 - width) (pl_x p)) in
  let y := Rmax 0 (Rmin (1 - height) (pl_y p)) in
  {| pl_id := pl_id p; pl_x := x; pl_y := y; pl_width := width;
     pl_height := height; pl_aspectRatio := pl_aspectRatio p;
     pl_fit := pl_fit p |}.

Definition validatePlaceholders (l : list Placeholder) : list Placeholder :=
  map validatePlaceholder l.

(** A placeholder that lies on the canvas and is no smaller than the
    minimum. *)
Definition onCanvas (p : Placeholder) : Prop :=
  MIN_PLACEHOLDER_SIZE <= pl_width p <= 1
  /\ MIN_PLACEHOLDER_SIZE <= pl_height p <= 1
  /\ 0 <= pl_x p /\ pl_x p + pl_width p <= 1
  /\ 0 <= pl_y p /\ pl_y p + pl_height p <= 1.




(** ** The layout editor ([LayoutEditorModal]) *)

Module LayoutEditor.

#[local] Open Scope nat_scope.

Definition DEBOUNCE_MS : nat := 250.

Definition Fit_eqb (a b : Fit) : bool :=
  match a, b with
  | cover, cover | contain, contain => true
  | _, _ => false
  end.

Definition option_eqb {A} (eqb : A -> A -> bool) (a b : option A) : bool :=
  match a, b with
  | Some x, Some y => eqb x y
  | None, None => true
  | _, _ => false
  end.

Definition Req_bool (a b : R) : bool := if Req_dec_T a b then true else false.

Definition Placeholder_eqb (p q : Placeholder) : bool :=
  (pl_id p =? pl_id q)%Z
  && Req_bool (pl_x p) (pl_x q) && Req_bool (pl_y p) (pl_y q)
  && Req_bool (pl_width p) (pl_width q) && Req_bool (pl_height p) (pl_height q)
  && option_eqb String.eqb (pl_aspectRatio p) (pl_aspectRatio q)
  && option_eqb Fit_eqb (pl_fit p) (pl_fit q).

Fixpoint list_eqb {A} (eqb : A -> A -> bool) (a b : list A) : bool :=
  match a, b with
  | [], [] => true
  | x :: r, y :: s => eqb x y && list_eqb eqb r s
  | _, _ => false
  end.

(** [JSON.stringify(current) !== JSON.stringify(next)], for placeholders
    whose fields are written in the order of their declaration; the entry
    under the index may be missing ([undefined]). *)
Definition changed (current : option (list Placeholder))
    (next : list Placeholder) : bool :=
  match current with
  | Some c => negb (list_eqb Placeholder_eqb c next)
  | None => true
  end.

(** The state and refs of the modal; [debounceTimer] is the timeout that
    is scheduled and has neither fired nor been cleared, with the time it
    is due and the placeholders it commits; [saved] lists the calls of
    [onSave]. *)
Record State := {
  pendingPlaceholders : list Placeholder;
  historyRef : list (list Placeholder);
  historyIndexRef : nat;
  canUndo : bool;
  canRedo : bool;
  debounceTimer : option (nat * list Placeholder);
  now : nat;
  saved : list (list Placeholder)
}.

Definition handlePlaceholdersChange (next : list Placeholder) (s : State)
  : State :=
  let current := nth_error (historyRef s) (historyIndexRef s) in
  let sliced := firstn (historyIndexRef s + 1) (historyRef s) ++ [next] in
  let timer := Some (now s + DEBOUNCE_MS, next) in        (* scheduleSave *)
  if changed current next then
    Build_State next sliced (List.length sliced - 1)
      (0 <? List.length sliced - 1) false timer (now s) (saved s)
  else
    Build_State next (historyRef s) (historyIndexRef s) (canUndo s) (canRedo s)
      timer (now s) (saved s).

(** An entry missing under the new index would be committed as
    [undefined], which is no list of placeholders. *)
Definition undo (s : State) : Js.Run State :=
  if 0 <? historyIndexRef s then
    let index := historyIndexRef s - 1 in
    match nth_error (historyRef s) index with
    | Some prev =>
        Js.Ok (Build_State prev (historyRef s) index (0 <? index) true
                 (debounceTimer s) (now s) (saved s ++ [prev]))
    | None => Js.OffType
    end
  else Js.Ok s.

Definition redo (s : State) : Js.Run State :=
  if historyIndexRef s <? List.length (historyRef s) - 1 then
    let index := historyIndexRef s + 1 in
    match nth_error (historyRef s) index with
    | Some next =>
        Js.Ok (Build_State next (historyRef s) index true
                 (index <? List.length (historyRef s) - 1)
                 (debounceTimer s) (now s) (saved s ++ [next]))
    | None => Js.OffType
    end
  else Js.Ok s.

(** Time passes: the timeout fires when it falls due. *)
Definition elapse (ms : nat) (s : State) : State :=
  let t1 := now s + ms in
  match debounceTimer s with
  | Some (due, next) =>
      if due <=? t1 then
        Build_State (pendingPlaceholders s) (historyRef s) (historyIndexRef s)
          (canUndo s) (canRedo s) None t1 (saved s ++ [next])
      else
        Build_State (pendingPlaceholders s) (historyRef s) (historyIndexRef s)
          (canUndo s) (canRedo s) (debounceTimer s) t1 (saved s)
  | None =>
      Build_State (pendingPlaceholders s) (historyRef s) (historyIndexRef s)
        (canUndo s) (canRedo s) None t1 (saved s)
  end.

(** The effect on [layout]: a render with another [layout] object (as
    the settings panel passes after each save) resets the pending
    placeholders and the history; the scheduled save stays. *)
Definition layoutChanged (placeholders : list Placeholder) (s : State) : State :=
  Build_State placeholders [placeholders] 0 false false (debounceTimer s)
    (now s) (saved s).

Inductive Event :=
| Change (next : list Placeholder)
| Undo
| Redo
| Elapse (ms : nat)
| LayoutChanged (placeholders : list Placeholder).

Definition step (s : State) (e : Event) : Js.Run State :=
  match e with
  | Change next => Js.Ok (handlePlaceholdersChange next s)
  | Undo => undo s
  | Redo => redo s
  | Elapse ms => Js.Ok (elapse ms s)
  | LayoutChanged placeholders => Js.Ok (layoutChanged placeholders s)
  end.

Fixpoint run (s : State) (evs : list Event) : Js.Run State :=
  match evs with
  | [] => Js.Ok s
  | e :: r => s' <- step s e ;; run s' r
  end.

(** Further changes, each less than the debounce window after the one
    before it. *)
Inductive burst : list Event -> Prop :=
| burst_nil : burst []
| burst_cons gap next evs :
    gap < DEBOUNCE_MS -> burst evs ->
    burst (Elapse gap :: Change next :: evs).

(** The placeholders of the last change of a burst that follows a change
    to [first]. *)
Fixpoint lastChange (first : list Placeholder) (evs : list Event)
  : list Placeholder :=
  match evs with
  | [] => first
  | Change next :: r => lastChange next r
  | _ :: r => lastChange first r
  end.

End LayoutEditor.

(** ** The kiosk lock ([App]) *)

Definition isDigit (c : ascii) : bool :=
  (48 <=? nat_of_ascii c)%nat && (nat_of_ascii c <=? 57)%nat.

(** [value.replace(/[^0-9]/g, '')] *)
Fixpoint digitsOnly (value : string) : string :=
  match value with
  | EmptyString => EmptyString
  | String c r => if isDigit c then String c (digitsOnly r) else digitsOnly r
  end.

Record Kiosk := {
  kioskLocked : bool;             (* isKioskLocked *)
  unlockAttemptPin : string;
  lastActivity : nat              (* lastActivityRef.current *)
}.

(** [onChange] of the PIN field of the lock overlay. *)
Definition onPinChange (value : string) (k : Kiosk) : Kiosk :=
  Build_Kiosk (kioskLocked k) (digitsOnly value) (lastActivity k).

(** [settings.kioskPin || ''] *)
Definition pinOrEmpty (kioskPin : option string) : string :=
  match kioskPin with
  | Some p => p
  | None => EmptyString
  end.

Definition attemptUnlock (kioskPin : option string) (now : nat) (k : Kiosk)
  : Kiosk * list Notice :=
  if String.eqb (unlockAttemptPin k) (pinOrEmpty kioskPin) then
    (Build_Kiosk false EmptyString now,
     [Build_Notice "Unlocked successfully" toast_success])
  else (k, [Build_Notice "Incorrect PIN" toast_error]).

(** A click on the unlock button, which is disabled while the field is
    empty. *)
Definition unlockClick (kioskPin : option string) (now : nat) (k : Kiosk)
  : Kiosk * list Notice :=
  if String.eqb (unlockAttemptPin k) EmptyString then (k, [])
  else attemptUnlock kioskPin now k.

(** ** Concrete inputs for the further properties *)


(** Two photos, the first selected. *)
Definition twoPhotosApp : AppState :=
  demoAppWith (sessionOf [demoPhoto 0 1; demoPhoto 90 2] [] []) photo 0.

(** Three photos, the first selected. *)
Definition threePhotosApp : AppState :=
  demoAppWith
    (sessionOf [demoPhoto 0 1; demoPhoto 90 2; demoPhoto 180 1] [] []) photo 0.

(** One photo, selected. *)
Definition onePhotoApp : AppState :=
  demoAppWith (sessionOf [demoPhoto 0 1] [] []) photo 0.


(** A sticker and a text layer, the sticker selected. *)
Definition stickerAndTextApp : AppState :=
  demoAppWith (sessionOf [] [demoSticker 0.2 0.2] [demoText]) sticker 0.

Definition closedPanels : Panels :=
  {| isKioskLocked := false; isSettingsOpen := false; isUiPanelOpen := false;
     showPrinterPanel := false |}.

(** Vending at 5 a print, the session unpaid. *)
Definition vendingApp : AppState :=
  with_settings
    {| frameSrc := None; availableFrames := []; placeholders := [];
       aspectRatio := "2 / 3"; pro := Build_ProSettings true 5;
       layoutOptions := [] |}
    demoTextApp.

Definition demoCycle (wait : nat) (dataUrl : string) : Cycle :=
  {| cy_app := demoTextApp; cy_canvas := (600, 900); cy_wait := wait;
     cy_dataUrl := dataUrl; cy_renderMs := 12 |}.

(** An editor whose photo image has loaded. *)
Definition loadedEditor : Editor :=
  {| interaction := idleInteraction; transientPhotos := [demoPhoto 0 1];
     transientStickers := []; transientText := []; cursor := "default";
     loadedImages := ["photo-1.jpg"%string]; frameImage := false |}.

Definition demoEnv : Env :=
  {| props := appProps onePhotoApp; canvas := demoCanvas; dpr := 1 |}.

Definition demoSlot (id : Z) (x y : R) : Placeholder :=
  {| pl_id := id; pl_x := x; pl_y := y; pl_width := 0.4; pl_height := 0.4;
     pl_aspectRatio := None; pl_fit := None |}.

(** Two placeholders side by side. *)
Definition twoSlotsApp : AppState :=
  with_settings
    {| frameSrc := None; availableFrames := [];
       placeholders := [demoSlot 1 0.05 0.3; demoSlot 2 0.55 0.3];
       aspectRatio := "2 / 3"; pro := Build_ProSettings false 0;
       layoutOptions := [] |}
    (demoAppWith (sessionOf [] [] []) photo (-1)).

Definition demoPhotoData (src : string) : PhotoData :=
  {| pd_src := src; pd_crop := Build_Crop 0 0 1; pd_image := (1200, 1800) |}.

(** The comparison of strings by code units, a consistent comparator. *)
Definition codeUnitCompare (a b : string) : Z :=
  match String.compare a b with
  | Lt => (-1)%Z
  | Eq => 0%Z
  | Gt => 1%Z
  end.

Definition demoHotFile (name : string) : HotFile :=
  {| hf_name := name; hf_url := ("blob:" ++ name)%string;
     hf_image := Some (1200, 1800) |}.

(** The two placeholders with one photo, placed since the hot-folder
    handler was made. *)
Definition twoSlotsOnePhotoApp : AppState :=
  with_settings (settings twoSlotsApp)
    (demoAppWith (sessionOf [demoPhoto 0 1] [] []) photo 0).

(** The layout editor opened on one placeholder. *)
Definition demoLayoutEditor : LayoutEditor.State :=
  {| LayoutEditor.pendingPlaceholders := [demoSlot 1 0.05 0.3];
     LayoutEditor.historyRef := [[demoSlot 1 0.05 0.3]];
     LayoutEditor.historyIndexRef := 0;
     LayoutEditor.canUndo := false;
     LayoutEditor.canRedo := false;
     LayoutEditor.debounceTimer := None;
     LayoutEditor.now := 0;
     LayoutEditor.saved := [] |}.

Definition lockedKiosk : Kiosk :=
  {| kioskLocked := true; unlockAttemptPin := EmptyString; lastActivity := 0 |}.

Definition demoFrame : FrameConfig :=
  {| fc_id := "f1"; fc_thumbnailSrc := "blob:frame-1";
     fc_supportedLayouts := []; fc_isVisible := true |}.
(* ================================================================== *)
(** * Part II.  Properties                                             *)
(* ================================================================== *)

Unset Implicit Arguments.

(** ** Arrays *)

Lemma get_replace_same {A} (arr : list A) (i : Z) (old x : A) :
  Js.get arr i = Some old ->
  Js.get (Js.replace arr (Z.to_nat i) x) i = Some x.
Proof.
  unfold Js.get. destruct (i <? 0)%Z; [discriminate|].
  generalize (Z.to_nat i) as n. clear i.
  induction arr as [|a r IH]; intros [|n] H; simpl in *; try discriminate; auto.
Qed.

Lemma length_replace {A} (arr : list A) (n : nat) (x : A) :
  List.length (Js.replace arr n x) = List.length arr.
Proof.
  revert n; induction arr as [|a r IH]; intros [|n]; simpl; auto.
Qed.

(** ** Sanitising *)

Lemma isLt_eq c : Sanitize.isLt c = true -> c = "<"%char.
Proof. unfold Sanitize.isLt. apply Ascii.eqb_eq. Qed.

Lemma isGt_eq c : Sanitize.isGt c = true -> c = ">"%char.
Proof. unfold Sanitize.isGt. apply Ascii.eqb_eq. Qed.

(** What the scan leaves holds no tag, and only characters of the input. *)
Lemma stripTags_skipTag_clean (s : string) :
  Sanitize.hasTag (Sanitize.stripTags s) = false
  /\ Sanitize.hasTag (Sanitize.skipTag s) = false
  /\ (Sanitize.hasClose (Sanitize.stripTags s) = true -> Sanitize.hasClose s = true)
  /\ (Sanitize.hasClose (Sanitize.skipTag s) = true -> Sanitize.hasClose s = true).
Proof.
  induction s as [|c r (IH1 & IH2 & IH3 & IH4)]; simpl.
  - repeat split; auto.
  - repeat split.
    + destruct (Sanitize.isLt c) eqn:Hc; simpl.
      * destruct (Sanitize.hasClose r) eqn:Hr; simpl; auto.
        rewrite Hc, IH1. simpl.
        destruct (Sanitize.hasClose (Sanitize.stripTags r)) eqn:Hs; auto.
        specialize (IH3 eq_refl). congruence.
      * rewrite Hc. simpl. exact IH1.
    + destruct (Sanitize.isGt c); auto.
    + destruct (Sanitize.isLt c && Sanitize.hasClose r) eqn:Hc; simpl.
      * intros H. rewrite (IH4 H). apply orb_true_r.
      * intros H. apply orb_true_iff in H as [H|H].
        -- rewrite H; auto.
        -- rewrite (IH3 H). apply orb_true_r.
    + destruct (Sanitize.isGt c) eqn:Hc; simpl; auto.
Qed.

Lemma hasClose_prefix (n : nat) (s : string) :
  Sanitize.hasClose (substring 0 n s) = true -> Sanitize.hasClose s = true.
Proof.
  revert n; induction s as [|c r IH]; intros [|n]; simpl; auto; try discriminate.
  intros H. apply orb_true_iff in H as [H|H].
  - rewrite H; auto.
  - rewrite (IH _ H). apply orb_true_r.
Qed.

Lemma hasTag_prefix (n : nat) (s : string) :
  Sanitize.hasTag (substring 0 n s) = true -> Sanitize.hasTag s = true.
Proof.
  revert n; induction s as [|c r IH]; intros [|n]; simpl; auto; try discriminate.
  intros H. apply orb_true_iff in H as [H|H].
  - apply andb_true_iff in H as [H1 H2].
    rewrite H1, (hasClose_prefix _ _ H2). reflexivity.
  - rewrite (IH _ H). apply orb_true_r.
Qed.

Lemma length_prefix (n : nat) (s : string) :
  (String.length (substring 0 n s) <= n)%nat.
Proof.
  revert n; induction s as [|c r IH]; intros [|n]; simpl; try lia.
  specialize (IH n). lia.
Qed.

Lemma hasClose_append (a b : string) :
  Sanitize.hasClose (a ++ b) = Sanitize.hasClose a || Sanitize.hasClose b.
Proof.
  induction a as [|c r IH]; simpl; auto. rewrite IH. apply orb_assoc.
Qed.

(** [hasTag] decides [containsTag]. *)
Lemma containsTag_hasTag (s : string) :
  Sanitize.containsTag s -> Sanitize.hasTag s = true.
Proof.
  intros (pre & body & post & -> & _).
  induction pre as [|c r IH]; simpl.
  - rewrite hasClose_append. simpl. rewrite orb_true_r. reflexivity.
  - rewrite IH. apply orb_true_r.
Qed.

Lemma hasClose_split (s : string) :
  Sanitize.hasClose s = true ->
  exists body post, s = (body ++ String ">" post)%string
                    /\ Sanitize.hasClose body = false.
Proof.
  induction s as [|c r IH]; simpl; [discriminate|].
  destruct (Sanitize.isGt c) eqn:Hc; simpl.
  - intros _. exists EmptyString, r. rewrite (isGt_eq _ Hc). auto.
  - intros H. destruct (IH H) as (body & post & -> & Hb).
    exists (String c body), post. simpl. rewrite Hc, Hb. auto.
Qed.

Lemma hasTag_containsTag (s : string) :
  Sanitize.hasTag s = true -> Sanitize.containsTag s.
Proof.
  induction s as [|c r IH]; simpl; [discriminate|].
  intros H. apply orb_true_iff in H as [H|H].
  - apply andb_true_iff in H as [H1 H2].
    destruct (hasClose_split _ H2) as (body & post & -> & Hb).
    exists EmptyString, body, post. rewrite (isLt_eq _ H1). auto.
  - destruct (IH H) as (pre & body & post & -> & Hb).
    exists (String c pre), body, post. auto.
Qed.

Lemma sanitize_no_tag (value : string) :
  ~ Sanitize.containsTag (Sanitize.sanitize value).
Proof.
  intros H. apply containsTag_hasTag in H. unfold Sanitize.sanitize in H.
  apply hasTag_prefix in H.
  destruct (stripTags_skipTag_clean value) as (H1 & _). congruence.
Qed.

Lemma sanitize_length (value : string) :
  (String.length (Sanitize.sanitize value) <= 300)%nat.
Proof. apply length_prefix. Qed.

(** A text without a tag passes the scan unchanged. *)
Lemma stripTags_plain (s : string) :
  Sanitize.hasTag s = false -> Sanitize.stripTags s = s.
Proof.
  induction s as [|c r IH]; simpl; [reflexivity|].
  intros H. apply orb_false_iff in H as [H1 H2].
  rewrite H1, (IH H2). reflexivity.
Qed.

(** The scan keeps the text in front of the first [<]. *)
Lemma stripTags_keeps_front (pre r : string) :
  Sanitize.hasOpen pre = false ->
  Sanitize.stripTags (pre ++ r) = (pre ++ Sanitize.stripTags r)%string.
Proof.
  induction pre as [|c p IH]; simpl; [reflexivity|].
  intros H. apply orb_false_iff in H as [H1 H2].
  rewrite H1, (IH H2). reflexivity.
Qed.

(** Inside a tag the scan drops everything up to the first [>]. *)
Lemma skipTag_drops_body (body post : string) :
  Sanitize.hasClose body = false ->
  Sanitize.skipTag (body ++ String ">" post) = Sanitize.stripTags post.
Proof.
  induction body as [|c b IH]; simpl; [reflexivity|].
  intros H. apply orb_false_iff in H as [H1 H2].
  rewrite H1. apply IH. exact H2.
Qed.

(** The scan drops the first tag and goes on behind it. *)
Lemma stripTags_drops_tag (pre body post : string) :
  Sanitize.hasOpen pre = false ->
  Sanitize.hasClose body = false ->
  Sanitize.stripTags (pre ++ String "<" (body ++ String ">" post))
  = (pre ++ Sanitize.stripTags post)%string.
Proof.
  intros Hp Hb. rewrite (stripTags_keeps_front _ _ Hp). f_equal.
  cbn [Sanitize.stripTags]. rewrite hasClose_append. simpl.
  rewrite orb_true_r. simpl. apply skipTag_drops_body. exact Hb.
Qed.

Lemma hasTag_hasClose (s : string) :
  Sanitize.hasTag s = true -> Sanitize.hasClose s = true.
Proof.
  induction s as [|c r IH]; simpl; [discriminate|].
  intros H. apply orb_true_iff in H as [H|H].
  - apply andb_true_iff in H as [_ H]. rewrite H. apply orb_true_r.
  - rewrite (IH H). apply orb_true_r.
Qed.

(** A text with a tag splits at its first [<] and the first [>] behind
    it. *)
Lemma hasTag_first_tag (s : string) :
  Sanitize.hasTag s = true ->
  exists pre body post,
    s = (pre ++ String "<" (body ++ String ">" post))%string
    /\ Sanitize.hasOpen pre = false
    /\ Sanitize.hasClose body = false.
Proof.
  induction s as [|c r IH]; simpl; [discriminate|].
  intros H. destruct (Sanitize.isLt c) eqn:Hc.
  - assert (Hr : Sanitize.hasClose r = true).
    { destruct (Sanitize.hasClose r) eqn:Hr; [reflexivity|].
      simpl in H. apply hasTag_hasClose in H. congruence. }
    destruct (hasClose_split _ Hr) as (body & post & -> & Hb).
    exists EmptyString, body, post. rewrite (isLt_eq _ Hc). auto.
  - simpl in H. destruct (IH H) as (pre & body & post & -> & Hp & Hb).
    exists (String c pre), body, post. simpl. rewrite Hc, Hp. auto.
Qed.

Lemma length_append (a b : string) :
  String.length (a ++ b) = (String.length a + String.length b)%nat.
Proof. induction a as [|c r IH]; simpl; [reflexivity | rewrite IH; reflexivity]. Qed.

(** The scan of the code removes the tags, and nothing else, as the
    specification words it. *)
Lemma stripTags_tagsRemoved (s : string) :
  Sanitize.tagsRemoved s (Sanitize.stripTags s).
Proof.
  remember (String.length s) as n eqn:Hn.
  revert s Hn. induction n as [n IH] using lt_wf_ind. intros s Hn.
  destruct (Sanitize.hasTag s) eqn:Ht.
  - destruct (hasTag_first_tag _ Ht) as (pre & body & post & -> & Hp & Hb).
    rewrite (stripTags_drops_tag _ _ _ Hp Hb).
    apply Sanitize.tagsRemoved_tag; [exact Hp | exact Hb |].
    apply (IH (String.length post)); [|reflexivity].
    subst n. rewrite length_append. simpl. rewrite length_append. simpl. lia.
  - rewrite (stripTags_plain _ Ht). apply Sanitize.tagsRemoved_plain.
    intros C. apply containsTag_hasTag in C. congruence.
Qed.

(** The words of the specification fix the stripped text. *)
Lemma tagsRemoved_stripTags (s out : string) :
  Sanitize.tagsRemoved s out -> out = Sanitize.stripTags s.
Proof.
  induction 1 as [s Hs | pre body post out Hp Hb _ IH].
  - symmetry. apply stripTags_plain.
    destruct (Sanitize.hasTag s) eqn:Ht; [|reflexivity].
    exfalso. apply Hs. apply hasTag_containsTag. exact Ht.
  - rewrite (stripTags_drops_tag _ _ _ Hp Hb), IH. reflexivity.
Qed.

Lemma substring_all (s : string) (n : nat) :
  (String.length s <= n)%nat -> substring 0 n s = s.
Proof.
  revert n. induction s as [|c r IH]; intros [|n] H; simpl in *;
    try reflexivity; try lia.
  rewrite IH by lia. reflexivity.
Qed.

Example stripTags_simple :
  Sanitize.stripTags "<b>Hi</b> there" = "Hi there"%string.
Proof. reflexivity. Qed.

Example stripTags_unclosed :
  Sanitize.stripTags "a < b" = "a < b"%string.
Proof. reflexivity. Qed.

Example stripTags_nested :
  Sanitize.stripTags "<<a>b>c" = "b>c"%string.
Proof. reflexivity. Qed.

(** C9.  A text-layer update that carries a text stores the sanitised
    text.  The stored text is the incoming text with the substrings that
    match the tag syntax removed, and nothing else removed, cut to its
    first 300 characters: the stripped text is the one text that the
    words of the specification allow.  The stored text holds no HTML tag
    and has at most 300 characters; an incoming text without a tag and
    of at most 300 characters is stored as it is. *)
Theorem handleUpdateText_sanitizes
    (a : AppState) (index : Z) (updates : TextUpdate) (value : string)
    (old : TextLayer) :
  Js.get (textLayers (session a)) index = Some old ->
  tu_text updates = Some value ->
  exists a' stored stripped,
    handleUpdateText index updates a = Js.Ok a'
    /\ Js.get (textLayers (session a')) index = Some stored
    /\ tx_text stored = Sanitize.sanitize value
    /\ Sanitize.tagsRemoved value stripped
    /\ (forall other, Sanitize.tagsRemoved value other -> other = stripped)
    /\ tx_text stored = substring 0 300 stripped
    /\ ~ Sanitize.containsTag (tx_text stored)
    /\ (String.length (tx_text stored) <= 300)%nat
    /\ (~ Sanitize.containsTag value -> (String.length value <= 300)%nat ->
        tx_text stored = value).
Proof.
  intros Hold Htext.
  unfold handleUpdateText, Js.set_merged. rewrite Hold. simpl.
  eexists. eexists. exists (Sanitize.stripTags value).
  split; [reflexivity|]. simpl.
  split; [apply (get_replace_same _ _ old); exact Hold|].
  simpl. rewrite Htext. simpl.
  split; [reflexivity|].
  split; [apply stripTags_tagsRemoved|].
  split; [intros other Ho; apply tagsRemoved_stripTags; exact Ho|].
  split; [reflexivity|].
  split; [apply sanitize_no_tag|].
  split; [apply sanitize_length|].
  intros Hno Hlen. unfold Sanitize.sanitize.
  rewrite stripTags_plain.
  - apply substring_all. exact Hlen.
  - destruct (Sanitize.hasTag value) eqn:Ht; [|reflexivity].
    exfalso. apply Hno. apply hasTag_containsTag. exact Ht.
Qed.

Lemma handleUpdateText_sanitizes_witness :
  exists a' stored,
    handleUpdateText 0 demoTextEdit demoTextApp = Js.Ok a'
    /\ Js.get (textLayers (session a')) 0 = Some stored
    /\ tx_text stored = "Hi there <i"%string
    /\ Sanitize.tagsRemoved "<b>Hi</b> there <i" "Hi there <i"
    /\ ~ Sanitize.containsTag (tx_text stored)
    /\ (String.length (tx_text stored) <= 300)%nat.
Proof.
  destruct (handleUpdateText_sanitizes demoTextApp 0 demoTextEdit
              "<b>Hi</b> there <i" demoText eq_refl eq_refl)
    as (a' & stored & stripped & H1 & H2 & H3 & H4 & H5 & H6 & H7 & H8 & _).
  exists a', stored.
  split; [exact H1|]. split; [exact H2|].
  split; [rewrite H3; reflexivity|].
  split; [|split; [exact H7 | exact H8]].
  rewrite <- (H5 _ (stripTags_tagsRemoved "<b>Hi</b> there <i")) in H4.
  exact H4.
Defined.

(** ** The channel listener *)

Lemma prop_string_is_object (v : Wire.JSValue) (key s : string) :
  Wire.prop v key = Wire.JString s ->
  Wire.falsy v = false /\ Wire.isObjectType v = true.
Proof. destruct v; simpl; try discriminate; auto. Qed.

(** A message that fails the validation leaves the listener without any
    effect. *)
Lemma invalid_message_ignored (seen live : AppState) (data : Wire.JSValue) :
  Wire.validateInterWindowMessage data = false ->
  Wire.handleGuestAction seen data live = Js.Ok live.
Proof. intros H. unfold Wire.handleGuestAction. rewrite H. reflexivity. Qed.

(** A [GUEST_ACTION] whose payload is rejected fails the validation. *)
Lemma rejected_payload_invalid (msg : Wire.JSValue) :
  Wire.prop msg "type" = Wire.JString "GUEST_ACTION" ->
  Wire.payloadRejected (Wire.prop msg "payload") = true ->
  Wire.validateInterWindowMessage msg = false.
Proof.
  intros Ht Hp. unfold Wire.validateInterWindowMessage.
  destruct (prop_string_is_object _ _ _ Ht) as [-> ->]. simpl.
  rewrite Ht, Hp. reflexivity.
Qed.

(** What a payload that is not rejected satisfies: its type is on the
    allow-list and the fields checked for that type are strings. *)
Lemma accepted_payload_shape (p : Wire.JSValue) :
  Wire.payloadRejected p = false ->
  Wire.includes Wire.allowed (Wire.prop p "type") = true
  /\ (Wire.isStr (Wire.prop p "type") "GUEST_EMAIL" = true ->
      exists email, Wire.prop p "email" = Wire.JString email
                    /\ (String.length email <= 200)%nat)
  /\ (Wire.isStr (Wire.prop p "type") "GUEST_SELECT_LAYOUT" = true ->
      exists layout, Wire.prop p "layout" = Wire.JString layout)
  /\ (Wire.isStr (Wire.prop p "type") "GUEST_SELECT_FRAME" = true ->
      exists src, Wire.prop p "frameSrc" = Wire.JString src).
Proof.
  unfold Wire.payloadRejected.
  destruct (Wire.falsy p || negb (Wire.isObjectType p)
            || negb (Wire.isStringType (Wire.prop p "type"))); [discriminate|].
  destruct (Wire.includes Wire.allowed (Wire.prop p "type")); [|discriminate].
  simpl.
  destruct (Wire.isStr (Wire.prop p "type") "GUEST_EMAIL") eqn:He; simpl.
  - destruct (Wire.prop p "email") eqn:Hm; simpl; try discriminate.
    destruct (200 <? String.length s)%nat eqn:Hl; simpl; [discriminate|].
    apply Nat.ltb_ge in Hl.
    destruct (Wire.isStr (Wire.prop p "type") "GUEST_SELECT_LAYOUT") eqn:H1;
      simpl;
      [destruct (Wire.prop p "layout") eqn:H1'; simpl; try discriminate|];
      (destruct (Wire.isStr (Wire.prop p "type") "GUEST_SELECT_FRAME") eqn:H2;
       simpl;
       [destruct (Wire.prop p "frameSrc") eqn:H2'; simpl; try discriminate|]);
      intros _; repeat split; intros; try discriminate; eauto.
  - destruct (Wire.isStr (Wire.prop p "type") "GUEST_SELECT_LAYOUT") eqn:H1;
      simpl;
      [destruct (Wire.prop p "layout") eqn:H1'; simpl; try discriminate|];
      (destruct (Wire.isStr (Wire.prop p "type") "GUEST_SELECT_FRAME") eqn:H2;
       simpl;
       [destruct (Wire.prop p "frameSrc") eqn:H2'; simpl; try discriminate|]);
      intros _; repeat split; intros; try discriminate; eauto.
Qed.

Lemma validated_action_not_rejected (data : Wire.JSValue) :
  Wire.validateInterWindowMessage data = true ->
  Wire.isStr (Wire.prop data "type") "GUEST_ACTION" = true ->
  Wire.payloadRejected (Wire.prop data "payload") = false.
Proof.
  unfold Wire.validateInterWindowMessage. intros H Ht.
  destruct (Wire.falsy data || negb (Wire.isObjectType data)); [discriminate|].
  rewrite Ht in H. simpl in H.
  destruct (Wire.payloadRejected (Wire.prop data "payload")); auto.
Qed.

(** C5.  A [GUEST_ACTION] whose payload has type [GUEST_SELECT_LAYOUT] and a
    [layout] that is not a string fails the validation, and the listener
    returns without raising and with the application state (session,
    settings, messages sent to the guest) as it was.  For every message
    [data]: if it fails the validation nothing is applied, and if it is a
    validated [GUEST_ACTION] its type is on the allow-list and the fields
    checked for that type have the required shape. *)
Theorem select_layout_without_string_dropped
    (seen live : AppState) (msg data : Wire.JSValue) :
  Wire.prop msg "type" = Wire.JString "GUEST_ACTION" ->
  Wire.prop (Wire.prop msg "payload") "type" = Wire.JString "GUEST_SELECT_LAYOUT" ->
  Wire.isStringType (Wire.prop (Wire.prop msg "payload") "layout") = false ->
  Wire.validateInterWindowMessage msg = false
  /\ Wire.handleGuestAction seen msg live = Js.Ok live
  /\ (Wire.validateInterWindowMessage data = false ->
      Wire.handleGuestAction seen data live = Js.Ok live)
  /\ (Wire.validateInterWindowMessage data = true ->
      Wire.isStr (Wire.prop data "type") "GUEST_ACTION" = true ->
      let p := Wire.prop data "payload" in
      Wire.includes Wire.allowed (Wire.prop p "type") = true
      /\ (Wire.isStr (Wire.prop p "type") "GUEST_EMAIL" = true ->
          exists email, Wire.prop p "email" = Wire.JString email
                        /\ (String.length email <= 200)%nat)
      /\ (Wire.isStr (Wire.prop p "type") "GUEST_SELECT_LAYOUT" = true ->
          exists layout, Wire.prop p "layout" = Wire.JString layout)
      /\ (Wire.isStr (Wire.prop p "type") "GUEST_SELECT_FRAME" = true ->
          exists src, Wire.prop p "frameSrc" = Wire.JString src)).
Proof.
  intros Ht Hp Hl.
  assert (Hinv : Wire.validateInterWindowMessage msg = false).
  { apply rejected_payload_invalid; [exact Ht|].
    unfold Wire.payloadRejected.
    destruct (prop_string_is_object _ _ _ Hp) as [-> ->].
    rewrite Hp, Hl. reflexivity. }
  split; [exact Hinv|].
  split; [apply invalid_message_ignored; exact Hinv|].
  split; [apply invalid_message_ignored|].
  intros Hv Hg. apply accepted_payload_shape.
  apply validated_action_not_rejected; assumption.
Qed.

Lemma select_layout_without_string_dropped_witness :
  Wire.validateInterWindowMessage badLayoutMessage = false
  /\ Wire.handleGuestAction demoTextApp badLayoutMessage demoTextApp
     = Js.Ok demoTextApp.
Proof.
  pose proof (select_layout_without_string_dropped demoTextApp demoTextApp
                badLayoutMessage badLayoutMessage
                eq_refl eq_refl eq_refl) as (H1 & H2 & _).
  split; [exact H1 | exact H2].
Defined.

(** A well-formed layout choice, by contrast, is applied. *)
Example select_layout_applied :
  Wire.handleGuestAction demoTextApp
    (Wire.JObject
       [("type", Wire.JString "GUEST_ACTION");
        ("payload",
         Wire.JObject [("type", Wire.JString "GUEST_SELECT_LAYOUT");
                       ("layout", Wire.JString "strip-3")])]%string)
    demoTextApp
  = Js.Ok (handleGuestActionDispatch demoTextApp (GUEST_SELECT_LAYOUT "strip-3")
             demoTextApp)
  /\ guestLayoutId
       (handleGuestActionDispatch demoTextApp (GUEST_SELECT_LAYOUT "strip-3")
          demoTextApp) = Some "strip-3"%string.
Proof. split; reflexivity. Qed.

(** C10.  A [GUEST_ACTION] of type [GUEST_EMAIL] whose [email] is not a
    string, or is a string of more than 200 characters, fails the
    validation; the listener returns with the application state, and so the
    collected emails, as they were. *)
Theorem guest_email_invalid_dropped
    (seen live : AppState) (msg : Wire.JSValue) :
  Wire.prop msg "type" = Wire.JString "GUEST_ACTION" ->
  Wire.prop (Wire.prop msg "payload") "type" = Wire.JString "GUEST_EMAIL" ->
  Wire.isStringType (Wire.prop (Wire.prop msg "payload") "email") = false
  \/ (exists email,
        Wire.prop (Wire.prop msg "payload") "email" = Wire.JString email
        /\ (200 < String.length email)%nat) ->
  Wire.validateInterWindowMessage msg = false
  /\ Wire.handleGuestAction seen msg live = Js.Ok live.
Proof.
  intros Ht Hp Hbad.
  assert (Hinv : Wire.validateInterWindowMessage msg = false).
  { apply rejected_payload_invalid; [exact Ht|].
    unfold Wire.payloadRejected.
    destruct (prop_string_is_object _ _ _ Hp) as [-> ->].
    rewrite Hp. simpl.
    destruct Hbad as [Hs | (email & He & Hlen)].
    - rewrite Hs. reflexivity.
    - rewrite He. simpl. apply Nat.ltb_lt in Hlen. rewrite Hlen. reflexivity. }
  split; [exact Hinv | apply invalid_message_ignored; exact Hinv].
Qed.

Lemma guest_email_invalid_dropped_witness :
  Wire.validateInterWindowMessage
    (emailMessage (Wire.JString (repeatChar "a" 201))) = false
  /\ Wire.handleGuestAction demoTextApp
       (emailMessage (Wire.JString (repeatChar "a" 201))) demoTextApp
     = Js.Ok demoTextApp.
Proof.
  apply (guest_email_invalid_dropped demoTextApp demoTextApp
           (emailMessage (Wire.JString (repeatChar "a" 201)))
           eq_refl eq_refl).
  right. exists (repeatChar "a" 201). split; [reflexivity|].
  vm_compute. repeat constructor.
Defined.

(** The limit is exactly 200: an email of 200 characters is validated and
    recorded. *)
Example guest_email_200_recorded :
  Wire.validateInterWindowMessage
    (emailMessage (Wire.JString (repeatChar "a" 200))) = true
  /\ (exists a',
        Wire.handleGuestAction demoTextApp
          (emailMessage (Wire.JString (repeatChar "a" 200))) demoTextApp
        = Js.Ok a'
        /\ emailsCollected (analytics a') = [repeatChar "a" 200]).
Proof.
  split; [vm_compute; reflexivity|].
  eexists. split; vm_compute; reflexivity.
Qed.

(** ** The compositor request effect *)

Section CompositorFacts.

Import Compositor.
#[local] Open Scope nat_scope.

Lemma stuck_step (s : State) (e : Event) :
  stuck s -> stuck (step s e) /\ posted (step s e) = posted s.
Proof.
  intros (Hp & Ht & Hf). destruct e as [r | ms | d ms]; simpl.
  - assert (H : stuck (runCleanup s) /\ posted (runCleanup s) = posted s).
    { unfold runCleanup, stuck. destruct (cleanup s); simpl; auto.
      rewrite Ht. simpl. auto. }
    destruct H as ((Hp' & Ht' & Hf') & Hq).
    unfold effectBody.
    destruct (negb (useWorkerCompositor (runCleanup s)));
      [split; [split|]; auto|].
    destruct (negb (compositorWorker (runCleanup s)));
      [split; [split|]; auto|].
    destruct (r_canvas r); [|split; [split|]; auto].
    rewrite Hp'. split; [split|]; auto.
  - unfold elapse. rewrite Ht. simpl. unfold stuck. simpl. auto.
  - unfold onResult. rewrite Hf. unfold stuck. auto.
Qed.

Lemma stuck_run (evs : list Event) (s : State) :
  stuck s -> stuck (run s evs) /\ posted (run s evs) = posted s.
Proof.
  revert s. induction evs as [|e evs IH]; intros s H; simpl; [auto|].
  destruct (stuck_step s e H) as [H1 H2].
  destruct (IH _ H1) as [H3 H4]. split; [exact H3 | congruence].
Qed.

Lemma run_app (s : State) (a b : list Event) :
  run s (a ++ b) = run (run s a) b.
Proof. unfold run. apply fold_left_app. Qed.

(** After the first edit of a ready compositor: one timeout, due a
    debounce window later, that the next cleanup will clear. *)
Lemma first_edit (s : State) (r : Render) (cv : R * R) :
  ready s -> r_canvas r = Some cv ->
  step s (Edit r)
  = Build_State true true false true
      [Build_Timer (nextTimer s) (now s + DEBOUNCE_MS)
         (compositeRequest (r_app r) cv)]
      (S (nextTimer s)) (Some (nextTimer s)) (now s) (posted s) 0
      (composite s) (workerRenderMs s).
Proof.
  intros (Hu & Hw & Hx & Hp & Ht & Hc & Hf) Hcv. simpl.
  unfold runCleanup. rewrite Hc. unfold effectBody.
  rewrite Hu, Hw, Hcv, Hp, Ht, Hf, Hx. reflexivity.
Qed.

(** A second edit inside the window clears the timeout and, the flag
    being up, schedules none. *)
Lemma second_edit_stuck (s : State) (r1 r2 : Render) (cv : R * R) (gap : nat) :
  ready s -> r_canvas r1 = Some cv -> gap < DEBOUNCE_MS ->
  stuck (run s [Edit r1; Elapse gap; Edit r2])
  /\ posted (run s [Edit r1; Elapse gap; Edit r2]) = posted s.
Proof.
  intros Hr Hcv Hgap. unfold run. cbn [fold_left].
  rewrite (first_edit s r1 cv Hr Hcv).
  unfold step. unfold elapse. simpl.
  assert (Hdue : (now s + DEBOUNCE_MS <=? now s + gap) = false)
    by (apply Nat.leb_gt; lia).
  rewrite Hdue. simpl.
  unfold runCleanup, clearTimeout. simpl. rewrite Nat.eqb_refl. simpl.
  unfold effectBody. simpl. destruct (r_canvas r2); unfold stuck; simpl; auto.
Qed.

(** C1, the behaviour of the code where the claim fails.  From a ready
    compositor with nothing pending, an edit followed by one or more
    further edits, each less than 150 ms after the one before, posts no
    request at all: not when the edits settle, and not after any later
    edits, waits or worker messages.  The pending flag stays up for
    good. *)
Theorem burst_of_edits_posts_nothing
    (s : State) (r1 : Render) (cv : R * R) (more later : list Event) :
  ready s -> r_canvas r1 = Some cv -> burst more -> more <> [] ->
  posted (run s (Edit r1 :: more ++ later)) = posted s
  /\ workerPending (run s (Edit r1 :: more ++ later)) = true.
Proof.
  intros Hr Hcv Hb Hne.
  destruct Hb as [|gap r2 more' Hgap Hb']; [congruence|].
  change (Edit r1 :: (Elapse gap :: Edit r2 :: more') ++ later)
    with ([Edit r1; Elapse gap; Edit r2] ++ (more' ++ later)).
  rewrite run_app.
  destruct (second_edit_stuck s r1 r2 cv gap Hr Hcv Hgap) as [Hs Hq].
  destruct (stuck_run (more' ++ later) _ Hs) as [(Hp & _) Hq'].
  split; [congruence | exact Hp].
Qed.

Lemma idleCompositor_ready : ready idleCompositor.
Proof. unfold ready. simpl. repeat split. Qed.

Lemma burst_of_edits_posts_nothing_witness :
  posted (run idleCompositor
            (Edit demoRender :: [Elapse 10; Edit demoRender] ++ [Elapse 1000]))
  = []
  /\ workerPending
       (run idleCompositor
          (Edit demoRender :: [Elapse 10; Edit demoRender] ++ [Elapse 1000]))
     = true.
Proof.
  apply (burst_of_edits_posts_nothing idleCompositor demoRender (600, 900)%R
           [Elapse 10; Edit demoRender] [Elapse 1000]).
  - exact idleCompositor_ready.
  - reflexivity.
  - apply burst_cons; [unfold DEBOUNCE_MS; lia | apply burst_nil].
  - discriminate.
Defined.

(** A single edit, by contrast, posts exactly one request once the
    window has passed. *)
Lemma single_edit_posts_once (s : State) (r : Render) (cv : R * R) (ms : nat) :
  ready s -> r_canvas r = Some cv -> DEBOUNCE_MS <= ms ->
  posted (run s [Edit r; Elapse ms])
  = posted s ++ [compositeRequest (r_app r) cv]
  /\ inFlight (run s [Edit r; Elapse ms]) = 1.
Proof.
  intros Hr Hcv Hms. unfold run. cbn [fold_left].
  rewrite (first_edit s r cv Hr Hcv).
  unfold step, elapse. simpl.
  assert (Hdue : (now s + DEBOUNCE_MS <=? now s + ms) = true)
    by (apply Nat.leb_le; lia).
  rewrite Hdue. simpl. auto.
Qed.

Lemma singleFlight_cleanup (s : State) :
  singleFlight s ->
  singleFlight (runCleanup s)
  /\ posted (runCleanup s) = posted s
  /\ inFlight (runCleanup s) = inFlight s.
Proof.
  intros H. unfold runCleanup. destruct (cleanup s) as [id|]; [|auto].
  split; [|auto]. unfold singleFlight in *. simpl.
  destruct H as [(Ht & Hf) | [(t & Ht & Hp & Hf) | (Ht & Hp & Hf)]];
    rewrite Ht; simpl; auto.
  destruct (negb (tm_id t =? id)); [right; left; eauto | left; auto].
Qed.

Lemma singleFlight_step (s : State) (e : Event) :
  singleFlight s ->
  singleFlight (step s e)
  /\ (0 < inFlight s -> posted (step s e) = posted s).
Proof.
  intros H. destruct e as [r | ms | d ms]; simpl.
  - destruct (singleFlight_cleanup s H) as (H1 & Hq & Hf).
    revert H1 Hq Hf. generalize (runCleanup s) as s1. intros s1 H1 Hq Hf.
    unfold effectBody.
    destruct (negb (useWorkerCompositor s1)); [split; auto|].
    destruct (negb (compositorWorker s1)); [split; auto|].
    destruct (r_canvas r); [|split; auto].
    destruct (workerPending s1) eqn:Hp; [split; auto|].
    split; [|simpl; auto].
    destruct H1 as [(Ht & Hf1) | [(t & Ht & Hp1 & Hf1) | (Ht & Hp1 & Hf1)]];
      try congruence.
    right; left. simpl. rewrite Ht. simpl. eauto.
  - unfold elapse.
    destruct H as [(Ht & Hf) | [(t & Ht & Hp & Hf) | (Ht & Hp & Hf)]];
      rewrite Ht; simpl.
    + split; [left; simpl; auto | auto].
    + split; [|lia].
      destruct (tm_due t <=? now s + ms); simpl.
      * unfold fire; simpl. destruct (postThrows s); simpl.
        -- left; simpl; auto.
        -- right; right; simpl. rewrite Hf. auto.
      * right; left. simpl. eauto.
    + split; [right; right; simpl; auto | auto].
  - unfold onResult.
    destruct H as [(Ht & Hf) | [(t & Ht & Hp & Hf) | (Ht & Hp & Hf)]];
      rewrite Hf.
    + split; [left; auto | auto].
    + split; [right; left; eauto | auto].
    + split; [left; simpl; auto | auto].
Qed.

(** At most one request is in flight, and none is posted while one is. *)
Lemma single_flight (evs : list Event) (s : State) :
  singleFlight s ->
  inFlight (run s evs) <= 1
  /\ forall e, 0 < inFlight (run s evs) ->
               posted (step (run s evs) e) = posted (run s evs).
Proof.
  intros H.
  assert (Hr : singleFlight (run s evs)).
  { revert s H. induction evs as [|e evs IH]; intros s H; simpl; auto.
    apply IH. apply singleFlight_step. exact H. }
  split.
  - destruct Hr as [(_ & Hf) | [(t & _ & _ & Hf) | (_ & _ & Hf)]]; lia.
  - intros e. apply singleFlight_step. exact Hr.
Qed.

End CompositorFacts.

(** ** Geometry *)

Lemma Rltb_true (a b : R) : a < b -> Rltb a b = true.
Proof. intros H. unfold Rltb. destruct (Rlt_dec a b); [reflexivity|contradiction]. Qed.

Lemma Rltb_false (a b : R) : b <= a -> Rltb a b = false.
Proof. intros H. unfold Rltb. destruct (Rlt_dec a b); [lra|reflexivity]. Qed.

Lemma Rltb_lt (a b : R) : Rltb a b = true -> a < b.
Proof. unfold Rltb. destruct (Rlt_dec a b); [auto|discriminate]. Qed.

Lemma hypot_nonneg (a b : R) : 0 <= hypot a b.
Proof. apply sqrt_pos. Qed.

Lemma hypot_sqr (a b : R) : hypot a b * hypot a b = a * a + b * b.
Proof. unfold hypot. apply sqrt_sqrt. nra. Qed.

Lemma hypot_lt (a b r : R) : 0 <= r -> a * a + b * b < r * r -> hypot a b < r.
Proof.
  intros Hr H. pose proof (hypot_nonneg a b). pose proof (hypot_sqr a b).
  destruct (Rlt_dec (hypot a b) r); [assumption|]. nra.
Qed.

Lemma hypot_ge (a b r : R) : r * r <= a * a + b * b -> 0 <= r -> r <= hypot a b.
Proof.
  intros H Hr. pose proof (hypot_nonneg a b). pose proof (hypot_sqr a b).
  destruct (Rle_dec r (hypot a b)); [assumption|]. nra.
Qed.

Lemma hypot_ge_snd (a b r : R) : 0 <= r -> r <= b -> r <= hypot a b.
Proof.
  intros Hr Hb. apply hypot_ge; [|assumption].
  assert (r * r <= b * b) by nra. pose proof (Rle_0_sqr a) as Ha.
  unfold Rsqr in Ha. lra.
Qed.


Lemma hypot_scale (a b k : R) : 0 <= k -> hypot (k * a) (k * b) = k * hypot a b.
Proof.
  intros Hk. unfold hypot.
  replace (k * a * (k * a) + k * b * (k * b)) with (k * k * (a * a + b * b)) by ring.
  rewrite sqrt_mult; [|nra|nra]. rewrite sqrt_square; auto.
Qed.

Lemma hypot_opp (a b : R) : hypot (- a) (- b) = hypot a b.
Proof. unfold hypot. f_equal. ring. Qed.

(** A rotation keeps the length of a vector. *)
Lemma hypot_rotate (dx dy angle : R) :
  hypot (dx * cos angle - dy * sin angle) (dx * sin angle + dy * cos angle)
  = hypot dx dy.
Proof.
  unfold hypot. f_equal.
  pose proof (sin2_cos2 angle) as H. unfold Rsqr in H.
  replace ((dx * cos angle - dy * sin angle) * (dx * cos angle - dy * sin angle)
           + (dx * sin angle + dy * cos angle) * (dx * sin angle + dy * cos angle))
    with ((dx * dx + dy * dy) * (sin angle * sin angle + cos angle * cos angle))
    by ring.
  rewrite H. ring.
Qed.

Lemma radians_0 : 0 * PI / 180 = 0.
Proof. unfold Rdiv. ring. Qed.

Lemma toLocal_unrotated (mx my cx cy : R) :
  toLocal mx my cx cy (0 * PI / 180) = (mx - cx, my - cy).
Proof.
  unfold toLocal. rewrite radians_0, Ropp_0, cos_0, sin_0. f_equal; ring.
Qed.

Section EditorFacts.

Variable measureText : string -> R -> string -> string -> R.

(** ** Crop panning *)

(** C7.  In crop-panning mode a pointer move updates the crop of the
    selected photo: the pointer delta [(dx, dy)] is rotated by minus the
    photo's rotation and divided by [globalPhotoScale * crop.scale], and
    the result is subtracted from the gesture-start crop offset.  The
    length of the change of the crop offset is
    [|(dx, dy)| / (globalPhotoScale * crop.scale)], whatever the
    rotation. *)
Theorem crop_pan_rotation_invariant
    (env : Env) (ed : Editor) (e : Pointer) (start : Photo) :
  p_isDrawingMode (props env) = false ->
  mode (interaction ed) = crop_panning ->
  startVal (interaction ed) = SPhoto start ->
  0 < p_globalPhotoScale (props env) ->
  0 < crop_scale (ph_crop start) ->
  let dx := fst (pt_mouse e) - startX (interaction ed) in
  let dy := snd (pt_mouse e) - startY (interaction ed) in
  let angle := tr_rotation (ph_transform start) * PI / 180 in
  let k := p_globalPhotoScale (props env) * crop_scale (ph_crop start) in
  exists crop',
    handleMove measureText env ed e
    = Js.Ok (setCursor "grabbing" ed,
             [OnPhotoUpdate (p_selectedLayerIndex (props env))
                {| pu_src := None; pu_transform := None; pu_crop := Some crop';
                   pu_originalWidth := None; pu_originalHeight := None;
                   pu_fit := None |}])
    /\ crop_x crop'
       = crop_x (ph_crop start) - (dx * cos (- angle) - dy * sin (- angle)) / k
    /\ crop_y crop'
       = crop_y (ph_crop start) - (dx * sin (- angle) + dy * cos (- angle)) / k
    /\ crop_scale crop' = crop_scale (ph_crop start)
    /\ hypot (crop_x crop' - crop_x (ph_crop start))
             (crop_y crop' - crop_y (ph_crop start))
       = hypot dx dy / k.
Proof.
  intros Hd Hm Hs Hg Hc dx dy angle k.
  assert (Hk : 0 < k) by (unfold k; nra).
  unfold handleMove. rewrite Hd, Hm, Hs. simpl.
  eexists. split; [reflexivity|]. simpl.
  fold dx dy angle k.
  split; [field; lra|]. split; [field; lra|]. split; [reflexivity|].
  set (lx := dx * cos (- angle) - dy * sin (- angle)).
  set (ly := dx * sin (- angle) + dy * cos (- angle)).
  replace (crop_x (ph_crop start) - lx * (1 / k) - crop_x (ph_crop start))
    with (- (1 / k * lx)) by (field; lra).
  replace (crop_y (ph_crop start) - ly * (1 / k) - crop_y (ph_crop start))
    with (- (1 / k * ly)) by (field; lra).
  rewrite hypot_opp, hypot_scale.
  - unfold lx, ly. rewrite hypot_rotate. field. lra.
  - apply Rlt_le. apply Rdiv_lt_0_compat; lra.
Qed.

(** Pointer-down on the body of a photo starts a crop pan on a copy of
    that photo and selects it. *)
Lemma pointer_down_on_photo (w : World) (down : Pointer) (i : nat) (p : Photo) :
  getHit measureText (envOf w) (editor w) (pt_mouse down)
  = Some (Build_Hit move photo i) ->
  nth_error (transientPhotos (editor w)) i = Some p ->
  step measureText w (PointerDown down)
  = Js.Ok
      {| app := handleSelectLayer photo (Z.of_nat i) (app w);
         editor :=
           with_interaction
             {| mode := crop_panning;
                startX := fst (pt_mouse down); startY := snd (pt_mouse down);
                startVal := SPhoto p;
                startAngle := startAngle (interaction (editor w));
                startDist := startDist (interaction (editor w)) |}
             (editor w);
         w_canvas := w_canvas w; w_dpr := w_dpr w |}.
Proof.
  intros Hhit Hp. unfold step, handleStart. simpl p_isDrawingMode.
  cbv iota. simpl andb. cbv iota. rewrite Hhit.
  unfold startObject. simpl h_layerType. simpl h_index. cbv iota.
  unfold Js.get.
  assert (Hneg : (Z.of_nat i <? 0)%Z = false) by (apply Z.ltb_ge; lia).
  rewrite Hneg, Nat2Z.id, Hp. reflexivity.
Qed.

(** C3.  A session with one photo at transform
    [{x: 0.5, y: 0.5, width: 0.4, height: 0.4, rotation: 0}] and crop
    [{x: 0, y: 0, scale: 1}], with [globalPhotoScale = 1]: a pointer-down
    on the body of the photo followed by a pointer move of (20, 20) canvas
    pixels leaves the photo with crop [{x: -20, y: -20, scale: 1}]. *)
Theorem crop_pan_example (w : World) (p : Photo) (down moved : Pointer) :
  photos (session (app w)) = [p] ->
  transientPhotos (editor w) = [p] ->
  ph_transform p = {| tr_x := 0.5; tr_y := 0.5; tr_width := 0.4;
                      tr_height := 0.4; tr_rotation := 0 |} ->
  ph_crop p = {| crop_x := 0; crop_y := 0; crop_scale := 1 |} ->
  globalPhotoScale (app w) = 1 ->
  getHit measureText (envOf w) (editor w) (pt_mouse down)
  = Some (Build_Hit move photo 0) ->
  pt_mouse moved = (fst (pt_mouse down) + 20, snd (pt_mouse down) + 20) ->
  exists w' p',
    run measureText w [PointerDown down; PointerMove moved] = Js.Ok w'
    /\ photos (session (app w')) = [p']
    /\ ph_crop p' = {| crop_x := -20; crop_y := -20; crop_scale := 1 |}
    /\ ph_transform p' = ph_transform p
    /\ ph_src p' = ph_src p.
Proof.
  intros Hps Htp Htr Hcr Hg Hhit Hmv.
  unfold run.
  rewrite (pointer_down_on_photo w down 0 p Hhit) by (rewrite Htp; reflexivity).
  cbn [Js.bind].
  unfold step, handleMove. simpl.
  unfold withEditor. simpl. unfold onPhotoUpdate, Js.set_merged, Js.get.
  simpl. rewrite Hps. simpl.
  eexists. eexists. split; [reflexivity|]. simpl.
  split; [reflexivity|]. simpl.
  rewrite Htr, Hcr, Hg, Hmv. simpl.
  rewrite radians_0, Ropp_0, cos_0, sin_0.
  split; [f_equal; field|]. split; reflexivity.
Qed.

(** ** Hit testing at rotation 0 *)

Lemma hitPhoto_body_unrotated (env : Env) (m : R * R) (i : nat) (p : Photo) :
  tr_rotation (ph_transform p) = 0 ->
  0 < dpr env ->
  Rabs (fst m - tr_x (ph_transform p) * cv_width (canvas env))
  < tr_width (ph_transform p) * cv_width (canvas env)
    * p_globalPhotoScale (props env) / 2 ->
  Rabs (snd m - tr_y (ph_transform p) * cv_height (canvas env))
  < tr_height (ph_transform p) * cv_height (canvas env)
    * p_globalPhotoScale (props env) / 2 ->
  hitPhoto env m i p = Some (Build_Hit move photo i).
Proof.
  intros Hr Hd Hx Hy. unfold hitPhoto.
  rewrite Hr, toLocal_unrotated. unfold toAbsolute. simpl.
  set (ly := snd m - tr_y (ph_transform p) * cv_height (canvas env)) in *.
  set (h := tr_height (ph_transform p) * cv_height (canvas env)
            * p_globalPhotoScale (props env)) in *.
  assert (Hly : - (h / 2) < ly) by (apply Rabs_def2 in Hy; lra).
  rewrite (Rltb_false (hypot _ (ly - (- h / 2 - ROTATION_HANDLE_OFFSET * dpr env)))).
  - rewrite andb_false_r. unfold insideBox.
    rewrite (Rltb_true _ _ Hx), (Rltb_true _ _ Hy). reflexivity.
  - unfold ROTATION_HANDLE_OFFSET, ROTATION_HANDLE_SIZE.
    apply hypot_ge_snd; lra.
Qed.

Lemma hitSticker_unrotated (env : Env) (m : R * R) (i : nat) (s : StickerLayer) :
  st_rotation s = 0 ->
  hitSticker env m i s
  = let localX := fst m - st_x s * cv_width (canvas env) in
    let localY := snd m - st_y s * cv_height (canvas env) in
    let w := st_width s * cv_width (canvas env) in
    let h := st_height s * cv_height (canvas env) in
    let handleY := - h / 2 - 5 - ROTATION_HANDLE_OFFSET * dpr env in
    if selectedIs env sticker i
       && Rltb (hypot localX (localY - handleY))
            (ROTATION_HANDLE_SIZE * dpr env * 1.5)
    then Some (Build_Hit rotate sticker i)
    else if selectedIs env sticker i
            && Rltb (hypot (localX - w / 2 - 5) (localY - h / 2 - 5))
                 (SCALE_HANDLE_SIZE * dpr env * 2)
    then Some (Build_Hit scale sticker i)
    else if insideBox localX localY w h then Some (Build_Hit move sticker i)
    else None.
Proof.
  intros Hr. unfold hitSticker. rewrite Hr, toLocal_unrotated. reflexivity.
Qed.

Lemma hitText_unrotated (env : Env) (m : R * R) (i : nat) (t : TextLayer) :
  tx_rotation t = 0 ->
  hitText measureText env m i t
  = let localX := fst m - tx_x t * cv_width (canvas env) in
    let localY := snd m - tx_y t * cv_height (canvas env) in
    let fontSize := tx_fontSize t * cv_height (canvas env) in
    let w := textWidth measureText t fontSize + 10 in
    let h := fontSize + 10 in
    let handleY := - h / 2 - ROTATION_HANDLE_OFFSET * dpr env in
    if selectedIs env text i
       && Rltb (hypot localX (localY - handleY))
            (ROTATION_HANDLE_SIZE * dpr env * 1.5)
    then Some (Build_Hit rotate text i)
    else if selectedIs env text i
            && Rltb (hypot (localX - w / 2) (localY - h / 2))
                 (SCALE_HANDLE_SIZE * dpr env * 2)
    then Some (Build_Hit scale text i)
    else if insideBox localX localY w h then Some (Build_Hit move text i)
    else None.
Proof.
  intros Hr. unfold hitText. rewrite Hr, toLocal_unrotated. reflexivity.
Qed.

(** ** Scaling *)

(** Pointer-down on the scale handle of a sticker starts a scaling
    gesture on a copy of that sticker, recording the distance of the
    pointer from the sticker's centre. *)
Lemma pointer_down_on_sticker_handle
    (w : World) (down : Pointer) (i : nat) (s : StickerLayer) :
  getHit measureText (envOf w) (editor w) (pt_mouse down)
  = Some (Build_Hit scale sticker i) ->
  nth_error (transientStickers (editor w)) i = Some s ->
  step measureText w (PointerDown down)
  = Js.Ok
      {| app := handleSelectLayer sticker (Z.of_nat i) (app w);
         editor :=
           with_interaction
             {| mode := scaling_layer;
                startX := fst (pt_mouse down); startY := snd (pt_mouse down);
                startVal := SSticker s;
                startAngle := startAngle (interaction (editor w));
                startDist :=
                  Some (hypot (fst (pt_mouse down) - st_x s * cv_width (w_canvas w))
                          (snd (pt_mouse down) - st_y s * cv_height (w_canvas w))) |}
             (editor w);
         w_canvas := w_canvas w; w_dpr := w_dpr w |}.
Proof.
  intros Hhit Hs. unfold step, handleStart. simpl p_isDrawingMode.
  cbv iota. simpl andb. cbv iota. rewrite Hhit.
  unfold startObject. simpl h_layerType. simpl h_index. cbv iota.
  unfold Js.get.
  assert (Hneg : (Z.of_nat i <? 0)%Z = false) by (apply Z.ltb_ge; lia).
  rewrite Hneg, Nat2Z.id, Hs. reflexivity.
Qed.

Lemma Rmax_floor (x : R) : 0.02 <= x -> Rmax 0.02 x = x.
Proof. intros H. apply Rmax_right. exact H. Qed.

(** C8.  A sticker at
    [{x: 0.5, y: 0.5, width: 0.2, height: 0.2, rotation: 0}]: a
    pointer-down on its scale handle followed by a pointer move to twice
    the distance from the sticker's centre leaves it with
    [width = height = 0.4], its aspect ratio, position and rotation
    kept. *)
Theorem sticker_scale_example
    (w : World) (s : StickerLayer) (down moved : Pointer) :
  stickers (session (app w)) = [s] ->
  transientStickers (editor w) = [s] ->
  st_x s = 0.5 -> st_y s = 0.5 -> st_width s = 0.2 -> st_height s = 0.2 ->
  st_rotation s = 0 ->
  getHit measureText (envOf w) (editor w) (pt_mouse down)
  = Some (Build_Hit scale sticker 0) ->
  0 < hypot (fst (pt_mouse down) - 0.5 * cv_width (w_canvas w))
        (snd (pt_mouse down) - 0.5 * cv_height (w_canvas w)) ->
  hypot (fst (pt_mouse moved) - 0.5 * cv_width (w_canvas w))
    (snd (pt_mouse moved) - 0.5 * cv_height (w_canvas w))
  = 2 * hypot (fst (pt_mouse down) - 0.5 * cv_width (w_canvas w))
        (snd (pt_mouse down) - 0.5 * cv_height (w_canvas w)) ->
  exists w' s',
    run measureText w [PointerDown down; PointerMove moved] = Js.Ok w'
    /\ stickers (session (app w')) = [s']
    /\ st_width s' = 0.4 /\ st_height s' = 0.4
    /\ st_width s' / st_height s' = st_width s / st_height s
    /\ st_x s' = 0.5 /\ st_y s' = 0.5 /\ st_rotation s' = 0.
Proof.
  intros Hss Hts Hx Hy Hw Hh Hr Hhit Hd0 Hd1.
  unfold run.
  rewrite (pointer_down_on_sticker_handle w down 0 s Hhit)
    by (rewrite Hts; reflexivity).
  cbn [Js.bind].
  unfold step, handleMove. simpl.
  unfold startDistOr1. simpl. rewrite Hx, Hy.
  set (d0 := hypot (fst (pt_mouse down) - 0.5 * cv_width (w_canvas w))
               (snd (pt_mouse down) - 0.5 * cv_height (w_canvas w))) in *.
  destruct (Req_dec_T d0 0) as [Hz|Hnz]; [lra|].
  rewrite Hd1.
  replace (2 * d0 / d0) with 2 by (field; exact Hnz).
  unfold withEditor. simpl. unfold handleUpdateSticker, Js.set_merged, Js.get.
  simpl. rewrite Hss. simpl.
  eexists. eexists. split; [reflexivity|]. simpl.
  split; [reflexivity|]. simpl.
  rewrite Hw, Hh, Hx, Hy, Hr.
  rewrite Rmax_floor by lra.
  repeat split; try reflexivity; try lra; field.
Qed.

(** ** Selection *)

Lemma get_minus_one {A} (arr : list A) : Js.get arr (-1) = None.
Proof. reflexivity. Qed.

Lemma filter_index_from_length {A} (arr : list A) (i k : Z) (x : A) :
  Js.get arr (k - i) = Some x ->
  S (List.length (Js.filter_index_from arr i k)) = List.length arr.
Proof.
  revert i. induction arr as [|a r IH]; intros i H.
  - unfold Js.get in H. destruct (k - i <? 0)%Z; [discriminate|].
    destruct (Z.to_nat (k - i)); discriminate.
  - simpl. unfold Js.get in H.
    destruct (k - i <? 0)%Z eqn:Hneg; [discriminate|].
    apply Z.ltb_ge in Hneg.
    destruct (i =? k)%Z eqn:Hik.
    + f_equal. apply Z.eqb_eq in Hik. subst i. clear H Hneg IH.
      assert (Hgen : forall (l : list A) j, (k < j)%Z ->
                       Js.filter_index_from l j k = l).
      { induction l as [|b l IHl]; intros j Hj; simpl; [reflexivity|].
        assert (Hne : (j =? k)%Z = false) by (apply Z.eqb_neq; lia).
        rewrite Hne, IHl by lia. reflexivity. }
      rewrite Hgen by lia. reflexivity.
    + simpl. f_equal. apply IH. apply Z.eqb_neq in Hik.
      unfold Js.get.
      assert (Hneg' : (k - (i + 1) <? 0)%Z = false) by (apply Z.ltb_ge; lia).
      rewrite Hneg'.
      replace (Z.to_nat (k - i)) with (S (Z.to_nat (k - (i + 1)))) in H by lia.
      exact H.
Qed.

(** C6.  When the selection index is [-1] or is not an index of the
    selected kind's layer array, the draw routine completes without
    raising and draws the layers only, with no selection overlay.
    Deleting the selected layer resets the selection index to [-1]; when
    the selection was a sticker or a text layer of the session, that
    layer array has become one element shorter. *)
Theorem invalid_selection_draws_no_overlay
    (env : Env) (th : Theme) (ed : Editor) (a : AppState) :
  p_selectedLayerIndex (props env) = (-1)%Z
  \/ selectionValid ed (p_selectedLayerType (props env))
       (p_selectedLayerIndex (props env)) = false ->
  drawSelection measureText env th ed = Js.Ok []
  /\ draw measureText env th ed = Js.Ok (drawLayers env th ed)
  /\ selectedLayerIndex (handleDeleteLayer a) = (-1)%Z
  /\ (selectedLayerType a = sticker ->
      isSome (Js.get (stickers (session a)) (selectedLayerIndex a)) = true ->
      S (List.length (stickers (session (handleDeleteLayer a))))
      = List.length (stickers (session a)))
  /\ (selectedLayerType a = text ->
      isSome (Js.get (textLayers (session a)) (selectedLayerIndex a)) = true ->
      S (List.length (textLayers (session (handleDeleteLayer a))))
      = List.length (textLayers (session a))).
Proof.
  intros H.
  assert (Hsel : drawSelection measureText env th ed = Js.Ok []).
  { unfold drawSelection.
    destruct (p_isDrawingMode (props env)); [reflexivity|].
    destruct H as [H|H].
    - rewrite H. simpl. rewrite !andb_false_r. reflexivity.
    - unfold selectionValid in H.
      destruct (negb (p_selectedLayerIndex (props env) =? -1)%Z);
        destruct (p_selectedLayerType (props env)); simpl;
        try rewrite H; simpl; rewrite ?andb_false_r; simpl; reflexivity. }
  split; [exact Hsel|].
  split; [unfold draw; rewrite Hsel; simpl; rewrite app_nil_r; reflexivity|].
  split; [reflexivity|].
  split; intros Ht Hv; unfold handleDeleteLayer; rewrite Ht; simpl;
    unfold Js.filter_not_index.
  - destruct (Js.get (stickers (session a)) (selectedLayerIndex a)) eqn:Hg;
      [|discriminate].
    apply (filter_index_from_length _ 0 _ s).
    rewrite Z.sub_0_r. exact Hg.
  - destruct (Js.get (textLayers (session a)) (selectedLayerIndex a)) eqn:Hg;
      [|discriminate].
    apply (filter_index_from_length _ 0 _ t).
    rewrite Z.sub_0_r. exact Hg.
Qed.

(** ** Hit-testing order *)






(** The tests of the three loops: what they answer names the layer they
    were run on; away from the selected layer they answer exactly when the
    rectangle contains the pointer, with a [move]; and a layer whose
    rectangle contains the pointer always answers. *)
Lemma hitText_cases (env : Env) (mouse : R * R) (i : nat) (t : TextLayer) :
  (forall h, hitText measureText env mouse i t = Some h ->
             hitLayer h = (text, i))
  /\ (selectedIs env text i = false ->
      hitText measureText env mouse i t
      = if textContains measureText env mouse t
        then Some (Build_Hit move text i) else None)
  /\ (textContains measureText env mouse t = true ->
      exists ty, hitText measureText env mouse i t = Some (Build_Hit ty text i)).
Proof.
  unfold hitText, textContains.
  destruct (toLocal _ _ _ _ _) as [lx ly].
  destruct (selectedIs env text i); simpl.
  - repeat split.
    + intros h. repeat (destruct (Rltb _ _) || destruct (insideBox _ _ _ _));
        intros Hh; inversion Hh; reflexivity.
    + discriminate.
    + intros ->. repeat destruct (Rltb _ _); eauto.
  - repeat split.
    + intros h. destruct (insideBox _ _ _ _); intros Hh; inversion Hh; reflexivity.
    + intros ->. eauto.
Qed.

Lemma hitSticker_cases (env : Env) (mouse : R * R) (i : nat) (s : StickerLayer) :
  (forall h, hitSticker env mouse i s = Some h -> hitLayer h = (sticker, i))
  /\ (selectedIs env sticker i = false ->
      hitSticker env mouse i s
      = if stickerContains env mouse s
        then Some (Build_Hit move sticker i) else None)
  /\ (stickerContains env mouse s = true ->
      exists ty, hitSticker env mouse i s = Some (Build_Hit ty sticker i)).
Proof.
  unfold hitSticker, stickerContains.
  destruct (toLocal _ _ _ _ _) as [lx ly].
  destruct (selectedIs env sticker i); simpl.
  - repeat split.
    + intros h. repeat (destruct (Rltb _ _) || destruct (insideBox _ _ _ _));
        intros Hh; inversion Hh; reflexivity.
    + discriminate.
    + intros ->. repeat destruct (Rltb _ _); eauto.
  - repeat split.
    + intros h. destruct (insideBox _ _ _ _); intros Hh; inversion Hh; reflexivity.
    + intros ->. eauto.
Qed.

Lemma hitPhoto_cases (env : Env) (mouse : R * R) (i : nat) (p : Photo) :
  (forall h, hitPhoto env mouse i p = Some h -> hitLayer h = (photo, i))
  /\ (selectedIs env photo i = false ->
      hitPhoto env mouse i p
      = if photoContains env mouse p
        then Some (Build_Hit move photo i) else None)
  /\ (photoContains env mouse p = true ->
      exists ty, hitPhoto env mouse i p = Some (Build_Hit ty photo i)).
Proof.
  unfold hitPhoto, photoContains.
  destruct (toLocal _ _ _ _ _) as [lx ly].
  destruct (selectedIs env photo i); simpl.
  - repeat split.
    + intros h. repeat (destruct (Rltb _ _) || destruct (insideBox _ _ _ _));
        intros Hh; inversion Hh; reflexivity.
    + discriminate.
    + intros ->. repeat destruct (Rltb _ _); eauto.
  - repeat split.
    + intros h. destruct (insideBox _ _ _ _); intros Hh; inversion Hh; reflexivity.
    + intros ->. eauto.
Qed.







Lemma insideBox_true (lx ly w h : R) :
  Rabs lx < w / 2 -> Rabs ly < h / 2 -> insideBox lx ly w h = true.
Proof.
  intros Hx Hy. unfold insideBox.
  rewrite (Rltb_true _ _ Hx), (Rltb_true _ _ Hy). reflexivity.
Qed.


Lemma stickerContains_unrotated (env : Env) (m : R * R) (s : StickerLayer) :
  st_rotation s = 0 ->
  stickerContains env m s
  = insideBox (fst m - st_x s * cv_width (canvas env))
      (snd m - st_y s * cv_height (canvas env))
      (st_width s * cv_width (canvas env))
      (st_height s * cv_height (canvas env)).
Proof.
  intros Hr. unfold stickerContains. rewrite Hr, toLocal_unrotated. reflexivity.
Qed.


Lemma textContains_unrotated (env : Env) (m : R * R) (t : TextLayer) :
  tx_rotation t = 0 ->
  textContains measureText env m t
  = insideBox (fst m - tx_x t * cv_width (canvas env))
      (snd m - tx_y t * cv_height (canvas env))
      (textWidth measureText t (tx_fontSize t * cv_height (canvas env)) + 10)
      (tx_fontSize t * cv_height (canvas env) + 10).
Proof.
  intros Hr. unfold textContains. rewrite Hr, toLocal_unrotated. reflexivity.
Qed.

(** ** Gestures keep the size floor *)




Lemma get_of_nat {A} (l : list A) (k : nat) :
  Js.get l (Z.of_nat k) = nth_error l k.
Proof.
  unfold Js.get.
  assert (H : (Z.of_nat k <? 0)%Z = false) by (apply Z.ltb_ge; lia).
  rewrite H, Nat2Z.id. reflexivity.
Qed.





Lemma updateSessionWithHistory_keeps (seen live : AppState)
    (s : PhotoboothSession) :
  session (updateSessionWithHistory seen s live) = s
  /\ selectedLayerType (updateSessionWithHistory seen s live)
     = selectedLayerType live
  /\ selectedLayerIndex (updateSessionWithHistory seen s live)
     = selectedLayerIndex live.
Proof. unfold updateSessionWithHistory. simpl. auto. Qed.




Lemma loop_down_some {H} (body : nat -> option H) (n : nat) (h : H) :
  Js.loop_down body n = Some h -> exists k, (k < n)%nat /\ body k = Some h.
Proof.
  induction n as [|n IH]; simpl; [discriminate|].
  destruct (body n) as [h'|] eqn:Hn.
  - intros Hh. inversion Hh; subst. exists n. split; [lia | exact Hn].
  - intros Hl. destruct (IH Hl) as (k & Hk & Hb). exists k. split; [lia|auto].
Qed.

Lemma at_index_some {A} (arr : list A) (test : nat -> A -> option Hit)
    (k : nat) (h : Hit) :
  at_index arr test k = Some h ->
  exists a, nth_error arr k = Some a /\ test k a = Some h.
Proof.
  unfold at_index. destruct (nth_error arr k); [eauto | discriminate].
Qed.

Lemma hitPhoto_not_scale (env : Env) (m : R * R) (i : nat) (p : Photo) (h : Hit) :
  hitPhoto env m i p = Some h -> h_type h <> scale.
Proof.
  unfold hitPhoto. destruct (toLocal _ _ _ _ _) as [lx ly].
  destruct (_ && _); [intros H; inversion H; discriminate|].
  destruct (insideBox _ _ _ _); intros H; inversion H; discriminate.
Qed.

(** A hit names a layer that exists; the scale handle is never a photo's. *)
Lemma getHit_sound (env : Env) (ed : Editor) (m : R * R) (h : Hit) :
  getHit measureText env ed m = Some h ->
  (h_layerType h = text
   /\ exists t, nth_error (transientText ed) (h_index h) = Some t)
  \/ (h_layerType h = sticker
      /\ exists s, nth_error (transientStickers ed) (h_index h) = Some s)
  \/ (h_layerType h = photo /\ h_type h <> scale
      /\ exists p, nth_error (transientPhotos ed) (h_index h) = Some p).
Proof.
  unfold getHit. destruct (p_isDrawingMode (props env)); [discriminate|].
  destruct (Js.loop_down (at_index (transientText ed) _) _) as [h1|] eqn:H1;
    simpl.
  { intros Hh. inversion Hh; subst h1. left.
    apply loop_down_some in H1 as (k & _ & Hk).
    apply at_index_some in Hk as (t & Ht & Hk).
    destruct (hitText_cases env m k t) as (Hl & _ & _).
    specialize (Hl h Hk). unfold hitLayer in Hl. injection Hl as Ha Hb.
    split; [exact Ha | rewrite Hb; eauto]. }
  destruct (Js.loop_down (at_index (transientStickers ed) _) _) as [h2|] eqn:H2;
    simpl.
  { intros Hh. inversion Hh; subst h2. right; left.
    apply loop_down_some in H2 as (k & _ & Hk).
    apply at_index_some in Hk as (s & Hs & Hk).
    destruct (hitSticker_cases env m k s) as (Hl & _ & _).
    specialize (Hl h Hk). unfold hitLayer in Hl. injection Hl as Ha Hb.
    split; [exact Ha | rewrite Hb; eauto]. }
  intros H3. right; right.
  apply loop_down_some in H3 as (k & _ & Hk).
  apply at_index_some in Hk as (p & Hp & Hk).
  destruct (hitPhoto_cases env m k p) as (Hl & _ & _).
  pose proof (hitPhoto_not_scale env m k p h Hk) as Hns.
  specialize (Hl h Hk). unfold hitLayer in Hl. injection Hl as Ha Hb.
  split; [exact Ha|]. split; [exact Hns | rewrite Hb; eauto].
Qed.





















(** Pointer-down on the body of a sticker starts a move gesture on a copy
    of that sticker. *)
Lemma pointer_down_on_sticker_body
    (w : World) (down : Pointer) (i : nat) (s : StickerLayer) :
  getHit measureText (envOf w) (editor w) (pt_mouse down)
  = Some (Build_Hit move sticker i) ->
  nth_error (transientStickers (editor w)) i = Some s ->
  step measureText w (PointerDown down)
  = Js.Ok
      {| app := handleSelectLayer sticker (Z.of_nat i) (app w);
         editor :=
           with_interaction
             {| mode := moving_layer;
                startX := fst (pt_mouse down); startY := snd (pt_mouse down);
                startVal := SSticker s;
                startAngle := startAngle (interaction (editor w));
                startDist := startDist (interaction (editor w)) |}
             (editor w);
         w_canvas := w_canvas w; w_dpr := w_dpr w |}.
Proof.
  intros Hhit Hs. unfold step, handleStart. simpl p_isDrawingMode.
  cbv iota. simpl andb. cbv iota. rewrite Hhit.
  unfold startObject. simpl h_layerType. simpl h_index. cbv iota.
  rewrite get_of_nat, Hs. reflexivity.
Qed.

End EditorFacts.

(** ** Instances on concrete inputs *)

Lemma crop_pan_rotation_invariant_witness :
  exists crop',
    handleMove demoMeasure (envOf panningWorld) (editor panningWorld)
      (pointerAt 130 140)
    = Js.Ok (setCursor "grabbing" (editor panningWorld),
             [OnPhotoUpdate 0
                {| pu_src := None; pu_transform := None; pu_crop := Some crop';
                   pu_originalWidth := None; pu_originalHeight := None;
                   pu_fit := None |}])
    /\ hypot (crop_x crop' - 0) (crop_y crop' - 0)
       = hypot (130 - 100) (140 - 100) / (1 * 2).
Proof.
  destruct (crop_pan_rotation_invariant demoMeasure (envOf panningWorld)
              (editor panningWorld) (pointerAt 130 140) (demoPhoto 90 2)
              eq_refl eq_refl eq_refl) as (c & H1 & _ & _ & _ & H2).
  - simpl. lra.
  - simpl. lra.
  - exists c. split; [exact H1 | exact H2].
Defined.


Lemma demo_photo_hit :
  getHit demoMeasure (envOf (demoWorld [demoPhoto 0 1] [] [] photo (-1)))
    (editor (demoWorld [demoPhoto 0 1] [] [] photo (-1))) (300, 450)
  = Some (Build_Hit move photo 0).
Proof.
  unfold getHit. simpl. unfold at_index. simpl.
  rewrite hitPhoto_body_unrotated; simpl; try reflexivity; try lra;
    apply Rabs_def1; lra.
Qed.

Lemma crop_pan_example_witness :
  exists w' p',
    run demoMeasure (demoWorld [demoPhoto 0 1] [] [] photo (-1))
      [PointerDown (pointerAt 300 450); PointerMove (pointerAt 320 470)]
    = Js.Ok w'
    /\ photos (session (app w')) = [p']
    /\ ph_crop p' = {| crop_x := -20; crop_y := -20; crop_scale := 1 |}
    /\ ph_transform p' = ph_transform (demoPhoto 0 1)
    /\ ph_src p' = ph_src (demoPhoto 0 1).
Proof.
  apply (crop_pan_example demoMeasure
           (demoWorld [demoPhoto 0 1] [] [] photo (-1)) (demoPhoto 0 1)
           (pointerAt 300 450) (pointerAt 320 470));
    try reflexivity.
  - exact demo_photo_hit.
  - simpl. f_equal; lra.
Defined.

(** The scale handle of the selected 0.2 x 0.2 sticker on the 600 x 900
    canvas sits at (365, 545). *)
Lemma demo_sticker_handle_hit :
  getHit demoMeasure (envOf (demoWorld [] [demoSticker 0.2 0.2] [] sticker 0))
    (editor (demoWorld [] [demoSticker 0.2 0.2] [] sticker 0)) (365, 545)
  = Some (Build_Hit scale sticker 0).
Proof.
  unfold getHit. simpl. unfold at_index. simpl.
  rewrite hitSticker_unrotated by reflexivity. simpl.
  unfold ROTATION_HANDLE_OFFSET, ROTATION_HANDLE_SIZE, SCALE_HANDLE_SIZE.
  rewrite Rltb_false by (apply hypot_ge_snd; lra).
  rewrite Rltb_true by (apply hypot_lt; lra).
  reflexivity.
Qed.

Lemma sticker_scale_example_witness :
  exists w' s',
    run demoMeasure (demoWorld [] [demoSticker 0.2 0.2] [] sticker 0)
      [PointerDown (pointerAt 365 545); PointerMove (pointerAt 430 640)]
    = Js.Ok w'
    /\ stickers (session (app w')) = [s']
    /\ st_width s' = 0.4 /\ st_height s' = 0.4
    /\ st_width s' / st_height s'
       = st_width (demoSticker 0.2 0.2) / st_height (demoSticker 0.2 0.2)
    /\ st_x s' = 0.5 /\ st_y s' = 0.5 /\ st_rotation s' = 0.
Proof.
  apply (sticker_scale_example demoMeasure
           (demoWorld [] [demoSticker 0.2 0.2] [] sticker 0)
           (demoSticker 0.2 0.2) (pointerAt 365 545) (pointerAt 430 640));
    try reflexivity.
  - exact demo_sticker_handle_hit.
  - simpl. replace (365 - 0.5 * 600) with 65 by lra.
    replace (545 - 0.5 * 900) with 95 by lra.
    pose proof (hypot_nonneg 65 95) as Hn.
    pose proof (hypot_sqr 65 95) as Hs.
    destruct (Rle_lt_or_eq_dec _ _ Hn) as [Hp|Hz]; [exact Hp|].
    rewrite <- Hz in Hs. lra.
  - simpl. replace (430 - 0.5 * 600) with (2 * 65) by lra.
    replace (640 - 0.5 * 900) with (2 * 95) by lra.
    replace (365 - 0.5 * 600) with 65 by lra.
    replace (545 - 0.5 * 900) with 95 by lra.
    apply hypot_scale. lra.
Defined.

Lemma invalid_selection_draws_no_overlay_witness :
  drawSelection demoMeasure (envOf staleSelection) demoTheme
    (editor staleSelection) = Js.Ok []
  /\ draw demoMeasure (envOf staleSelection) demoTheme (editor staleSelection)
     = Js.Ok (drawLayers (envOf staleSelection) demoTheme (editor staleSelection))
  /\ selectedLayerIndex (handleDeleteLayer (app staleSelection)) = (-1)%Z.
Proof.
  destruct (invalid_selection_draws_no_overlay demoMeasure
              (envOf staleSelection) demoTheme (editor staleSelection)
              (app staleSelection)) as (H1 & H2 & H3 & _).
  - right. reflexivity.
  - split; [exact H1|]. split; [exact H2 | exact H3].
Defined.

(** A valid selection, by contrast, gets its overlay. *)
Example valid_selection_draws_overlay :
  let w := demoWorld [] [demoSticker 0.2 0.2] [] sticker 0 in
  drawSelection demoMeasure (envOf w) demoTheme (editor w)
  = Js.Ok (layerOverlay (envOf w) demoTheme (0.5 * 600) (0.5 * 900)
             (0.2 * 600) (0.2 * 900) 0).
Proof.
  intros w. unfold drawSelection. simpl.
  rewrite Rltb_true by lra. reflexivity.
Qed.

(** Deleting the selected sticker empties the sticker array and clears
    the selection. *)
Example delete_selected_sticker :
  let w := demoWorld [] [demoSticker 0.2 0.2] [] sticker 0 in
  stickers (session (handleDeleteLayer (app w))) = []
  /\ selectedLayerIndex (handleDeleteLayer (app w)) = (-1)%Z.
Proof. split; reflexivity. Qed.



(** Two overlapping text layers under the pointer: the one with index 1 is
    selected. *)
Example two_texts_upper_selected :
  getHit demoMeasure (envOf twoTexts) (editor twoTexts) (300, 450)
  = Some (Build_Hit move text 1).
Proof.
  assert (Hc : textContains demoMeasure (envOf twoTexts) (300, 450) demoText = true).
  { rewrite textContains_unrotated by reflexivity. simpl.
    unfold textWidth, demoMeasure. simpl.
    apply insideBox_true; apply Rabs_def1; lra. }
  destruct (hitText_cases demoMeasure (envOf twoTexts) (300, 450) 1 demoText)
    as (_ & Hm & _).
  unfold getHit. simpl. unfold at_index. simpl.
  rewrite Hm by reflexivity. rewrite Hc. reflexivity.
Qed.

Lemma demoWorld_wellFormed (ps : list Photo) (ss : list StickerLayer)
    (ts : list TextLayer) (type : LayerType) (index : Z) :
  wellFormed (demoWorld ps ss ts type index).
Proof. unfold wellFormed, inStep, gestureOK. simpl. auto. Qed.






Lemma square_sticker_body_hit :
  getHit demoMeasure (envOf squareSticker) (editor squareSticker) (300, 450)
  = Some (Build_Hit move sticker 0).
Proof.
  unfold getHit. simpl. unfold at_index. simpl.
  rewrite hitSticker_unrotated by reflexivity. simpl.
  unfold ROTATION_HANDLE_OFFSET, ROTATION_HANDLE_SIZE, SCALE_HANDLE_SIZE.
  rewrite Rltb_false by (apply hypot_ge_snd; lra).
  rewrite Rltb_false by (apply hypot_ge; nra).
  rewrite insideBox_true; [reflexivity | |]; apply Rabs_def1; lra.
Qed.

(** Positions are not clamped: the sticker dragged 900 pixels to the right
    on the 600 pixel wide canvas ends at [x = 2], off the canvas. *)
Example sticker_dragged_off_canvas :
  exists w' s',
    run demoMeasure squareSticker
      [PointerDown (pointerAt 300 450); PointerMove (pointerAt 1200 450)]
    = Js.Ok w'
    /\ stickers (session (app w')) = [s']
    /\ st_x s' = 2 /\ st_y s' = 0.5
    /\ st_width s' = 0.2 /\ st_height s' = 0.2.
Proof.
  unfold run.
  rewrite (pointer_down_on_sticker_body demoMeasure squareSticker
             (pointerAt 300 450) 0 (demoSticker 0.2 0.2)
             square_sticker_body_hit eq_refl).
  cbn [Js.bind]. unfold step, handleMove. simpl.
  unfold withEditor. simpl. unfold handleUpdateSticker, Js.set_merged, Js.get.
  simpl. eexists. eexists. split; [reflexivity|]. simpl.
  split; [reflexivity|]. simpl. repeat split; lra.
Qed.

(** A session replaced from outside the editor does not touch the selection:
    after a guest start the sticker array is empty and the selection still
    reads "sticker 0"; the draw routine treats it as no selection. *)
Example guest_start_leaves_stale_selection :
  let a' := handleGuestActionDispatch (app squareSticker) GUEST_START
              (app squareSticker) in
  let w' := {| app := a';
               editor := syncTransient (appProps a') (editor squareSticker);
               w_canvas := demoCanvas; w_dpr := 1 |} in
  stickers (session a') = []
  /\ selectedLayerType a' = sticker /\ selectedLayerIndex a' = 0%Z
  /\ drawSelection demoMeasure (envOf w') demoTheme (editor w') = Js.Ok [].
Proof. repeat split. Qed.

(** The compositor machine computes: two edits 10 ms apart post nothing,
    one edit posts one request. *)
Example two_edits_computed :
  List.length
    (Compositor.posted
       (Compositor.run idleCompositor
          [Compositor.Edit demoRender; Compositor.Elapse 10;
           Compositor.Edit demoRender; Compositor.Elapse 1000])) = 0%nat.
Proof. reflexivity. Qed.

Example one_edit_computed :
  List.length
    (Compositor.posted
       (Compositor.run idleCompositor
          [Compositor.Edit demoRender; Compositor.Elapse 150])) = 1%nat.
Proof. reflexivity. Qed.

(** After the result of that request a new edit is served again. *)
Example edit_after_result_computed :
  List.length
    (Compositor.posted
       (Compositor.run idleCompositor
          [Compositor.Edit demoRender; Compositor.Elapse 150;
           Compositor.Result "data:image/png;base64,AAAA" 12;
           Compositor.Edit demoRender; Compositor.Elapse 150])) = 2%nat.
Proof. reflexivity. Qed.

Lemma tiny_sticker_body_hit :
  getHit demoMeasure (envOf tinySticker) (editor tinySticker) (300, 450)
  = Some (Build_Hit move sticker 0).
Proof.
  destruct (hitSticker_cases (envOf tinySticker) (300, 450) 0
              (demoSticker 0.01 0.01)) as (_ & Hm & _).
  unfold getHit. simpl. unfold at_index. simpl.
  rewrite Hm by reflexivity.
  rewrite stickerContains_unrotated by reflexivity. simpl.
  rewrite insideBox_true; [reflexivity | |]; apply Rabs_def1; lra.
Qed.

(** The floor is applied by scaling only: a sticker that is below the floor
    from the start stays as it is when moved. *)
Example tiny_sticker_moved :
  exists w' s',
    run demoMeasure tinySticker
      [PointerDown (pointerAt 300 450); PointerMove (pointerAt 360 450)]
    = Js.Ok w'
    /\ stickers (session (app w')) = [s']
    /\ st_x s' = 0.6 /\ st_width s' = 0.01 /\ st_height s' = 0.01.
Proof.
  unfold run.
  rewrite (pointer_down_on_sticker_body demoMeasure tinySticker
             (pointerAt 300 450) 0 (demoSticker 0.01 0.01)
             tiny_sticker_body_hit eq_refl).
  cbn [Js.bind]. unfold step, handleMove. simpl.
  unfold withEditor. simpl. unfold handleUpdateSticker, Js.set_merged, Js.get.
  simpl. eexists. eexists. split; [reflexivity|]. simpl.
  split; [reflexivity|]. simpl. repeat split; lra.
Qed.

(* ================================================================== *)
(** * Part III.  Further properties of the code                        *)
(* ================================================================== *)

(** ** Undo and redo *)

Lemma update_history (seen : AppState) (s : PhotoboothSession) (a : AppState) :
  history (updateSessionWithHistory seen s a)
  = firstn (historyIndex a + 1) (history a) ++ [s].
Proof. reflexivity. Qed.

Lemma update_index (seen : AppState) (s : PhotoboothSession) (a : AppState) :
  historyIndex (updateSessionWithHistory seen s a)
  = List.length (firstn (historyIndex a + 1) (history a)).
Proof.
  unfold updateSessionWithHistory. cbn.
  rewrite length_app. cbn. lia.
Qed.

Lemma update_session (seen : AppState) (s : PhotoboothSession) (a : AppState) :
  session (updateSessionWithHistory seen s a) = s.
Proof. reflexivity. Qed.

Lemma update_historyOK (seen : AppState) (s : PhotoboothSession) (a : AppState) :
  historyOK (updateSessionWithHistory seen s a).
Proof.
  unfold historyOK.
  rewrite update_history, update_index, update_session.
  rewrite nth_error_app2 by lia.
  rewrite Nat.sub_diag. reflexivity.
Qed.

Lemma invalidateAiImageOf_history (seen live : AppState) :
  history (invalidateAiImageOf seen live) = history live
  /\ historyIndex (invalidateAiImageOf seen live) = historyIndex live.
Proof.
  unfold invalidateAiImageOf.
  destruct (finalCompositeImage seen) as [[|c r]|]; auto.
Qed.

(** Below the index the history under an entry is what it was before the
    edit that pushed on it. *)
Lemma undo_after_update (seen seen' : AppState) (s s0 : PhotoboothSession)
    (a : AppState) :
  nth_error (history a) (historyIndex a) = Some s0 ->
  exists a',
    undo seen' (updateSessionWithHistory seen s a)
    = Js.Ok (a', [Build_Notice "Undo" toast_info])
    /\ session a' = s0
    /\ historyIndex a' = historyIndex a
    /\ history a' = firstn (historyIndex a + 1) (history a) ++ [s]
    /\ sent a' = sent a ++ [reviewState seen s; reviewState seen' s0].
Proof.
  intros H0.
  assert (Hlt : (historyIndex a < List.length (history a))%nat).
  { apply nth_error_Some. rewrite H0. discriminate. }
  assert (Hlen : List.length (firstn (historyIndex a + 1) (history a))
                 = (historyIndex a + 1)%nat).
  { rewrite length_firstn. lia. }
  unfold undo.
  rewrite update_index, update_history, Hlen.
  replace (0 <? historyIndex a + 1)%nat with true
    by (symmetry; apply Nat.ltb_lt; lia).
  replace (historyIndex a + 1 - 1)%nat with (historyIndex a) by lia.
  rewrite nth_error_app1 by lia.
  rewrite nth_error_firstn.
  replace (historyIndex a <? historyIndex a + 1)%nat with true
    by (symmetry; apply Nat.ltb_lt; lia).
  rewrite H0. cbn [Js.deref Js.bind].
  eexists. split; [reflexivity|].
  cbn. repeat split.
  unfold invalidateAiImageOf.
  destruct (finalCompositeImage seen') as [[|c r]|]; cbn;
    rewrite <- app_assoc; reflexivity.
Qed.

Lemma history_step_keeps (a : AppState) (op : HistoryOp) :
  historyOK a ->
  exists a', historyStep a op = Js.Ok a' /\ historyOK a'.
Proof.
  intros H.
  assert (Hlt : (historyIndex a < List.length (history a))%nat).
  { apply nth_error_Some. rewrite H. discriminate. }
  destruct op as [seen s|seen|seen]; cbn [historyStep].
  - eexists. split; [reflexivity|]. apply update_historyOK.
  - unfold undo.
    destruct (0 <? historyIndex a)%nat eqn:Hpos.
    + apply Nat.ltb_lt in Hpos.
      destruct (nth_error (history a) (historyIndex a - 1)) as [p|] eqn:Hp.
      * cbn. eexists. split; [reflexivity|].
        unfold historyOK. cbn. exact Hp.
      * apply nth_error_None in Hp. lia.
    + cbn. eexists. split; [reflexivity|]. exact H.
  - unfold redo.
    destruct (historyIndex a <? List.length (history a) - 1)%nat eqn:Hpos.
    + apply Nat.ltb_lt in Hpos.
      destruct (nth_error (history a) (historyIndex a + 1)) as [p|] eqn:Hp.
      * cbn. eexists. split; [reflexivity|].
        unfold historyOK. cbn. exact Hp.
      * apply nth_error_None in Hp. lia.
    + cbn. eexists. split; [reflexivity|]. exact H.
Qed.

(** X1.  Once the displayed session is the history entry under the index
    (as it is after any edit), every sequence of edits, undos and redos
    runs to completion, without reading past the history, and leaves the
    displayed session equal to the entry under the index. *)
Theorem history_run_keeps_invariant (ops : list HistoryOp) (a : AppState) :
  historyOK a ->
  exists a', historyRun a ops = Js.Ok a' /\ historyOK a'.
Proof.
  revert a. induction ops as [|op rest IH]; intros a H.
  - exists a. split; [reflexivity | exact H].
  - destruct (history_step_keeps a op H) as [a1 [H1 K1]].
    destruct (IH a1 K1) as [a2 [H2 K2]].
    exists a2. split; [|exact K2].
    cbn [historyRun]. rewrite H1. exact H2.
Qed.



(** X4.  An edit discards the entries above the index: whatever was
    undone before it, the history ends with the new session, and a redo
    right after the edit changes nothing and shows no notice. *)
Theorem edit_discards_redo (seen seen' : AppState) (s : PhotoboothSession)
    (a : AppState) :
  let a' := updateSessionWithHistory seen s a in
  history a' = firstn (historyIndex a + 1) (history a) ++ [s]
  /\ List.length (history a') = (historyIndex a' + 1)%nat
  /\ redo seen' a' = Js.Ok (a', []).
Proof.
  cbn zeta. split; [reflexivity|].
  assert (E : List.length (history (updateSessionWithHistory seen s a))
              = (historyIndex (updateSessionWithHistory seen s a) + 1)%nat).
  { rewrite update_history, update_index, length_app. reflexivity. }
  split; [exact E|].
  unfold redo. rewrite E.
  replace (historyIndex (updateSessionWithHistory seen s a)
           <? historyIndex (updateSessionWithHistory seen s a) + 1 - 1)%nat
    with false by (symmetry; apply Nat.ltb_ge; lia).
  reflexivity.
Qed.

(** X5.  GUEST_START replaces the displayed session by an empty one but
    leaves the history as it is: an undo after the first edit of the new
    session shows the session recorded before the start. *)
Theorem undo_crosses_guest_start (seen1 seen2 seen3 : AppState)
    (s : PhotoboothSession) (a : AppState) :
  historyOK a ->
  let started := handleGuestActionDispatch seen1 GUEST_START a in
  session started = emptySession true
  /\ history started = history a
  /\ exists a',
       undo seen3 (updateSessionWithHistory seen2 s started)
       = Js.Ok (a', [Build_Notice "Undo" toast_info])
       /\ session a' = session a.
Proof.
  intros H. cbn zeta.
  split; [reflexivity|]. split; [reflexivity|].
  destruct (undo_after_update seen2 seen3 s (session a)
              (handleGuestActionDispatch seen1 GUEST_START a) H)
    as [a' [H1 [H2 _]]].
  exists a'. split; assumption.
Qed.

(** ** Reordering photos *)

Lemma spliceStart_length (n m : nat) :
  spliceStart (n + m) (Z.of_nat n) = n.
Proof.
  unfold spliceStart.
  replace (Z.of_nat n <? 0)%Z with false by (symmetry; apply Z.ltb_ge; lia).
  rewrite Nat2Z.id. lia.
Qed.

Lemma splice_at {A : Type} (l1 l2 : list A) (d : nat) (items : list A) :
  splice (l1 ++ l2) (Z.of_nat (List.length l1)) d items
  = l1 ++ items ++ skipn d l2.
Proof.
  unfold splice. rewrite length_app, spliceStart_length.
  rewrite firstn_app, firstn_all, Nat.sub_diag, firstn_O, app_nil_r.
  f_equal. f_equal.
  rewrite skipn_app.
  rewrite (skipn_all2 l1) by lia. cbn [app].
  replace (List.length l1 + Nat.min d (List.length l1 + List.length l2 - List.length l1)
           - List.length l1)%nat
    with (Nat.min d (List.length l2)) by lia.
  destruct (Nat.le_ge_cases d (List.length l2)) as [H|H].
  - rewrite Nat.min_l by exact H. reflexivity.
  - rewrite Nat.min_r by exact H.
    rewrite skipn_all, skipn_all2 by exact H. reflexivity.
Qed.

Lemma get_middle {A : Type} (l1 : list A) (x : A) (l2 : list A) :
  Js.get (l1 ++ x :: l2) (Z.of_nat (List.length l1)) = Some x.
Proof.
  unfold Js.get.
  replace (Z.of_nat (List.length l1) <? 0)%Z with false
    by (symmetry; apply Z.ltb_ge; lia).
  rewrite Nat2Z.id, nth_error_app2 by lia.
  rewrite Nat.sub_diag. reflexivity.
Qed.



Lemma invalidateAiImage_selection (a : AppState) :
  selectedLayerType (invalidateAiImage a) = selectedLayerType a
  /\ selectedLayerIndex (invalidateAiImage a) = selectedLayerIndex a.
Proof.
  unfold invalidateAiImage.
  destruct (finalCompositeImage a) as [[|c r]|]; auto.
Qed.

(** X6.  Moving a photo that has a successor forward exchanges the two and
    leaves every other photo, the stickers and the text layers where they
    are; when the moved photo is the selected layer the selection follows
    it to its new index. *)
Theorem reorder_forward_swaps (a : AppState) (l1 l2 : list Photo) (p q : Photo) :
  photos (session a) = l1 ++ p :: q :: l2 ->
  exists a',
    onReorderPhoto (Z.of_nat (List.length l1)) forward a = Js.Ok a'
    /\ photos (session a') = l1 ++ q :: p :: l2
    /\ stickers (session a') = stickers (session a)
    /\ textLayers (session a') = textLayers (session a)
    /\ (selectedLayerType a = photo ->
        selectedLayerIndex a = Z.of_nat (List.length l1) ->
        Js.get (photos (session a')) (selectedLayerIndex a') = Some p).
Proof.
  intros Hp. unfold onReorderPhoto.
  rewrite Hp, get_middle, splice_at. cbn [skipn]. rewrite app_nil_l.
  replace (l1 ++ q :: l2) with ((l1 ++ [q]) ++ l2)
    by (rewrite <- app_assoc; reflexivity).
  replace (Z.of_nat (List.length l1) + 1)%Z
    with (Z.of_nat (List.length (l1 ++ [q])))
    by (rewrite length_app; cbn; lia).
  rewrite splice_at. cbn [skipn].
  eexists. split; [reflexivity|].
  cbn [session updateSessionWithHistory sendMessage with_session with_history
       photos stickers textLayers session_with_photos].
  split; [rewrite <- app_assoc; reflexivity|].
  split; [reflexivity|]. split; [reflexivity|].
  intros Hty Hix. rewrite Hty, Hix, Z.eqb_refl. cbn.
  apply get_middle.
Qed.


(** X8.  Moving the first photo backward asks for index -1, which the
    array reads from its end: whether or not the photo is selected, it
    lands in front of the last of the other photos, so that with one
    photo or two the order is unchanged.  When the photo is the selected
    layer the selection becomes -1, nothing selected; otherwise the
    selection stays where it was. *)
Theorem reorder_first_backward (a : AppState) (p : Photo) (rest : list Photo) :
  photos (session a) = p :: rest ->
  exists a',
    onReorderPhoto 0 backward a = Js.Ok a'
    /\ photos (session a')
       = firstn (List.length rest - 1) rest
         ++ p :: skipn (List.length rest - 1) rest
    /\ (forall l q, rest = l ++ [q] -> photos (session a') = l ++ [p; q])
    /\ ((List.length rest <= 1)%nat ->
        photos (session a') = photos (session a))
    /\ (selectedLayerType a = photo -> selectedLayerIndex a = 0%Z ->
        selectedLayerIndex a' = (-1)%Z
        /\ Js.get (photos (session a')) (selectedLayerIndex a') = None)
    /\ (selectedLayerType a <> photo \/ selectedLayerIndex a <> 0%Z ->
        selectedLayerType a' = selectedLayerType a
        /\ selectedLayerIndex a' = selectedLayerIndex a).
Proof.
  intros Hp. unfold onReorderPhoto.
  rewrite Hp. cbn [Js.get Z.ltb Z.compare Z.to_nat nth_error].
  assert (E1 : splice (p :: rest) 0 1 [] = rest).
  { unfold splice, spliceStart. cbn. reflexivity. }
  rewrite E1.
  assert (E2 : splice rest (0 - 1) 0 [p]
               = firstn (List.length rest - 1) rest
                 ++ p :: skipn (List.length rest - 1) rest).
  { unfold splice, spliceStart. cbn [Z.sub Z.add Z.opp Z.ltb Z.compare].
    replace (Z.to_nat (Z.max (Z.of_nat (List.length rest) + -1) 0))
      with (List.length rest - 1)%nat by lia.
    rewrite Nat.min_0_l, Nat.add_0_r. reflexivity. }
  rewrite E2.
  eexists. split; [reflexivity|].
  cbn [session updateSessionWithHistory sendMessage with_session with_history
       photos session_with_photos].
  split; [reflexivity|].
  split.
  { intros l q ->. rewrite length_app. cbn [List.length].
    replace (List.length l + 1 - 1)%nat with (List.length l) by lia.
    rewrite firstn_app, firstn_all, Nat.sub_diag, firstn_O, app_nil_r.
    rewrite skipn_app, skipn_all, Nat.sub_diag. reflexivity. }
  split.
  { intros Hl. destruct rest as [|q [|r rest']]; cbn in Hl |- *;
      try reflexivity; lia. }
  destruct (invalidateAiImage_selection a) as [Et Ei].
  split.
  - intros Hty Hix. rewrite Hty, Hix. cbn. split; reflexivity.
  - intros Hno.
    destruct (LayerType_eqb (selectedLayerType a) photo
              && (selectedLayerIndex a =? 0)%Z) eqn:E.
    + exfalso. apply andb_true_iff in E as [Ea Eb].
      apply Z.eqb_eq in Eb.
      destruct Hno as [Hno|Hno]; [|contradiction].
      apply Hno. destruct (selectedLayerType a); try discriminate; reflexivity.
    + cbn. split; assumption.
Qed.

(** ** Adding layers and the smart crop *)



Lemma get_replace_other {A : Type} (arr : list A) (n : nat) (x : A) (j : Z) :
  j <> Z.of_nat n ->
  Js.get (Js.replace arr n x) j = Js.get arr j.
Proof.
  intros Hne. unfold Js.get.
  destruct (j <? 0)%Z eqn:Hj; [reflexivity|].
  apply Z.ltb_ge in Hj.
  assert (Hn : Z.to_nat j <> n) by lia.
  revert Hn. generalize (Z.to_nat j) as k. clear Hne Hj j.
  revert n. induction arr as [|y r IH]; intros [|n] [|k] Hn; cbn;
    try reflexivity; try congruence.
  apply IH. congruence.
Qed.

(** X11.  The smart crop of an index that holds no photo changes nothing
    at all.  On a photo it sets the crop to pan (0, 0) and zoom 1.25 and
    leaves the photo's transform, the number of photos and every other
    photo as they are. *)
Theorem smart_crop_resets_crop (index : Z) (a : AppState) :
  (Js.get (photos (session a)) index = None -> handleSmartCrop index a = a)
  /\ (forall p, Js.get (photos (session a)) index = Some p ->
        let a' := handleSmartCrop index a in
        Js.get (photos (session a')) index
        = Some (photo_with_crop (Build_Crop 0 0 1.25) p)
        /\ List.length (photos (session a')) = List.length (photos (session a))
        /\ forall j, j <> index ->
             Js.get (photos (session a')) j = Js.get (photos (session a)) j).
Proof.
  split.
  - intros H. unfold handleSmartCrop. rewrite H. reflexivity.
  - intros p H. cbn zeta. unfold handleSmartCrop. rewrite H.
    cbn [session updateSessionWithHistory sendMessage with_session
         with_history photos session_with_photos].
    split; [apply (get_replace_same _ _ p); exact H|].
    split; [apply length_replace|].
    intros j Hj. apply get_replace_other.
    unfold Js.get in H. destruct (index <? 0)%Z eqn:Hi; [discriminate|].
    apply Z.ltb_ge in Hi. lia.
Qed.

(** ** The guest window and the operator's listener *)

Lemma asPoint_pointValue (p : R * R) :
  Wire.asPoint (GuestWindow.pointValue p) = Some p.
Proof. destruct p as [x y]. reflexivity. Qed.

Lemma allSome_points (pts : list (R * R)) :
  Wire.allSome (map Wire.asPoint (map GuestWindow.pointValue pts)) = Some pts.
Proof.
  induction pts as [|p r IH]; [reflexivity|].
  cbn [map Wire.allSome]. rewrite asPoint_pointValue, IH. reflexivity.
Qed.

Lemma asDrawingPath_drawingValue (d : DrawingPath) :
  Wire.asDrawingPath (GuestWindow.drawingValue d) = Some d.
Proof.
  destruct d as [id pts color width].
  unfold Wire.asDrawingPath, GuestWindow.drawingValue.
  cbn [Wire.prop Wire.lookup String.eqb Ascii.eqb Bool.eqb Wire.asString
       Wire.asNumber dr_id dr_points dr_color dr_width].
  rewrite allSome_points. reflexivity.
Qed.

(** X12.  Every action the guest window sends as an object of its
    declared type passes the operator's validation and is dispatched as
    that same action; the one exception is an e-mail address of more than
    200 characters. *)
Theorem guest_action_round_trip (seen live : AppState) (action : GuestAction) :
  (forall email, action = GUEST_EMAIL email ->
                 (String.length email <= 200)%nat) ->
  Wire.validateInterWindowMessage
    (GuestWindow.sendAction (GuestWindow.actionValue action)) = true
  /\ Wire.handleGuestAction seen
       (GuestWindow.sendAction (GuestWindow.actionValue action)) live
     = Js.Ok (handleGuestActionDispatch seen action live).
Proof.
  intros Hlen.
  destruct action as [|layout|frame|email| |d|css|].
  - split; reflexivity.
  - split; reflexivity.
  - split; reflexivity.
  - assert (E : (200 <? String.length email)%nat = false)
      by (apply Nat.ltb_ge; apply Hlen; reflexivity).
    assert (V : Wire.validateInterWindowMessage
                  (GuestWindow.sendAction
                     (GuestWindow.actionValue (GUEST_EMAIL email))) = true).
    { unfold Wire.validateInterWindowMessage, Wire.payloadRejected.
      cbn -[Nat.ltb]. rewrite E. reflexivity. }
    split; [exact V|].
    unfold Wire.handleGuestAction. rewrite V. reflexivity.
  - split; reflexivity.
  - assert (V : Wire.validateInterWindowMessage
                  (GuestWindow.sendAction
                     (GuestWindow.actionValue (GUEST_ADD_DRAWING d))) = true)
      by reflexivity.
    split; [exact V|].
    unfold Wire.handleGuestAction. rewrite V.
    cbn -[Wire.asDrawingPath GuestWindow.drawingValue handleGuestActionDispatch].
    rewrite asDrawingPath_drawingValue. reflexivity.
  - split; reflexivity.
  - split; reflexivity.
Qed.

(** X13.  A tap on a frame of the guest's frame-selection screen sends
    the frame's [src].  When the frame holds no string under [src] the
    operator's validation rejects the message and the operator's state
    stays as it is.  A frame as the application builds it
    ([FrameConfig]) has a [thumbnailSrc] and no [src]: no tap on such a
    frame chooses it. *)
Theorem frame_tap_dropped (seen live : AppState) (frame : Wire.JSValue) :
  Wire.isStringType (Wire.prop frame "src") = false ->
  Wire.validateInterWindowMessage (GuestWindow.frameTap frame) = false
  /\ Wire.handleGuestAction seen (GuestWindow.frameTap frame) live = Js.Ok live
  /\ forall name f,
       Wire.isStringType
         (Wire.prop (GuestWindow.frameConfigValue name f) "src") = false
       /\ Wire.handleGuestAction seen
            (GuestWindow.frameTap (GuestWindow.frameConfigValue name f)) live
          = Js.Ok live.
Proof.
  intros Hs.
  assert (V : forall fr,
             Wire.isStringType (Wire.prop fr "src") = false ->
             Wire.validateInterWindowMessage (GuestWindow.frameTap fr) = false).
  { intros fr H. unfold Wire.validateInterWindowMessage, Wire.payloadRejected.
    cbn -[Wire.isStringType]. rewrite H. reflexivity. }
  assert (D : forall fr,
             Wire.isStringType (Wire.prop fr "src") = false ->
             Wire.handleGuestAction seen (GuestWindow.frameTap fr) live
             = Js.Ok live).
  { intros fr H. unfold Wire.handleGuestAction. rewrite (V fr H). reflexivity. }
  split; [apply V; exact Hs|]. split; [apply D; exact Hs|].
  intros name f. split; [reflexivity|]. apply D. reflexivity.
Qed.

(** X14.  The duplicate check on a guest's e-mail address reads the
    addresses of the render that installed the listener, and a recorded
    address changes none of the listener's dependencies: the same
    address sent twice to one listener is recorded twice.  A listener
    that has seen the address ignores it. *)
Theorem repeated_email_recorded_twice (seen live : AppState) (email : string) :
  email <> EmptyString ->
  ~ In email (emailsCollected (analytics seen)) ->
  let once := handleGuestActionDispatch seen (GUEST_EMAIL email) live in
  let twice := handleGuestActionDispatch seen (GUEST_EMAIL email) once in
  emailsCollected (analytics twice)
  = emailsCollected (analytics live) ++ [email; email]
  /\ placeholders (settings once) = placeholders (settings live)
  /\ session once = session live
  /\ layoutOptions (settings once) = layoutOptions (settings live)
  /\ handleGuestActionDispatch once (GUEST_EMAIL email) once = once.
Proof.
  intros Hne Hnew. cbn zeta.
  assert (E1 : negb (String.eqb email EmptyString) = true).
  { apply negb_true_iff. apply String.eqb_neq. exact Hne. }
  assert (E2 : existsb (String.eqb email) (emailsCollected (analytics seen))
               = false).
  { apply not_true_is_false. intros H. apply existsb_exists in H.
    destruct H as [x [Hin Hx]]. apply String.eqb_eq in Hx. subst x.
    exact (Hnew Hin). }
  unfold handleGuestActionDispatch. rewrite E1, E2. cbn [andb negb].
  cbn [analytics with_analytics analytics_with_emails emailsCollected
       settings session].
  split; [rewrite <- app_assoc; reflexivity|].
  split; [reflexivity|]. split; [reflexivity|]. split; [reflexivity|].
  replace (existsb (String.eqb email) (emailsCollected (analytics live) ++ [email]))
    with true; [reflexivity|].
  symmetry. apply existsb_exists. exists email.
  split; [apply in_or_app; right; left; reflexivity | apply String.eqb_refl].
Qed.

(** ** Keyboard shortcuts *)

(** X15.  The Delete key deletes by the layer type of the render that
    installed the key listener, and a change of the selected type alone
    does not re-install it.  With sticker [i] selected when the listener
    was installed and text layer [i] selected afterwards, the key
    removes sticker [i] and keeps every text layer; the closure of the
    current render would have removed the text layer. *)
Theorem delete_key_uses_stale_type (a : AppState) (panels : Panels) (i : Z) :
  appStep a = FINALIZE_AND_EXPORT ->
  isKioskLocked panels = false ->
  selectedLayerType a = sticker ->
  selectedLayerIndex a = i ->
  (0 <= i)%Z ->
  let installed := Build_Operator a panels in
  let clicked := Build_Operator (handleSelectLayer text i a) panels in
  keyListenerAfter installed clicked = installed
  /\ (exists after,
        handleKeyDown installed deleteKey clicked
        = Js.Ok (after, [PreventDefault])
        /\ textLayers (session (op_app after)) = textLayers (session a)
        /\ stickers (session (op_app after))
           = Js.filter_not_index (stickers (session a)) i
        /\ selectedLayerIndex (op_app after) = (-1)%Z)
  /\ (exists after,
        handleKeyDown clicked deleteKey clicked
        = Js.Ok (after, [PreventDefault])
        /\ textLayers (session (op_app after))
           = Js.filter_not_index (textLayers (session a)) i
        /\ stickers (session (op_app after)) = stickers (session a)).
Proof.
  intros Hstep Hlock Hty Hix Hi. cbn zeta.
  assert (Hpos : (0 <=? i)%Z = true) by (apply Z.leb_le; exact Hi).
  split; [|split].
  - unfold keyListenerAfter, keyDepsSame. cbn.
    rewrite Hix, Z.eqb_refl, Hstep.
    destruct panels as [[] [] [] []]; reflexivity.
  - unfold handleKeyDown.
    cbn [op_app op_panels deleteKey key ctrlKey metaKey targetIsInput].
    rewrite Hstep, Hlock, Hix, Hpos. cbn [AppStep_eqb negb orb].
    eexists. split; [reflexivity|].
    unfold handleDeleteLayerOf. rewrite Hty, Hix.
    split; [reflexivity|]. split; reflexivity.
  - unfold handleKeyDown.
    cbn [op_app op_panels deleteKey key ctrlKey metaKey targetIsInput
         handleSelectLayer appStep with_selectedLayerIndex
         with_selectedLayerType selectedLayerIndex].
    rewrite Hstep, Hlock, Hpos. cbn [AppStep_eqb negb orb].
    eexists. split; [reflexivity|].
    unfold handleDeleteLayerOf.
    split; reflexivity.
Qed.

(** X10.  The Delete key deletes from the session of the render that
    installed the key listener, and an edit of the session alone does
    not re-install it.  With a sticker selected when the listener was
    installed, Delete after a later edit shows the session of that
    earlier render without the sticker: whatever the edit had changed
    (photos, text layers, drawings, the filter) is as it was before the
    edit.  The edited session stays in the history, one undo away. *)
Theorem delete_key_reverts_later_edits (a seen' : AppState) (panels : Panels)
    (newSession : PhotoboothSession) :
  appStep a = FINALIZE_AND_EXPORT ->
  isKioskLocked panels = false ->
  selectedLayerType a = sticker ->
  (0 <= selectedLayerIndex a)%Z ->
  let installed := Build_Operator a panels in
  let edited :=
    Build_Operator (updateSessionWithHistory seen' newSession a) panels in
  keyListenerAfter installed edited = installed
  /\ exists after,
       handleKeyDown installed deleteKey edited
       = Js.Ok (after, [PreventDefault])
       /\ session (op_app after)
          = session_with_stickers
              (Js.filter_not_index (stickers (session a)) (selectedLayerIndex a))
              (session a)
       /\ nth_error (history (op_app after)) (historyIndex (op_app after) - 1)
          = Some newSession.
Proof.
  intros Hstep Hlock Hty Hi. cbn zeta.
  assert (Hpos : (0 <=? selectedLayerIndex a)%Z = true)
    by (apply Z.leb_le; exact Hi).
  split.
  - unfold keyListenerAfter, keyDepsSame.
    cbn [op_app op_panels appStep selectedLayerIndex updateSessionWithHistory
         sendMessage with_session with_history].
    rewrite Z.eqb_refl, Hstep.
    destruct panels as [[] [] [] []]; reflexivity.
  - unfold handleKeyDown.
    cbn [op_app op_panels deleteKey key ctrlKey metaKey targetIsInput].
    rewrite Hstep, Hlock, Hpos. cbn [AppStep_eqb negb orb].
    eexists. split; [reflexivity|].
    unfold handleDeleteLayerOf. rewrite Hty.
    cbn [with_app op_app session with_selectedLayerIndex history historyIndex].
    split; [reflexivity|].
    destruct (invalidateAiImageOf_history a
                (updateSessionWithHistory seen' newSession a)) as [Eh Ei].
    rewrite update_history, update_index, Eh, Ei.
    set (h := history (updateSessionWithHistory seen' newSession a)).
    set (k := historyIndex (updateSessionWithHistory seen' newSession a)).
    assert (Hk : nth_error h k = Some newSession)
      by apply update_historyOK.
    assert (Hlt : (k < List.length h)%nat)
      by (apply nth_error_Some; rewrite Hk; discriminate).
    assert (Hlen : List.length (firstn (k + 1) h) = (k + 1)%nat)
      by (rewrite length_firstn; lia).
    rewrite Hlen.
    replace (k + 1 - 1)%nat with k by lia.
    rewrite nth_error_app1 by lia.
    rewrite nth_error_firstn.
    replace (k <? k + 1)%nat with true by (symmetry; apply Nat.ltb_lt; lia).
    exact Hk.
Qed.

(** ** Printing with vending *)

(** X16.  With vending on and the session unpaid, a guest's print request
    prints nothing and puts the guest window on the payment screen.  The
    payment message then marks the session paid, adds the price of one
    print to the revenue and starts the print; a listener installed
    after that prints on request without asking again. *)
Theorem vending_print_flow (seen live : AppState) :
  enableVending (pro (settings seen)) = true ->
  isPaid (session seen) = false ->
  let asked := handleGuestActionDispatch seen GUEST_PRINT live in
  let paid := handleGuestActionDispatch seen GUEST_PAYMENT_COMPLETE asked in
  let again := handleGuestActionDispatch paid GUEST_PRINT paid in
  calls asked = calls live
  /\ sent asked = sent live ++ [paymentState seen]
  /\ isPaid (session paid) = true
  /\ totalRevenue (analytics paid)
     = totalRevenue (analytics live) + pricePerPrint (pro (settings seen))
  /\ calls paid = calls live ++ [CallPrintInternal]
  /\ calls again = calls live ++ [CallPrintInternal; CallPrintInternal]
  /\ sent again = sent asked.
Proof.
  intros Hv Hp. cbn zeta.
  unfold handleGuestActionDispatch, handlePrint.
  rewrite Hv, Hp. cbn [andb negb].
  cbn [calls sent sendMessage call session with_session with_analytics
       analytics totalRevenue session_with_isPaid isPaid settings].
  repeat split.
  rewrite andb_false_r. cbn [calls call]. rewrite <- app_assoc. reflexivity.
  rewrite andb_false_r. reflexivity.
Qed.

(** ** The compositor: one request at a time *)

Section CompositorMore.

Import Compositor.
#[local] Open Scope nat_scope.

Lemma settled_singleFlight (s : State) : settled s -> singleFlight s.
Proof. intros (_ & _ & _ & _ & Ht & Hf). left. auto. Qed.

Lemma flight_cleanup (s : State) :
  posted (runCleanup s) = posted s /\ inFlight (runCleanup s) = inFlight s.
Proof. unfold runCleanup. destruct (cleanup s); auto. Qed.

(** What one event does to the count of requests. *)
Lemma flight_step (s : State) (e : Event) :
  singleFlight s ->
  List.length (posted (step s e)) + inFlight s
  <= List.length (posted s) + inFlight (step s e) + answers [e].
Proof.
  intros H. destruct e as [r | ms | d ms]; cbn [step answers].
  - destruct (flight_cleanup s) as [Hq Hf].
    revert Hq Hf. generalize (runCleanup s) as s1. intros s1 Hq Hf.
    unfold effectBody.
    destruct (negb (useWorkerCompositor s1)); [rewrite Hq, Hf; lia|].
    destruct (negb (compositorWorker s1)); [rewrite Hq, Hf; lia|].
    destruct (r_canvas r); [|rewrite Hq, Hf; lia].
    destruct (workerPending s1); cbn; rewrite Hq, Hf; lia.
  - unfold elapse.
    destruct H as [(Ht & Hf) | [(t & Ht & Hp & Hf) | (Ht & Hp & Hf)]];
      rewrite Ht; cbn; try lia.
    destruct (tm_due t <=? now s + ms); cbn; [|lia].
    unfold fire. cbn. destruct (postThrows s); cbn; [lia|].
    rewrite length_app. cbn. lia.
  - unfold onResult. destruct (inFlight s); cbn; lia.
Qed.

Lemma singleFlight_run (evs : list Event) (s : State) :
  singleFlight s -> singleFlight (run s evs).
Proof.
  revert s. induction evs as [|e evs IH]; intros s H; cbn; auto.
  apply IH. apply singleFlight_step. exact H.
Qed.

Lemma flight_run (evs : list Event) (s : State) :
  singleFlight s ->
  List.length (posted (run s evs)) + inFlight s
  <= List.length (posted s) + inFlight (run s evs) + answers evs.
Proof.
  revert s. induction evs as [|e evs IH]; intros s H.
  - cbn. lia.
  - change (run s (e :: evs)) with (run (step s e) evs).
    pose proof (flight_step s e H) as H1.
    pose proof (IH (step s e) (proj1 (singleFlight_step s e H))) as H2.
    assert (E : answers (e :: evs) = answers [e] + answers evs)
      by (destruct e; reflexivity).
    rewrite E. lia.
Qed.

(** X17.  The compositor keeps one request in flight at most.  From a
    settled compositor, whatever edits, waits and worker answers follow:
    no request is posted while one is in flight, and the requests posted
    never exceed the answers received by more than one. *)
Theorem compositor_single_flight (evs : list Event) (s : State) :
  settled s ->
  inFlight (run s evs) <= 1
  /\ (forall e, 0 < inFlight (run s evs) ->
                posted (step (run s evs) e) = posted (run s evs))
  /\ List.length (posted (run s evs))
     <= List.length (posted s) + answers evs + 1.
Proof.
  intros Hs.
  pose proof (settled_singleFlight s Hs) as H.
  pose proof (singleFlight_run evs s H) as Hr.
  assert (Hle : inFlight (run s evs) <= 1).
  { destruct Hr as [(_ & Hf) | [(t & _ & _ & Hf) | (_ & _ & Hf)]]; lia. }
  split; [exact Hle|]. split.
  - intros e. apply singleFlight_step. exact Hr.
  - pose proof (flight_run evs s H) as H1.
    destruct Hs as (_ & _ & _ & _ & _ & Hf). lia.
Qed.

Lemma settled_cycle (s : State) (c : Cycle) :
  settled s ->
  DEBOUNCE_MS <= cy_wait c ->
  settled (run s (cycleEvents c))
  /\ posted (run s (cycleEvents c))
     = posted s ++ [compositeRequest (cy_app c) (cy_canvas c)]
  /\ composite (run s (cycleEvents c)) = Some (cy_dataUrl c).
Proof.
  intros (Hu & Hw & Hx & Hp & Ht & Hf) Hms.
  destruct s as [u w x p t n cl nw po fl co rm]. cbn in Hu, Hw, Hx, Hp, Ht, Hf.
  subst u w x p t fl.
  assert (Hdue : (nw + DEBOUNCE_MS <=? nw + cy_wait c) = true)
    by (apply Nat.leb_le; lia).
  unfold run, cycleEvents. cbn [fold_left].
  unfold step at 3. unfold runCleanup. cbn [cleanup].
  destruct cl as [id|]; unfold effectBody; cbn;
    unfold elapse; cbn; rewrite Hdue; cbn;
    unfold settled; cbn; auto 10.
Qed.

(** X18.  Edits that come one at a time are all composited: when every
    edit is followed by a wait of at least the debounce window of 150 ms
    and then by the worker's answer, each edit posts exactly one request,
    carrying the state of that edit, in the order of the edits. *)
Theorem spaced_edits_all_post (l : list Cycle) (s : State) :
  settled s ->
  Forall (fun c => DEBOUNCE_MS <= cy_wait c) l ->
  posted (run s (flat_map cycleEvents l))
  = posted s ++ map (fun c => compositeRequest (cy_app c) (cy_canvas c)) l
  /\ settled (run s (flat_map cycleEvents l)).
Proof.
  revert s. induction l as [|c l IH]; intros s Hs HF.
  - cbn. rewrite app_nil_r. auto.
  - inversion HF as [|c' l' Hc Hl]; subst.
    cbn [flat_map]. rewrite run_app.
    destruct (settled_cycle s c Hs Hc) as (Hs1 & Hq1 & _).
    destruct (IH _ Hs1 Hl) as (Hq2 & Hs2).
    split; [|exact Hs2].
    rewrite Hq2, Hq1, <- app_assoc. reflexivity.
Qed.

End CompositorMore.

(** ** Canvas sizing *)



Lemma Rltb_ge (a b : R) : Rltb a b = false -> b <= a.
Proof.
  unfold Rltb. destruct (Rlt_dec a b); [discriminate|]. intros _. lra.
Qed.


(** ** Fitting a photo into its slot *)

(** X20.  A loaded photo is drawn clipped to its slot, with the image
    scaled without distortion.  In cover mode (the default) the image is
    at least as wide and as high as the slot times the crop zoom, so at a
    zoom of one or more it leaves no gap when not panned; in contain mode
    it is at most as wide and as high as the slot times the zoom. *)
Theorem photo_fit_modes (env : Env) (ed : Editor) (p : Photo) :
  let b := toAbsolute (ph_transform p) (canvas env) in
  let W := bx_width b * p_globalPhotoScale (props env) in
  let H := bx_height b * p_globalPhotoScale (props env) in
  let z := crop_scale (ph_crop p) in
  loaded ed (ph_src p) = true ->
  0 < W -> 0 < H -> 0 < ph_originalWidth p -> 0 < ph_originalHeight p ->
  0 < z ->
  exists dw dh,
    drawPhoto env ed p
    = [Save; Translate (bx_x b) (bx_y b);
       Rotate (tr_rotation (ph_transform p) * PI / 180); BeginPath;
       Rect (- W / 2) (- H / 2) W H; Clip;
       DrawImage (ph_src p) (- dw / 2 + crop_x (ph_crop p))
         (- dh / 2 + crop_y (ph_crop p)) dw dh;
       Restore]
    /\ dw * ph_originalHeight p = dh * ph_originalWidth p
    /\ (ph_fit p <> Some contain -> W * z <= dw /\ H * z <= dh)
    /\ (ph_fit p = Some contain -> dw <= W * z /\ dh <= H * z).
Proof.
  cbn zeta. intros Hl HW HH How Hoh Hz.
  set (W := bx_width (toAbsolute (ph_transform p) (canvas env))
            * p_globalPhotoScale (props env)) in *.
  set (H := bx_height (toAbsolute (ph_transform p) (canvas env))
            * p_globalPhotoScale (props env)) in *.
  set (A := ph_originalWidth p / ph_originalHeight p).
  assert (HA : 0 < A) by (apply Rdiv_lt_0_compat; assumption).
  assert (EA : A * ph_originalHeight p = ph_originalWidth p)
    by (unfold A; field; lra).
  unfold drawPhoto. rewrite Hl. cbn [negb].
  fold W. fold H. fold A.
  destruct (Rltb (W / H) A) eqn:Hc.
  - apply Rltb_lt in Hc.
    assert (Hc' : W < H * A).
    { apply Rmult_lt_compat_r with (r := H) in Hc; [|exact HH].
      replace (W / H * H) with W in Hc by (field; lra). lra. }
    assert (Hd : W / A < H).
    { apply Rmult_lt_reg_r with (r := A); [exact HA|].
      replace (W / A * A) with W by (field; lra). lra. }
    destruct (ph_fit p) as [[|]|]; cbn iota beta;
      (eexists; eexists; split; [reflexivity|]); split.
    + rewrite <- EA; first [ring | field; lra].
    + split; [intros _; split; nra | discriminate].
    + rewrite <- EA; first [ring | field; lra].
    + split; [intros N; exfalso; apply N; reflexivity | intros _; split; nra].
    + rewrite <- EA; first [ring | field; lra].
    + split; [intros _; split; nra | discriminate].
  - apply Rltb_ge in Hc.
    assert (Hc' : H * A <= W).
    { apply Rmult_le_compat_r with (r := H) in Hc; [|lra].
      replace (W / H * H) with W in Hc by (field; lra). lra. }
    assert (Hd : H <= W / A).
    { apply Rmult_le_reg_r with (r := A); [exact HA|].
      replace (W / A * A) with W by (field; lra). lra. }
    destruct (ph_fit p) as [[|]|]; cbn iota beta;
      (eexists; eexists; split; [reflexivity|]); split.
    + rewrite <- EA; first [ring | field; lra].
    + split; [intros _; split; nra | discriminate].
    + rewrite <- EA; first [ring | field; lra].
    + split; [intros N; exfalso; apply N; reflexivity | intros _; split; nra].
    + rewrite <- EA; first [ring | field; lra].
    + split; [intros _; split; nra | discriminate].
Qed.

(** ** Photos into placeholders *)

Lemma skipn_nth_error_some {A : Type} (l : list A) (i : nat) (x : A) :
  nth_error l i = Some x -> skipn i l = x :: skipn (S i) l.
Proof.
  revert i. induction l as [|y r IH]; intros [|i] H; cbn in *;
    try discriminate.
  - injection H as H. subst. reflexivity.
  - apply IH. exact H.
Qed.

Lemma skipn_nth_error_none {A : Type} (l : list A) (i : nat) :
  nth_error l i = None -> skipn i l = [].
Proof. intros H. apply skipn_all2. apply nth_error_None. exact H. Qed.

Lemma photosFromData_combine (i : nat) (photoData : list PhotoData)
    (slots : list Placeholder) (cs : R * R) :
  photosFromData i photoData slots cs
  = map (dataPhoto cs) (combine photoData (skipn i slots)).
Proof.
  revert i. induction photoData as [|d rest IH]; intros i; [reflexivity|].
  cbn [photosFromData].
  destruct (nth_error slots i) as [pl|] eqn:E.
  - rewrite (skipn_nth_error_some _ _ _ E). cbn [combine map].
    rewrite IH. reflexivity.
  - rewrite IH, (skipn_nth_error_none _ _ E).
    rewrite (skipn_nth_error_none slots (S i))
      by (apply nth_error_None; apply nth_error_None in E; lia).
    destruct rest; reflexivity.
Qed.

Lemma nth_error_combine {A B : Type} (l1 : list A) (l2 : list B) (i : nat)
    (x : A) (y : B) :
  nth_error l1 i = Some x -> nth_error l2 i = Some y ->
  nth_error (combine l1 l2) i = Some (x, y).
Proof.
  revert l2 i. induction l1 as [|a r IH]; intros [|b r2] [|i] H1 H2;
    cbn in *; try discriminate.
  - congruence.
  - apply IH; assumption.
Qed.

Lemma slot_is_placeholder (src : string) (pl : Placeholder) (cs img : R * R)
    (cv : Canvas) :
  slotRect (ph_transform (createPhotoFromPlaceholder src pl cs img)) cv
  = placeholderRect pl cv.
Proof.
  unfold slotRect, placeholderRect, toAbsolute. cbn.
  replace ((pl_x pl + pl_width pl / 2) * cv_width cv
           - pl_width pl * cv_width cv / 2)
    with (pl_x pl * cv_width cv) by field.
  replace ((pl_y pl + pl_height pl / 2) * cv_height cv
           - pl_height pl * cv_height cv / 2)
    with (pl_y pl * cv_height cv) by field.
  reflexivity.
Qed.

(** X24.  Selecting photos starts a fresh session with one photo for
    each entry that has a placeholder under its index, as many as the
    smaller of the two counts; photo [i] carries the crop chosen for it
    and its slot on the canvas is the rectangle of placeholder [i].  The
    history restarts with this session as its only entry, so there is
    nothing to undo. *)
Theorem photos_selected_fill_slots (seen live seen' : AppState) (cs : R * R)
    (photoData : list PhotoData) :
  let a' := handlePhotosSelected seen cs photoData live in
  List.length (photos (session a'))
  = Nat.min (List.length photoData) (List.length (placeholders (settings seen)))
  /\ (forall i d pl,
        nth_error photoData i = Some d ->
        nth_error (placeholders (settings seen)) i = Some pl ->
        exists p,
          nth_error (photos (session a')) i = Some p
          /\ ph_src p = pd_src d /\ ph_crop p = pd_crop d
          /\ forall cv, slotRect (ph_transform p) cv = placeholderRect pl cv)
  /\ stickers (session a') = [] /\ textLayers (session a') = []
  /\ history a' = [session a'] /\ historyIndex a' = 0%nat
  /\ appStep a' = FINALIZE_AND_EXPORT
  /\ undo seen' a' = Js.Ok (a', []).
Proof.
  cbn zeta. unfold handlePhotosSelected.
  cbn [session sendMessage with_analytics with_appStep with_history
       with_session photos stickers textLayers history historyIndex appStep].
  rewrite photosFromData_combine. cbn [skipn].
  split; [rewrite length_map, length_combine; reflexivity|].
  split.
  - intros i d pl Hd Hp.
    exists (dataPhoto cs (d, pl)).
    split.
    + apply map_nth_error. apply nth_error_combine; assumption.
    + split; [reflexivity|]. split; [reflexivity|].
      intros cv. apply slot_is_placeholder.
  - repeat split.
Qed.

(** *** The sort of the hot-folder files *)

Lemma insertSorted_perm {A : Type} (compare : A -> A -> Z) (x : A)
    (l : list A) :
  Permutation (insertSorted compare x l) (x :: l).
Proof.
  induction l as [|y r IH]; cbn [insertSorted]; [apply Permutation_refl|].
  destruct (0 <? compare x y)%Z; [|apply Permutation_refl].
  apply perm_trans with (y :: x :: r); [|apply perm_swap].
  apply perm_skip. exact IH.
Qed.

Lemma Array_sort_perm {A : Type} (compare : A -> A -> Z) (l : list A) :
  Permutation (Array_sort compare l) l.
Proof.
  induction l as [|x r IH]; cbn [Array_sort]; [apply Permutation_refl|].
  apply perm_trans with (x :: Array_sort compare r).
  - apply insertSorted_perm.
  - apply perm_skip. exact IH.
Qed.

Lemma insertSorted_sorted {A : Type} (compare : A -> A -> Z) (x : A)
    (l : list A) :
  consistent compare ->
  StronglySorted (fun a b => (compare a b <= 0)%Z) l ->
  StronglySorted (fun a b => (compare a b <= 0)%Z) (insertSorted compare x l).
Proof.
  intros [Hanti Htrans]. induction l as [|y r IH]; intros Hs;
    cbn [insertSorted].
  - constructor; constructor.
  - apply StronglySorted_inv in Hs as [Hr Hy].
    destruct (0 <? compare x y)%Z eqn:E.
    + apply Z.ltb_lt in E. constructor; [apply IH; exact Hr|].
      apply (Permutation_Forall (Permutation_sym (insertSorted_perm compare x r))).
      constructor; [|exact Hy].
      specialize (Hanti _ _ E). lia.
    + apply Z.ltb_ge in E. constructor.
      * constructor; assumption.
      * constructor; [exact E|].
        apply Forall_forall. intros z Hz.
        apply (Htrans x y z E).
        exact (proj1 (Forall_forall _ _) Hy z Hz).
Qed.

Lemma Array_sort_sorted {A : Type} (compare : A -> A -> Z) (l : list A) :
  consistent compare ->
  StronglySorted (fun a b => (compare a b <= 0)%Z) (Array_sort compare l).
Proof.
  intros Hc. induction l as [|x r IH]; cbn [Array_sort].
  - constructor.
  - apply insertSorted_sorted; assumption.
Qed.

Lemma byName_consistent (localeCompare : string -> string -> Z) :
  consistent localeCompare -> consistent (byName localeCompare).
Proof.
  intros [Hanti Htrans]. split; unfold byName.
  - intros a b. apply Hanti.
  - intros a b c. apply Htrans.
Qed.

(** *** The loop over the sorted files *)

Lemma min_free_slot (m len k : nat) :
  (k < len)%nat ->
  Nat.min (S m) (len - k) = S (Nat.min m (len - S k)).
Proof. lia. Qed.

Lemma photosFromFiles_loaded (k : nat) (files : list HotFile)
    (slots : list Placeholder) (cs : R * R) :
  (forall f,
     In f (firstn (Nat.min (List.length files) (List.length slots - k)) files) ->
     hf_image f <> None) ->
  exists news,
    photosFromFiles k files slots cs = Some news
    /\ List.length news = Nat.min (List.length files) (List.length slots - k)
    /\ forall j f pl,
         nth_error files j = Some f ->
         nth_error slots (k + j) = Some pl ->
         exists img,
           hf_image f = Some img
           /\ nth_error news j
              = Some (createPhotoFromPlaceholder (hf_url f) pl cs img).
Proof.
  revert k. induction files as [|f rest IH]; intros k Hload.
  - exists []. split; [reflexivity|]. split; [reflexivity|].
    intros [|j] g pl Hg; discriminate.
  - cbn [photosFromFiles].
    destruct (nth_error slots k) as [pl0|] eqn:E.
    + assert (Hk : (k < List.length slots)%nat)
        by (apply nth_error_Some; congruence).
      cbn [List.length] in Hload |- *.
      rewrite (min_free_slot (List.length rest) _ _ Hk) in Hload |- *.
      cbn [firstn] in Hload.
      destruct (hf_image f) as [img|] eqn:Ef;
        [|exfalso; apply (Hload f); [left; reflexivity | exact Ef]].
      destruct (IH (S k)) as (news & H1 & H2 & H3).
      { intros g Hg. apply Hload. right. exact Hg. }
      rewrite H1. cbn [option_map].
      eexists. split; [reflexivity|].
      split; [cbn [List.length]; rewrite H2; reflexivity|].
      intros [|j] g pl Hg Hp.
      * cbn in Hg. injection Hg as <-.
        rewrite Nat.add_0_r in Hp. rewrite E in Hp. injection Hp as <-.
        exists img. split; [exact Ef | reflexivity].
      * cbn in Hg. cbn [nth_error].
        apply (H3 j g pl Hg).
        replace (S k + j)%nat with (k + S j)%nat by lia. exact Hp.
    + assert (Hk : (List.length slots <= k)%nat)
        by (apply nth_error_None; exact E).
      exists []. split; [reflexivity|].
      split; [cbn [List.length]; lia|].
      intros j g pl _ Hp.
      assert (nth_error slots (k + j) = None) by (apply nth_error_None; lia).
      congruence.
Qed.

Lemma photosFromFiles_stuck (k : nat) (files : list HotFile)
    (slots : list Placeholder) (cs : R * R) :
  (exists f,
     In f (firstn (Nat.min (List.length files) (List.length slots - k)) files)
     /\ hf_image f = None) ->
  photosFromFiles k files slots cs = None.
Proof.
  revert k. induction files as [|f rest IH]; intros k (g & Hg & Hn).
  - cbn in Hg. contradiction.
  - cbn [photosFromFiles].
    destruct (nth_error slots k) as [pl0|] eqn:E.
    + assert (Hk : (k < List.length slots)%nat)
        by (apply nth_error_Some; congruence).
      cbn [List.length] in Hg. rewrite (min_free_slot (List.length rest) _ _ Hk) in Hg.
      cbn [firstn] in Hg.
      destruct (hf_image f) as [img|] eqn:Ef; [|reflexivity].
      destruct Hg as [Hg|Hg]; [subst g; congruence|].
      rewrite (IH (S k)); [reflexivity|].
      exists g. split; assumption.
    + assert (Hk : (List.length slots <= k)%nat)
        by (apply nth_error_None; exact E).
      cbn [List.length] in Hg.
      replace (Nat.min (S (List.length rest)) (List.length slots - k))
        with 0%nat in Hg by lia.
      cbn in Hg. contradiction.
Qed.

(** X25.  The files arriving from the hot folder are sorted by name, and
    as many of them as there are placeholders behind the photo count the
    handler saw are loaded, file [j] of the sorted list into the
    placeholder [j] places behind that count; the other files are
    ignored.  When one of these images does not load the handler never
    sets the state.  Otherwise the new photos are appended to the photos
    the session holds when the state is set, which are kept.  When the
    session then holds no more photos than the handler saw it never
    comes to hold more than it held or than there are placeholders; when
    photos were added since and enough files arrive, it comes to hold
    more photos than there are placeholders. *)
Theorem hot_folder_fills_free_slots (localeCompare : string -> string -> Z)
    (seen live : AppState) (cs : R * R) (newPhotos : list HotFile) :
  consistent localeCompare ->
  let sortedFiles := Array_sort (byName localeCompare) newPhotos in
  let k := List.length (photos (session seen)) in
  let slots := placeholders (settings seen) in
  let n := Nat.min (List.length newPhotos) (List.length slots - k) in
  let a' := handleNewPhotosFromHotFolder localeCompare seen cs newPhotos live in
  Permutation sortedFiles newPhotos
  /\ StronglySorted
       (fun f g => (localeCompare (hf_name f) (hf_name g) <= 0)%Z) sortedFiles
  /\ ((exists f, In f (firstn n sortedFiles) /\ hf_image f = None) ->
      a' = live)
  /\ ((forall f, In f (firstn n sortedFiles) -> hf_image f <> None) ->
      exists news,
        photos (session a') = photos (session live) ++ news
        /\ List.length news = n
        /\ (forall j f pl,
              nth_error sortedFiles j = Some f ->
              nth_error slots (k + j) = Some pl ->
              exists img,
                hf_image f = Some img
                /\ nth_error news j
                   = Some (createPhotoFromPlaceholder (hf_url f) pl cs img))
        /\ ((List.length (photos (session live)) <= k)%nat ->
            (List.length (photos (session a'))
             <= Nat.max (List.length (photos (session live)))
                  (List.length slots))%nat)
        /\ ((k < List.length (photos (session live)))%nat ->
            (k <= List.length slots)%nat ->
            (List.length slots - k <= List.length newPhotos)%nat ->
            (List.length slots < List.length (photos (session a')))%nat)).
Proof.
  intros Hc. cbn zeta.
  set (sortedFiles := Array_sort (byName localeCompare) newPhotos).
  set (k := List.length (photos (session seen))).
  set (slots := placeholders (settings seen)).
  assert (Hperm : Permutation sortedFiles newPhotos)
    by apply Array_sort_perm.
  assert (Hlen : List.length sortedFiles = List.length newPhotos)
    by (apply Permutation_length; exact Hperm).
  rewrite <- Hlen.
  split; [exact Hperm|].
  split; [apply Array_sort_sorted; apply byName_consistent; exact Hc|].
  split.
  - intros Hstuck. unfold handleNewPhotosFromHotFolder.
    fold sortedFiles. fold k. fold slots.
    destruct (List.length slots =? 0)%nat; [reflexivity|].
    rewrite (photosFromFiles_stuck k sortedFiles slots cs Hstuck).
    reflexivity.
  - intros Hload.
    destruct (photosFromFiles_loaded k sortedFiles slots cs Hload)
      as (news & H1 & H2 & H3).
    unfold handleNewPhotosFromHotFolder.
    fold sortedFiles. fold k. fold slots. rewrite H1.
    destruct (List.length slots =? 0)%nat eqn:E0.
    + apply Nat.eqb_eq in E0.
      exists []. rewrite app_nil_r.
      split; [reflexivity|]. split; [cbn [List.length]; lia|].
      split.
      { intros j f pl _ Hp.
        assert (nth_error slots (k + j) = None) by (apply nth_error_None; lia).
        congruence. }
      split; lia.
    + destruct (0 <? List.length news)%nat eqn:E1.
      * exists news.
        cbn [session with_session photos session_with_photos].
        split; [reflexivity|]. split; [exact H2|]. split; [exact H3|].
        rewrite length_app, H2. split; lia.
      * apply Nat.ltb_ge in E1.
        assert (Hnil : news = []) by (destruct news; cbn in E1; [reflexivity | lia]).
        exists []. rewrite app_nil_r.
        split; [reflexivity|]. split; [rewrite <- H2, Hnil; reflexivity|].
        split; [rewrite <- Hnil; exact H3|].
        split; lia.
Qed.

(** ** Layout placeholders in the settings panel *)

Lemma validatePlaceholder_onCanvas (p : Placeholder) :
  onCanvas (validatePlaceholder p).
Proof.
  unfold onCanvas, validatePlaceholder, MIN_PLACEHOLDER_SIZE.
  cbn [pl_x pl_y pl_width pl_height].
  unfold Rmax, Rmin.
  repeat match goal with
         | |- context [Rle_dec ?a ?b] => destruct (Rle_dec a b)
         end; lra.
Qed.

Lemma validatePlaceholder_fixed (p : Placeholder) :
  onCanvas p -> validatePlaceholder p = p.
Proof.
  unfold onCanvas, MIN_PLACEHOLDER_SIZE. intros H.
  destruct p as [id x y w h ar ft]. cbn in H.
  unfold validatePlaceholder, MIN_PLACEHOLDER_SIZE.
  cbn [pl_id pl_x pl_y pl_width pl_height pl_aspectRatio pl_fit].
  assert (Ew : Rmax 0.05 (Rmin 1 w) = w).
  { rewrite Rmin_right by lra. rewrite Rmax_right by lra. reflexivity. }
  assert (Eh : Rmax 0.05 (Rmin 1 h) = h).
  { rewrite Rmin_right by lra. rewrite Rmax_right by lra. reflexivity. }
  rewrite Ew, Eh.
  assert (Ex : Rmax 0 (Rmin (1 - w) x) = x).
  { rewrite Rmin_right by lra. rewrite Rmax_right by lra. reflexivity. }
  assert (Ey : Rmax 0 (Rmin (1 - h) y) = y).
  { rewrite Rmin_right by lra. rewrite Rmax_right by lra. reflexivity. }
  rewrite Ex, Ey. reflexivity.
Qed.

(** X26.  The placeholders saved from the layout editor are validated:
    whatever was drawn, each saved placeholder is between 5% and the
    whole of the canvas in width and in height and lies on the canvas.
    Identifiers are kept, placeholders that lay on the canvas are saved
    as they were, and validating twice is validating once. *)
Theorem validated_placeholders_on_canvas (l : list Placeholder) :
  Forall onCanvas (validatePlaceholders l)
  /\ map pl_id (validatePlaceholders l) = map pl_id l
  /\ (Forall onCanvas l -> validatePlaceholders l = l)
  /\ validatePlaceholders (validatePlaceholders l) = validatePlaceholders l.
Proof.
  assert (H1 : Forall onCanvas (validatePlaceholders l)).
  { unfold validatePlaceholders. apply Forall_map.
    apply Forall_forall. intros p _. apply validatePlaceholder_onCanvas. }
  assert (H3 : forall k, Forall onCanvas k -> validatePlaceholders k = k).
  { intros k Hk. unfold validatePlaceholders.
    induction Hk as [|p r Hp Hr IH]; [reflexivity|].
    cbn [map]. rewrite IH, (validatePlaceholder_fixed p Hp). reflexivity. }
  split; [exact H1|]. split.
  - unfold validatePlaceholders. rewrite map_map. reflexivity.
  - split; [apply H3 | apply H3; exact H1].
Qed.

(** ** Suggested grid layouts *)






(** ** The layout editor: debounced saving *)

Section LayoutEditorFacts.

Import LayoutEditor.
#[local] Open Scope nat_scope.

Lemma layout_run_app (a b : list Event) (s : State) :
  run s (a ++ b) = (s' <- run s a ;; run s' b).
Proof.
  revert s. induction a as [|e a IH]; intros s; [reflexivity|].
  cbn [List.app run]. destruct (step s e); cbn [Js.bind]; auto.
Qed.

Lemma layout_burst_run (more : list Event) (s : State) (v : list Placeholder) :
  burst more ->
  debounceTimer s = Some (now s + DEBOUNCE_MS, v) ->
  pendingPlaceholders s = v ->
  exists s1,
    run s more = Js.Ok s1
    /\ saved s1 = saved s
    /\ debounceTimer s1 = Some (now s1 + DEBOUNCE_MS, lastChange v more)
    /\ pendingPlaceholders s1 = lastChange v more.
Proof.
  intros Hb. revert s v.
  induction Hb as [|gap next evs Hgap Hb IH]; intros s v Ht Hp.
  - exists s. cbn. auto.
  - cbn [run step Js.bind lastChange].
    assert (Hdue : (now s + DEBOUNCE_MS <=? now s + gap) = false)
      by (apply Nat.leb_gt; lia).
    set (s1 := handlePlaceholdersChange next (elapse gap s)).
    assert (Hs1 : saved s1 = saved s
                  /\ debounceTimer s1 = Some (now s1 + DEBOUNCE_MS, next)
                  /\ pendingPlaceholders s1 = next).
    { unfold s1, handlePlaceholdersChange, elapse. rewrite Ht, Hdue.
      cbn [historyRef historyIndexRef now saved].
      match goal with
      | |- context [if ?b then _ else _] => destruct b
      end; cbn; auto. }
    destruct Hs1 as (Q1 & Q2 & Q3).
    destruct (IH s1 next Q2 Q3) as (s2 & R1 & R2 & R3 & R4).
    exists s2. split; [exact R1|]. split; [congruence|]. auto.
Qed.

(** X28.  The layout editor saves a burst of edits once: after a change
    followed by any number of further changes, each less than 250 ms
    after the one before, and then 250 ms or more without a change, the
    placeholders of the last change have been saved, once, and nothing
    else; no save is left scheduled. *)
Theorem layout_edit_burst_saved_once (s : State) (first : list Placeholder)
    (more : list Event) (ms : nat) :
  burst more ->
  DEBOUNCE_MS <= ms ->
  exists s',
    run s (Change first :: more ++ [Elapse ms]) = Js.Ok s'
    /\ saved s' = saved s ++ [lastChange first more]
    /\ pendingPlaceholders s' = lastChange first more
    /\ debounceTimer s' = None.
Proof.
  intros Hb Hms.
  cbn [run step Js.bind].
  set (s0 := handlePlaceholdersChange first s).
  assert (Hs0 : saved s0 = saved s
                /\ debounceTimer s0 = Some (now s0 + DEBOUNCE_MS, first)
                /\ pendingPlaceholders s0 = first).
  { unfold s0, handlePlaceholdersChange.
    match goal with
    | |- context [if ?b then _ else _] => destruct b
    end; cbn; auto. }
  destruct Hs0 as (Q1 & Q2 & Q3).
  destruct (layout_burst_run more s0 first Hb Q2 Q3) as (s1 & R1 & R2 & R3 & R4).
  rewrite layout_run_app, R1. cbn [Js.bind run step].
  eexists. split; [reflexivity|].
  unfold elapse. rewrite R3.
  replace (now s1 + DEBOUNCE_MS <=? now s1 + ms) with true
    by (symmetry; apply Nat.leb_le; lia).
  cbn. rewrite R2, Q1. auto.
Qed.

Lemma layout_resets_keep_timer (rs : list (list Placeholder)) (s : State) :
  exists s1,
    run s (map LayoutChanged rs) = Js.Ok s1
    /\ debounceTimer s1 = debounceTimer s
    /\ now s1 = now s
    /\ saved s1 = saved s.
Proof.
  revert s. induction rs as [|r rs IH]; intros s.
  - exists s. cbn. auto.
  - cbn [map run step Js.bind].
    destruct (IH (layoutChanged r s)) as (s1 & H1 & H2 & H3 & H4).
    exists s1. split; [exact H1|]. cbn in H2, H3, H4. auto.
Qed.

(** X29.  An undo in the layout editor commits the earlier placeholders
    at once but leaves the scheduled save of the undone change in place.
    When the undo follows the change by less than 250 ms, the scheduled
    save still fires, whether or not the editor is handed a new layout
    in between: the placeholders saved last are those of the change that
    was undone. *)
Theorem layout_undo_overwritten_by_save (s : State) (v0 v : list Placeholder)
    (gap ms : nat) (renders : list (list Placeholder)) :
  nth_error (historyRef s) (historyIndexRef s) = Some v0 ->
  changed (Some v0) v = true ->
  gap < DEBOUNCE_MS ->
  DEBOUNCE_MS <= gap + ms ->
  (exists s1,
     run s [Change v; Elapse gap; Undo] = Js.Ok s1
     /\ pendingPlaceholders s1 = v0
     /\ saved s1 = saved s ++ [v0])
  /\ exists s',
       run s ([Change v; Elapse gap; Undo] ++ map LayoutChanged renders
              ++ [Elapse ms]) = Js.Ok s'
       /\ saved s' = saved s ++ [v0; v]
       /\ last (saved s') [] = v.
Proof.
  intros H0 Hch Hgap Hms.
  assert (Hlt : historyIndexRef s < List.length (historyRef s)).
  { apply nth_error_Some. rewrite H0. discriminate. }
  assert (Hlen : List.length (firstn (historyIndexRef s + 1) (historyRef s))
                 = historyIndexRef s + 1).
  { rewrite length_firstn. lia. }
  assert (E1 : handlePlaceholdersChange v s
               = Build_State v
                   (firstn (historyIndexRef s + 1) (historyRef s) ++ [v])
                   (historyIndexRef s + 1) true false
                   (Some (now s + DEBOUNCE_MS, v)) (now s) (saved s)).
  { unfold handlePlaceholdersChange. rewrite H0, Hch.
    rewrite length_app, Hlen. cbn [List.length].
    replace (historyIndexRef s + 1 + 1 - 1) with (historyIndexRef s + 1) by lia.
    replace (0 <? historyIndexRef s + 1) with true
      by (symmetry; apply Nat.ltb_lt; lia).
    reflexivity. }
  assert (E2 : forall h,
             elapse gap
               (Build_State v h (historyIndexRef s + 1) true false
                  (Some (now s + DEBOUNCE_MS, v)) (now s) (saved s))
             = Build_State v h (historyIndexRef s + 1) true false
                 (Some (now s + DEBOUNCE_MS, v)) (now s + gap) (saved s)).
  { intros h. unfold elapse. cbn [debounceTimer now].
    replace (now s + DEBOUNCE_MS <=? now s + gap) with false
      by (symmetry; apply Nat.leb_gt; lia).
    reflexivity. }
  assert (E3 : undo
                 (Build_State v
                    (firstn (historyIndexRef s + 1) (historyRef s) ++ [v])
                    (historyIndexRef s + 1) true false
                    (Some (now s + DEBOUNCE_MS, v)) (now s + gap) (saved s))
               = Js.Ok
                   (Build_State v0
                      (firstn (historyIndexRef s + 1) (historyRef s) ++ [v])
                      (historyIndexRef s) (0 <? historyIndexRef s) true
                      (Some (now s + DEBOUNCE_MS, v)) (now s + gap)
                      (saved s ++ [v0]))).
  { unfold undo. cbn [historyIndexRef historyRef].
    replace (0 <? historyIndexRef s + 1) with true
      by (symmetry; apply Nat.ltb_lt; lia).
    replace (historyIndexRef s + 1 - 1) with (historyIndexRef s) by lia.
    rewrite nth_error_app1 by lia.
    rewrite nth_error_firstn.
    replace (historyIndexRef s <? historyIndexRef s + 1) with true
      by (symmetry; apply Nat.ltb_lt; lia).
    rewrite H0. reflexivity. }
  assert (R3 : run s [Change v; Elapse gap; Undo]
               = Js.Ok
                   (Build_State v0
                      (firstn (historyIndexRef s + 1) (historyRef s) ++ [v])
                      (historyIndexRef s) (0 <? historyIndexRef s) true
                      (Some (now s + DEBOUNCE_MS, v)) (now s + gap)
                      (saved s ++ [v0]))).
  { cbn [run step Js.bind]. rewrite E1, E2, E3. reflexivity. }
  split.
  - eexists. split; [exact R3|]. split; reflexivity.
  - rewrite layout_run_app, R3. cbn [Js.bind].
    rewrite layout_run_app.
    destruct (layout_resets_keep_timer renders
                (Build_State v0
                   (firstn (historyIndexRef s + 1) (historyRef s) ++ [v])
                   (historyIndexRef s) (0 <? historyIndexRef s) true
                   (Some (now s + DEBOUNCE_MS, v)) (now s + gap)
                   (saved s ++ [v0]))) as (s4 & Q1 & Q2 & Q3 & Q4).
    rewrite Q1. cbn [Js.bind run step].
    cbn [debounceTimer now saved] in Q2, Q3, Q4.
    unfold elapse. rewrite Q2, Q3.
    replace (now s + DEBOUNCE_MS <=? now s + gap + ms) with true
      by (symmetry; apply Nat.leb_le; lia).
    eexists. split; [reflexivity|].
    cbn [saved]. rewrite Q4, <- app_assoc. cbn [List.app].
    split; [reflexivity|].
    replace (saved s ++ [v0; v]) with ((saved s ++ [v0]) ++ [v])
      by (rewrite <- app_assoc; reflexivity).
    apply last_last.
Qed.

End LayoutEditorFacts.

(** ** The kiosk lock *)

Lemma digitsOnly_idem (s : string) : digitsOnly (digitsOnly s) = digitsOnly s.
Proof.
  induction s as [|c r IH]; [reflexivity|].
  cbn [digitsOnly]. destruct (isDigit c) eqn:E; [|exact IH].
  cbn [digitsOnly]. rewrite E, IH. reflexivity.
Qed.

(** X30.  A locked kiosk is unlocked from the lock overlay exactly when
    the digits typed into the PIN field are not empty and are the
    configured PIN.  A kiosk whose PIN is unset, empty or holds anything
    but digits therefore stays locked whatever is typed. *)
Theorem kiosk_unlock_needs_the_pin (kioskPin : option string) (now : nat)
    (k : Kiosk) :
  kioskLocked k = true ->
  (forall typed,
     kioskLocked (fst (unlockClick kioskPin now (onPinChange typed k))) = false
     <-> (digitsOnly typed <> EmptyString
          /\ pinOrEmpty kioskPin = digitsOnly typed))
  /\ (pinOrEmpty kioskPin = EmptyString
      \/ digitsOnly (pinOrEmpty kioskPin) <> pinOrEmpty kioskPin ->
      forall typed,
        kioskLocked (fst (unlockClick kioskPin now (onPinChange typed k)))
        = true).
Proof.
  intros Hk.
  assert (H : forall typed,
             kioskLocked (fst (unlockClick kioskPin now (onPinChange typed k)))
             = false
             <-> (digitsOnly typed <> EmptyString
                  /\ pinOrEmpty kioskPin = digitsOnly typed)).
  { intros typed. unfold unlockClick, attemptUnlock, onPinChange.
    cbn [unlockAttemptPin].
    destruct (String.eqb (digitsOnly typed) EmptyString) eqn:E0.
    - cbn [fst kioskLocked]. rewrite Hk.
      apply String.eqb_eq in E0. split; [discriminate|].
      intros [N _]. contradiction.
    - apply String.eqb_neq in E0.
      destruct (String.eqb (digitsOnly typed) (pinOrEmpty kioskPin)) eqn:E1.
      + apply String.eqb_eq in E1. cbn. split; auto.
      + apply String.eqb_neq in E1. cbn [fst kioskLocked]. rewrite Hk.
        split; [discriminate|]. intros [_ N]. congruence. }
  split; [exact H|].
  intros Hbad typed.
  destruct (kioskLocked (fst (unlockClick kioskPin now (onPinChange typed k))))
    eqn:E; [reflexivity|].
  apply H in E. destruct E as [E1 E2].
  destruct Hbad as [Hb|Hb].
  - congruence.
  - exfalso. apply Hb. rewrite E2. apply digitsOnly_idem.
Qed.

(** ** Further properties of the editor inside the application *)

Section EditorMore.

Variable measureText : string -> R -> string -> string -> R.

(** X21.  Moving the pointer over the canvas with no button down never
    edits: whatever the pointer passes over, the application state, the
    gesture state and the editor's copies of the layers stay as they
    are, and only the cursor changes. *)
Theorem hover_changes_nothing (es : list Pointer) (w : World) :
  mode (interaction (editor w)) = idle ->
  exists w',
    run measureText w (map PointerMove es) = Js.Ok w'
    /\ app w' = app w
    /\ interaction (editor w') = interaction (editor w)
    /\ transientPhotos (editor w') = transientPhotos (editor w)
    /\ transientStickers (editor w') = transientStickers (editor w)
    /\ transientText (editor w') = transientText (editor w).
Proof.
  revert w. induction es as [|e es IH]; intros w Hm.
  - exists w. cbn. auto 10.
  - cbn [map run].
    assert (Hs : step measureText w (PointerMove e)
                 = Js.Ok (Build_World (app w)
                            (setCursor
                               (hoverCursor
                                  (getHit measureText (envOf w) (editor w)
                                     (pt_mouse e)))
                               (editor w))
                            (w_canvas w) (w_dpr w))).
    { unfold step, handleMove. cbn [envOf props appProps p_isDrawingMode andb].
      rewrite Hm. reflexivity. }
    rewrite Hs. cbn [Js.bind].
    destruct (IH (Build_World (app w)
                    (setCursor
                       (hoverCursor
                          (getHit measureText (envOf w) (editor w) (pt_mouse e)))
                       (editor w))
                    (w_canvas w) (w_dpr w)) Hm)
      as (w' & Hr & Ha & Hi & Hp & Hst & Ht).
    exists w'. split; [exact Hr|]. cbn in Ha, Hi, Hp, Hst, Ht. auto 10.
Qed.

Lemma pointer_down_selects (w : World) (e : Pointer) :
  wellFormed w ->
  exists ed' type index,
    handleStart measureText (envOf w) (editor w) e
    = Js.Ok (ed', [OnSelectLayer type index]).
Proof.
  intros [(L1 & L2 & L3) Hg].
  destruct w as [a [[m sx sy v sa sd] tp ts tt c li fi] cv d].
  simpl in L1, L2, L3.
  unfold handleStart. simpl p_isDrawingMode. cbv iota. simpl andb.
  cbv iota.
  destruct (getHit measureText _ _ _) as [h|] eqn:Hhit.
  - destruct (getHit_sound measureText _ _ _ _ Hhit)
      as [(Hlt & t & Ht) | [(Hlt & s & Hs) | (Hlt & Hns & p & Hp)]];
      destruct h as [ty lt k]; simpl in Hlt, Ht || simpl in Hlt, Hs
                               || simpl in Hlt, Hns, Hp;
      subst lt; clear Hhit Hg; unfold startObject; simpl h_layerType;
      simpl h_index;
      cbv iota; rewrite get_of_nat; simpl transientText;
      simpl transientStickers; simpl transientPhotos.
    + rewrite Ht. cbn [Js.bind Js.deref].
      destruct ty; simpl; eexists; eexists; eexists; reflexivity.
    + rewrite Hs. cbn [Js.bind Js.deref].
      destruct ty; simpl; eexists; eexists; eexists; reflexivity.
    + rewrite Hp. cbn [Js.bind Js.deref].
      destruct ty; simpl in Hns; try congruence; simpl;
        eexists; eexists; eexists; reflexivity.
  - eexists; eexists; eexists; reflexivity.
Qed.

Lemma pointer_up_result (w : World) :
  step measureText w PointerUp
  = Js.Ok (Build_World (app w)
             (with_interaction (with_mode idle (interaction (editor w)))
                (editor w))
             (w_canvas w) (w_dpr w)).
Proof.
  unfold step, handleEnd, withEditor.
  cbn [envOf props appProps p_isDrawingMode andb snd fst].
  destruct (mode (interaction (editor w))); reflexivity.
Qed.

(** X22.  A click, a pointer-down followed by a pointer-up with no move
    in between, only selects: it runs without raising, changes the
    selection at most, and leaves the session, the history and the
    messages sent to the guest window as they are. *)
Theorem click_only_selects (w : World) (e : Pointer) :
  wellFormed w ->
  exists w',
    run measureText w [PointerDown e; PointerUp] = Js.Ok w'
    /\ session (app w') = session (app w)
    /\ history (app w') = history (app w)
    /\ historyIndex (app w') = historyIndex (app w)
    /\ sent (app w') = sent (app w)
    /\ mode (interaction (editor w')) = idle.
Proof.
  intros Hwf.
  destruct (pointer_down_selects w e Hwf) as (ed' & type & index & Hs).
  assert (H1 : step measureText w (PointerDown e)
               = Js.Ok (Build_World (handleSelectLayer type index (app w)) ed'
                          (w_canvas w) (w_dpr w))).
  { unfold step. rewrite Hs. reflexivity. }
  cbn [run]. rewrite H1. cbn [Js.bind].
  rewrite pointer_up_result. cbn [Js.bind].
  eexists. split; [reflexivity|].
  cbn. auto 10.
Qed.





End EditorMore.

(** ** Instances of the further properties *)

Lemma history_run_keeps_invariant_witness :
  exists a',
    historyRun demoTextApp
      [DoEdit demoTextApp (sessionOf [] [] []); DoUndo demoTextApp;
       DoUndo demoTextApp; DoRedo demoTextApp]
    = Js.Ok a'
    /\ historyOK a'.
Proof.
  apply history_run_keeps_invariant. reflexivity.
Defined.



Lemma undo_crosses_guest_start_witness :
  session (handleGuestActionDispatch demoTextApp GUEST_START demoTextApp)
  = emptySession true
  /\ history (handleGuestActionDispatch demoTextApp GUEST_START demoTextApp)
     = history demoTextApp
  /\ exists a',
       undo demoTextApp
         (updateSessionWithHistory demoTextApp (sessionOf [] [] [])
            (handleGuestActionDispatch demoTextApp GUEST_START demoTextApp))
       = Js.Ok (a', [Build_Notice "Undo" toast_info])
       /\ session a' = session demoTextApp.
Proof.
  apply (undo_crosses_guest_start demoTextApp demoTextApp demoTextApp
           (sessionOf [] [] []) demoTextApp).
  reflexivity.
Defined.

Lemma reorder_forward_swaps_witness :
  exists a',
    onReorderPhoto 0 forward twoPhotosApp = Js.Ok a'
    /\ photos (session a') = [demoPhoto 90 2; demoPhoto 0 1]
    /\ stickers (session a') = stickers (session twoPhotosApp)
    /\ textLayers (session a') = textLayers (session twoPhotosApp)
    /\ (selectedLayerType twoPhotosApp = photo ->
        selectedLayerIndex twoPhotosApp = 0%Z ->
        Js.get (photos (session a')) (selectedLayerIndex a')
        = Some (demoPhoto 0 1)).
Proof.
  apply (reorder_forward_swaps twoPhotosApp [] [] (demoPhoto 0 1)
           (demoPhoto 90 2)).
  reflexivity.
Defined.


Lemma reorder_first_backward_witness :
  (exists a',
     onReorderPhoto 0 backward threePhotosApp = Js.Ok a'
     /\ photos (session a')
        = [demoPhoto 90 2; demoPhoto 0 1; demoPhoto 180 1]
     /\ selectedLayerIndex a' = (-1)%Z)
  /\ (exists a',
        onReorderPhoto 0 backward onePhotoApp = Js.Ok a'
        /\ photos (session a') = [demoPhoto 0 1]
        /\ selectedLayerIndex a' = (-1)%Z).
Proof.
  split.
  - destruct (reorder_first_backward threePhotosApp (demoPhoto 0 1)
                [demoPhoto 90 2; demoPhoto 180 1] eq_refl)
      as (a' & H1 & _ & H3 & _ & H5 & _).
    exists a'. split; [exact H1|].
    split; [apply (H3 [demoPhoto 90 2] (demoPhoto 180 1) eq_refl)|].
    apply H5; reflexivity.
  - destruct (reorder_first_backward onePhotoApp (demoPhoto 0 1) [] eq_refl)
      as (a' & H1 & _ & _ & H4 & H5 & _).
    exists a'. split; [exact H1|].
    split; [apply H4; cbn; lia|].
    apply H5; reflexivity.
Defined.


Lemma delete_key_reverts_later_edits_witness :
  exists after,
    handleKeyDown (Build_Operator stickerAndTextApp closedPanels) deleteKey
      (Build_Operator
         (updateSessionWithHistory stickerAndTextApp
            (session_with_filter "grayscale(100%)" (session stickerAndTextApp))
            stickerAndTextApp)
         closedPanels)
    = Js.Ok (after, [PreventDefault])
    /\ filter (session (op_app after)) = EmptyString
    /\ stickers (session (op_app after)) = [].
Proof.
  destruct (delete_key_reverts_later_edits stickerAndTextApp stickerAndTextApp
              closedPanels
              (session_with_filter "grayscale(100%)" (session stickerAndTextApp))
              eq_refl eq_refl eq_refl (Z.le_refl 0))
    as (_ & after & H1 & H2 & _).
  exists after. split; [exact H1|]. rewrite H2. split; reflexivity.
Defined.

Lemma smart_crop_resets_crop_witness :
  handleSmartCrop 5 twoPhotosApp = twoPhotosApp
  /\ Js.get (photos (session (handleSmartCrop 1 twoPhotosApp))) 1
     = Some (photo_with_crop (Build_Crop 0 0 1.25) (demoPhoto 90 2))
  /\ Js.get (photos (session (handleSmartCrop 1 twoPhotosApp))) 0
     = Some (demoPhoto 0 1).
Proof.
  destruct (smart_crop_resets_crop 5 twoPhotosApp) as [H5 _].
  destruct (smart_crop_resets_crop 1 twoPhotosApp) as [_ H1].
  destruct (H1 (demoPhoto 90 2) eq_refl) as (G1 & _ & G3).
  split; [apply H5; reflexivity|]. split; [exact G1|].
  rewrite (G3 0%Z); [reflexivity | lia].
Defined.

Lemma guest_action_round_trip_witness :
  Wire.validateInterWindowMessage
    (GuestWindow.sendAction
       (GuestWindow.actionValue (GUEST_EMAIL "guest@example.com"))) = true
  /\ Wire.handleGuestAction demoTextApp
       (GuestWindow.sendAction
          (GuestWindow.actionValue (GUEST_EMAIL "guest@example.com")))
       demoTextApp
     = Js.Ok (handleGuestActionDispatch demoTextApp
                (GUEST_EMAIL "guest@example.com") demoTextApp).
Proof.
  apply guest_action_round_trip.
  intros email H. injection H as H. subst email. cbn. lia.
Defined.

Lemma repeated_email_recorded_twice_witness :
  emailsCollected
    (analytics
       (handleGuestActionDispatch demoTextApp (GUEST_EMAIL "guest@example.com")
          (handleGuestActionDispatch demoTextApp
             (GUEST_EMAIL "guest@example.com") demoTextApp)))
  = ["guest@example.com"; "guest@example.com"]%string.
Proof.
  destruct (repeated_email_recorded_twice demoTextApp demoTextApp
              "guest@example.com") as [H _].
  - discriminate.
  - intros H. exact H.
  - exact H.
Defined.

Lemma delete_key_uses_stale_type_witness :
  keyListenerAfter (Build_Operator stickerAndTextApp closedPanels)
    (Build_Operator (handleSelectLayer text 0 stickerAndTextApp) closedPanels)
  = Build_Operator stickerAndTextApp closedPanels
  /\ exists after,
       handleKeyDown (Build_Operator stickerAndTextApp closedPanels) deleteKey
         (Build_Operator (handleSelectLayer text 0 stickerAndTextApp)
            closedPanels)
       = Js.Ok (after, [PreventDefault])
       /\ textLayers (session (op_app after)) = [demoText]
       /\ stickers (session (op_app after)) = [].
Proof.
  destruct (delete_key_uses_stale_type stickerAndTextApp closedPanels 0
              eq_refl eq_refl eq_refl eq_refl (Z.le_refl 0))
    as (H1 & (after & H2 & H3 & H4 & _) & _).
  split; [exact H1|].
  exists after. split; [exact H2|]. split; [exact H3 | exact H4].
Defined.

Lemma vending_print_flow_witness :
  calls (handleGuestActionDispatch vendingApp GUEST_PRINT vendingApp) = []
  /\ sent (handleGuestActionDispatch vendingApp GUEST_PRINT vendingApp)
     = [paymentState vendingApp]
  /\ calls (handleGuestActionDispatch vendingApp GUEST_PAYMENT_COMPLETE
              (handleGuestActionDispatch vendingApp GUEST_PRINT vendingApp))
     = [CallPrintInternal].
Proof.
  destruct (vending_print_flow vendingApp vendingApp eq_refl eq_refl)
    as (H1 & H2 & _ & _ & H5 & _).
  split; [exact H1|]. split; [exact H2 | exact H5].
Defined.

Lemma settled_idleCompositor : settled idleCompositor.
Proof. unfold settled. cbn. auto 10. Qed.

Lemma compositor_single_flight_witness :
  (Compositor.inFlight
     (Compositor.run idleCompositor
        [Compositor.Edit demoRender; Compositor.Elapse 200;
         Compositor.Edit demoRender; Compositor.Elapse 200]) <= 1)%nat
  /\ (List.length
        (Compositor.posted
           (Compositor.run idleCompositor
              [Compositor.Edit demoRender; Compositor.Elapse 200;
               Compositor.Edit demoRender; Compositor.Elapse 200]))
      <= List.length (Compositor.posted idleCompositor) + 0 + 1)%nat.
Proof.
  destruct (compositor_single_flight
              [Compositor.Edit demoRender; Compositor.Elapse 200;
               Compositor.Edit demoRender; Compositor.Elapse 200]
              idleCompositor settled_idleCompositor) as (H1 & _ & H3).
  split; [exact H1 | exact H3].
Defined.

Lemma spaced_edits_all_post_witness :
  Compositor.posted
    (Compositor.run idleCompositor
       (flat_map cycleEvents [demoCycle 150 "data:1"; demoCycle 400 "data:2"]))
  = Compositor.posted idleCompositor
    ++ map (fun c => Compositor.compositeRequest (cy_app c) (cy_canvas c))
         [demoCycle 150 "data:1"; demoCycle 400 "data:2"]
  /\ settled
       (Compositor.run idleCompositor
          (flat_map cycleEvents
             [demoCycle 150 "data:1"; demoCycle 400 "data:2"])).
Proof.
  apply spaced_edits_all_post.
  - exact settled_idleCompositor.
  - repeat constructor; unfold Compositor.DEBOUNCE_MS; cbn; lia.
Defined.


Lemma photo_fit_modes_witness :
  exists dw dh,
    drawPhoto demoEnv loadedEditor (demoPhoto 0 1)
    = [Save;
       Translate (bx_x (toAbsolute (ph_transform (demoPhoto 0 1)) demoCanvas))
         (bx_y (toAbsolute (ph_transform (demoPhoto 0 1)) demoCanvas));
       Rotate (tr_rotation (ph_transform (demoPhoto 0 1)) * PI / 180);
       BeginPath;
       Rect
         (- (bx_width (toAbsolute (ph_transform (demoPhoto 0 1)) demoCanvas)
             * p_globalPhotoScale (props demoEnv)) / 2)
         (- (bx_height (toAbsolute (ph_transform (demoPhoto 0 1)) demoCanvas)
             * p_globalPhotoScale (props demoEnv)) / 2)
         (bx_width (toAbsolute (ph_transform (demoPhoto 0 1)) demoCanvas)
          * p_globalPhotoScale (props demoEnv))
         (bx_height (toAbsolute (ph_transform (demoPhoto 0 1)) demoCanvas)
          * p_globalPhotoScale (props demoEnv));
       Clip;
       DrawImage (ph_src (demoPhoto 0 1))
         (- dw / 2 + crop_x (ph_crop (demoPhoto 0 1)))
         (- dh / 2 + crop_y (ph_crop (demoPhoto 0 1))) dw dh;
       Restore]
    /\ dw * ph_originalHeight (demoPhoto 0 1)
       = dh * ph_originalWidth (demoPhoto 0 1)
    /\ (ph_fit (demoPhoto 0 1) <> Some contain ->
        bx_width (toAbsolute (ph_transform (demoPhoto 0 1)) demoCanvas)
        * p_globalPhotoScale (props demoEnv)
        * crop_scale (ph_crop (demoPhoto 0 1)) <= dw
        /\ bx_height (toAbsolute (ph_transform (demoPhoto 0 1)) demoCanvas)
           * p_globalPhotoScale (props demoEnv)
           * crop_scale (ph_crop (demoPhoto 0 1)) <= dh)
    /\ (ph_fit (demoPhoto 0 1) = Some contain ->
        dw <= bx_width (toAbsolute (ph_transform (demoPhoto 0 1)) demoCanvas)
              * p_globalPhotoScale (props demoEnv)
              * crop_scale (ph_crop (demoPhoto 0 1))
        /\ dh <= bx_height (toAbsolute (ph_transform (demoPhoto 0 1)) demoCanvas)
                 * p_globalPhotoScale (props demoEnv)
                 * crop_scale (ph_crop (demoPhoto 0 1))).
Proof.
  apply (photo_fit_modes demoEnv loadedEditor (demoPhoto 0 1));
    try reflexivity; cbn; lra.
Defined.

Lemma hover_changes_nothing_witness :
  exists w',
    run demoMeasure squareSticker
      (map PointerMove [pointerAt 10 10; pointerAt 300 450]) = Js.Ok w'
    /\ app w' = app squareSticker
    /\ interaction (editor w') = interaction (editor squareSticker)
    /\ transientPhotos (editor w') = transientPhotos (editor squareSticker)
    /\ transientStickers (editor w') = transientStickers (editor squareSticker)
    /\ transientText (editor w') = transientText (editor squareSticker).
Proof.
  apply hover_changes_nothing. reflexivity.
Defined.

Lemma click_only_selects_witness :
  exists w',
    run demoMeasure squareSticker [PointerDown (pointerAt 300 450); PointerUp]
    = Js.Ok w'
    /\ session (app w') = session (app squareSticker)
    /\ history (app w') = history (app squareSticker)
    /\ historyIndex (app w') = historyIndex (app squareSticker)
    /\ sent (app w') = sent (app squareSticker)
    /\ mode (interaction (editor w')) = idle.
Proof.
  apply click_only_selects. apply demoWorld_wellFormed.
Defined.



Lemma photos_selected_fill_slots_witness :
  List.length
    (photos (session (handlePhotosSelected twoSlotsApp (600, 900)
                        [demoPhotoData "a.jpg"; demoPhotoData "b.jpg";
                         demoPhotoData "c.jpg"] twoSlotsApp)))
  = 2%nat
  /\ exists p,
       nth_error
         (photos (session (handlePhotosSelected twoSlotsApp (600, 900)
                             [demoPhotoData "a.jpg"; demoPhotoData "b.jpg";
                              demoPhotoData "c.jpg"] twoSlotsApp))) 1
       = Some p
       /\ ph_src p = "b.jpg"%string
       /\ slotRect (ph_transform p) demoCanvas
          = placeholderRect (demoSlot 2 0.55 0.3) demoCanvas.
Proof.
  destruct (photos_selected_fill_slots twoSlotsApp twoSlotsApp twoSlotsApp
              (600, 900)
              [demoPhotoData "a.jpg"; demoPhotoData "b.jpg";
               demoPhotoData "c.jpg"]) as (H1 & H2 & _).
  split; [exact H1|].
  destruct (H2 1%nat (demoPhotoData "b.jpg") (demoSlot 2 0.55 0.3)
              eq_refl eq_refl) as (p & Hp & Hs & _ & Hr).
  exists p. split; [exact Hp|]. split; [exact Hs | apply Hr].
Defined.

Lemma codeUnitCompare_consistent : consistent codeUnitCompare.
Proof.
  split; unfold codeUnitCompare.
  - intros a b. rewrite (String.compare_antisym b a).
    destruct (String.compare a b); cbn; lia.
  - intros a b c Hab Hbc.
    destruct (String.compare a b) eqn:Eab; [| |lia].
    + apply String.compare_eq_iff in Eab. subst b. exact Hbc.
    + destruct (String.compare b c) eqn:Ebc; [| |lia].
      * apply String.compare_eq_iff in Ebc. subst c. rewrite Eab. lia.
      * apply OrderedTypeEx.String_as_OT.cmp_lt in Eab.
        apply OrderedTypeEx.String_as_OT.cmp_lt in Ebc.
        pose proof (OrderedTypeEx.String_as_OT.lt_trans a b c Eab Ebc) as Hac.
        apply OrderedTypeEx.String_as_OT.cmp_lt in Hac.
        unfold OrderedTypeEx.String_as_OT.cmp in Hac. rewrite Hac. lia.
Qed.

Lemma hot_folder_fills_free_slots_witness :
  (exists p0 p1,
     photos (session (handleNewPhotosFromHotFolder codeUnitCompare twoSlotsApp
                        (600, 900)
                        [demoHotFile "b.jpg"; demoHotFile "c.jpg";
                         demoHotFile "a.jpg"] twoSlotsApp))
     = [p0; p1]
     /\ ph_src p0 = "blob:a.jpg"%string /\ ph_src p1 = "blob:b.jpg"%string)
  /\ (List.length (placeholders (settings twoSlotsApp))
      < List.length
          (photos (session (handleNewPhotosFromHotFolder codeUnitCompare
                              twoSlotsApp (600, 900)%R
                              [demoHotFile "b.jpg"; demoHotFile "c.jpg";
                               demoHotFile "a.jpg"] twoSlotsOnePhotoApp))))%nat.
Proof.
  assert (Hload : forall f,
            In f [demoHotFile "a.jpg"; demoHotFile "b.jpg"] ->
            hf_image f <> None).
  { intros f [<-|[<-|[]]]; discriminate. }
  split.
  - destruct (hot_folder_fills_free_slots codeUnitCompare twoSlotsApp twoSlotsApp (600, 900)
                [demoHotFile "b.jpg"; demoHotFile "c.jpg"; demoHotFile "a.jpg"]
                codeUnitCompare_consistent) as (_ & _ & _ & H).
    destruct (H Hload) as (news & N1 & N2 & N3 & _).
    destruct (N3 0%nat (demoHotFile "a.jpg") (demoSlot 1 0.05 0.3)
                eq_refl eq_refl) as (img0 & _ & P0).
    destruct (N3 1%nat (demoHotFile "b.jpg") (demoSlot 2 0.55 0.3)
                eq_refl eq_refl) as (img1 & _ & P1).
    destruct news as [|p0 [|p1 [|p2 news]]]; try discriminate.
    exists p0, p1. split; [exact N1|].
    cbn in P0, P1. injection P0 as ->. injection P1 as ->.
    split; reflexivity.
  - destruct (hot_folder_fills_free_slots codeUnitCompare twoSlotsApp twoSlotsOnePhotoApp
                (600, 900)
                [demoHotFile "b.jpg"; demoHotFile "c.jpg"; demoHotFile "a.jpg"]
                codeUnitCompare_consistent) as (_ & _ & _ & H).
    destruct (H Hload) as (news & _ & _ & _ & _ & N5).
    apply N5; cbn; lia.
Defined.

Lemma validated_placeholders_on_canvas_witness :
  validatePlaceholders [demoSlot 1 0.05 0.3] = [demoSlot 1 0.05 0.3].
Proof.
  destruct (validated_placeholders_on_canvas [demoSlot 1 0.05 0.3])
    as (_ & _ & H & _).
  apply H. constructor; [|constructor].
  unfold onCanvas, MIN_PLACEHOLDER_SIZE. cbn. lra.
Defined.


Lemma layout_edit_burst_saved_once_witness :
  exists s',
    LayoutEditor.run demoLayoutEditor
      (LayoutEditor.Change [demoSlot 1 0.1 0.3]
       :: [LayoutEditor.Elapse 100; LayoutEditor.Change [demoSlot 1 0.2 0.3]]
          ++ [LayoutEditor.Elapse 250])
    = Js.Ok s'
    /\ LayoutEditor.saved s'
       = LayoutEditor.saved demoLayoutEditor
         ++ [LayoutEditor.lastChange [demoSlot 1 0.1 0.3]
               [LayoutEditor.Elapse 100;
                LayoutEditor.Change [demoSlot 1 0.2 0.3]]]
    /\ LayoutEditor.pendingPlaceholders s'
       = LayoutEditor.lastChange [demoSlot 1 0.1 0.3]
           [LayoutEditor.Elapse 100; LayoutEditor.Change [demoSlot 1 0.2 0.3]]
    /\ LayoutEditor.debounceTimer s' = None.
Proof.
  apply layout_edit_burst_saved_once.
  - apply LayoutEditor.burst_cons;
      [unfold LayoutEditor.DEBOUNCE_MS; lia | apply LayoutEditor.burst_nil].
  - unfold LayoutEditor.DEBOUNCE_MS. lia.
Defined.

Lemma layout_undo_overwritten_by_save_witness :
  exists s',
    LayoutEditor.run demoLayoutEditor
      ([LayoutEditor.Change []; LayoutEditor.Elapse 100; LayoutEditor.Undo]
       ++ map LayoutEditor.LayoutChanged [[demoSlot 1 0.05 0.3]]
       ++ [LayoutEditor.Elapse 200])
    = Js.Ok s'
    /\ LayoutEditor.saved s'
       = LayoutEditor.saved demoLayoutEditor ++ [[demoSlot 1 0.05 0.3]; []]
    /\ last (LayoutEditor.saved s') [] = [].
Proof.
  destruct (layout_undo_overwritten_by_save demoLayoutEditor
              [demoSlot 1 0.05 0.3] [] 100 200 [[demoSlot 1 0.05 0.3]])
    as [_ H].
  - reflexivity.
  - reflexivity.
  - unfold LayoutEditor.DEBOUNCE_MS. lia.
  - unfold LayoutEditor.DEBOUNCE_MS. lia.
  - exact H.
Defined.

Lemma kiosk_unlock_needs_the_pin_witness :
  kioskLocked (fst (unlockClick (Some "1234"%string) 5000
                      (onPinChange "12a34" lockedKiosk))) = false
  /\ forall typed,
       kioskLocked (fst (unlockClick None 5000 (onPinChange typed lockedKiosk)))
       = true.
Proof.
  destruct (kiosk_unlock_needs_the_pin (Some "1234"%string) 5000 lockedKiosk
              eq_refl) as [H1 _].
  destruct (kiosk_unlock_needs_the_pin None 5000 lockedKiosk eq_refl)
    as [_ H2].
  split.
  - apply H1. split; [discriminate | reflexivity].
  - apply H2. left. reflexivity.
Defined.

Lemma frame_tap_dropped_witness :
  Wire.validateInterWindowMessage
    (GuestWindow.frameTap (GuestWindow.frameConfigValue "Frame 1" demoFrame))
  = false
  /\ Wire.handleGuestAction demoTextApp
       (GuestWindow.frameTap (GuestWindow.frameConfigValue "Frame 1" demoFrame))
       demoTextApp
     = Js.Ok demoTextApp.
Proof.
  destruct (frame_tap_dropped demoTextApp demoTextApp
              (GuestWindow.frameConfigValue "Frame 1" demoFrame) eq_refl)
    as (H1 & H2 & _).
  split; [exact H1 | exact H2].
Defined.
